(** * PyRep lifecycle controller: a shallow embedding of [pyrep/pyrep.py]

    The class [PyRep] drives an external simulator through foreign calls.
    Its methods are embedded as computations of a small monad over a
    [World]: the fields of the [PyRep] object, the part of the process
    they touch (working directory, the global [utils.step_lock], the
    [threading.Thread] objects), and the chronological [trace] of the
    effects the methods perform (engine calls, lock operations, thread
    starts and joins, sleeps, directory changes, prints).

    What the engine, the file system and the environment answer is not
    decided by this code: it is read from an [Env], an oracle that every
    theorem quantifies over.  Loops that the source writes as [while]
    take fuel; running out of fuel is the outcome [Diverge]. *)

From Stdlib Require Import List String Ascii ZArith Bool Arith Lia.
From Stdlib Require Import DecimalString.
Import ListNotations.
Open Scope string_scope.
Open Scope list_scope.

Set Implicit Arguments.

(** ** Data *)

(** A [threading.Thread] object is named by its index in the thread table. *)
Definition tid := nat.

(** [pyrep.const.Verbosity]: carried by [launch], never read by it. *)
Definition Verbosity := string.

Inductive FileKind := File | Dir.

(** Foreign calls into the engine ([sim.*] and [sim.lib.*]).  [simExtStep]
    carries its argument as written at the call site: [None] is the call
    [sim.simExtStep()] that leaves the argument to its default. *)
Inductive EngineCall :=
| simSetStringParameter (param : Z) (value : string)
| simExtLaunchUIThread (name : string) (options : Z) (scene root : string)
| simExtCanInitSimThread
| simExtSimThreadInit
| simExtStep (stepIfRunning : option bool)
| simGetStringParameter (param : Z)
| simReleaseBuffer
| simGetObjectsInTree (tree object_type options : Z)
| simGetObjectName (handle : Z)
| simExtGetExitRequest
| simExtPostExitRequest
| simExtSimThreadDestroy
| simStartSimulation
| simStopSimulation
| simCreateTexture (filename : string) (options : Z).

Inductive exn :=
| PyRepError (msg : string)
| EngineError (c : EngineCall)
| RuntimeError (msg : string)
| OSError (path : string)
| UnicodeEncodeError (s : string)
| UnicodeDecodeError (b : string)
| KeyboardInterrupt
| SystemExit.

(** [except Exception] does not catch [KeyboardInterrupt] or [SystemExit]. *)
Definition is_Exception (e : exn) : bool :=
  match e with
  | KeyboardInterrupt | SystemExit => false
  | _ => true
  end.

(** The two messages of [PyRepError] the lifecycle methods raise. *)
Definition NotLaunchedError : exn :=
  PyRepError "CoppeliaSim has not been launched. Call launch first.".

Definition SceneFileError (scene_file : string) : exn :=
  PyRepError (String.append "Scene file does not exist: " scene_file).

Inductive Target :=
| run_ui_thread (scene_file : string) (headless : bool) (verbosity : Verbosity)
| run_responsive_ui_thread.

Record Thread := mkThread {
  target : Target;
  daemon : bool;
  started : bool
}.

Inductive Event :=
| Print (msg : string)
| Sleep (ms : nat)
| Chdir (path : string)
| Acquire
| Release
| ThreadStart (t : tid)
| ThreadJoin (t : tid)
| Call (c : EngineCall).

(** Ghost record of method entries; it does not influence any method. *)
Inductive Method :=
| m_launch | m_start | m_stop | m_step | m_step_ui | m_shutdown.

(** Constants of [pyrep.backend.sim] / [simConst] that the source names. *)
Record SimConst := mkSimConst {
  sim_gui_all : Z;
  sim_gui_headless : Z;
  sim_stringparam_verbosity : Z;
  sim_stringparam_scene_path_and_name : Z;
  sim_verbosity_traceall : Z;
  sim_handle_scene : Z;
  ObjectType_ALL : Z
}.

(** Everything the code reads from outside.  The engine's answers are
    indexed by the call and by how many calls of that kind came before. *)
Record Env := mkEnv {
  environ : string -> option string;
  fs : string -> option FileKind;
  abspath : string -> string -> string;   (* os.path.abspath, given the cwd *)
  const : SimConst;
  raises : EngineCall -> nat -> bool;     (* the call raises *)
  truth : EngineCall -> nat -> bool;      (* truth value of the result *)
  buffer : EngineCall -> nat -> option string;    (* char* result, None = NULL *)
  handles : EngineCall -> nat -> option (list Z); (* int* result and its count *)
  new_handle : EngineCall -> nat -> Z;
  interrupt : tid -> option exn   (* exception delivered inside Thread.start *)
}.

(** Fields of the [PyRep] object that its methods read or write after
    construction, then the process state, the trace and the ghost log. *)
Record World := mkWorld {
  running : bool;
  _ui_thread : option tid;
  _responsive_ui_thread : option tid;
  _shutting_down : bool;
  _vrep_root : string;
  cwd : string;
  step_lock : bool;               (* utils.step_lock is held *)
  threads : list Thread;
  current : option tid;           (* None: a thread this module did not create *)
  trace : list Event;
  calls : list Method
}.

Definition set_running (b : bool) (w : World) : World :=
  mkWorld b (_ui_thread w) (_responsive_ui_thread w) (_shutting_down w)
          (_vrep_root w) (cwd w) (step_lock w) (threads w) (current w)
          (trace w) (calls w).

Definition set_ui_thread (t : option tid) (w : World) : World :=
  mkWorld (running w) t (_responsive_ui_thread w) (_shutting_down w)
          (_vrep_root w) (cwd w) (step_lock w) (threads w) (current w)
          (trace w) (calls w).

Definition set_responsive_ui_thread (t : option tid) (w : World) : World :=
  mkWorld (running w) (_ui_thread w) t (_shutting_down w)
          (_vrep_root w) (cwd w) (step_lock w) (threads w) (current w)
          (trace w) (calls w).

Definition set_shutting_down (b : bool) (w : World) : World :=
  mkWorld (running w) (_ui_thread w) (_responsive_ui_thread w) b
          (_vrep_root w) (cwd w) (step_lock w) (threads w) (current w)
          (trace w) (calls w).

Definition set_vrep_root (r : string) (w : World) : World :=
  mkWorld (running w) (_ui_thread w) (_responsive_ui_thread w) (_shutting_down w)
          r (cwd w) (step_lock w) (threads w) (current w)
          (trace w) (calls w).

Definition set_cwd (d : string) (w : World) : World :=
  mkWorld (running w) (_ui_thread w) (_responsive_ui_thread w) (_shutting_down w)
          (_vrep_root w) d (step_lock w) (threads w) (current w)
          (trace w) (calls w).

Definition set_step_lock (b : bool) (w : World) : World :=
  mkWorld (running w) (_ui_thread w) (_responsive_ui_thread w) (_shutting_down w)
          (_vrep_root w) (cwd w) b (threads w) (current w)
          (trace w) (calls w).

Definition set_threads (l : list Thread) (w : World) : World :=
  mkWorld (running w) (_ui_thread w) (_responsive_ui_thread w) (_shutting_down w)
          (_vrep_root w) (cwd w) (step_lock w) l (current w)
          (trace w) (calls w).

Definition set_current (c : option tid) (w : World) : World :=
  mkWorld (running w) (_ui_thread w) (_responsive_ui_thread w) (_shutting_down w)
          (_vrep_root w) (cwd w) (step_lock w) (threads w) c
          (trace w) (calls w).

Definition set_trace (l : list Event) (w : World) : World :=
  mkWorld (running w) (_ui_thread w) (_responsive_ui_thread w) (_shutting_down w)
          (_vrep_root w) (cwd w) (step_lock w) (threads w) (current w)
          l (calls w).

Definition set_calls (l : list Method) (w : World) : World :=
  mkWorld (running w) (_ui_thread w) (_responsive_ui_thread w) (_shutting_down w)
          (_vrep_root w) (cwd w) (step_lock w) (threads w) (current w)
          (trace w) l.

(** ** The monad: state, exceptions, divergence *)

Inductive Outcome (A : Type) :=
| Ret (a : A)
| Raise (e : exn)
| Diverge.

Arguments Raise {A} e.
Arguments Diverge {A}.

Definition M (A : Type) := World -> Outcome A * World.

Definition ret {A} (a : A) : M A := fun w => (Ret a, w).

Definition bind {A B} (m : M A) (f : A -> M B) : M B :=
  fun w =>
    match m w with
    | (Ret a, w') => f a w'
    | (Raise e, w') => (Raise e, w')
    | (Diverge, w') => (Diverge, w')
    end.

Notation "x <- c1 ;; c2" := (bind c1 (fun x => c2))
  (at level 61, c1 at next level, right associativity).
Notation "c1 ;; c2" := (bind c1 (fun _ => c2))
  (at level 61, right associativity).

Definition raise {A} (e : exn) : M A := fun w => (Raise e, w).

Definition diverge {A} : M A := fun w => (Diverge, w).

Definition gets {A} (f : World -> A) : M A := fun w => (Ret (f w), w).

Definition modify (f : World -> World) : M unit := fun w => (Ret tt, f w).

(** [try: m except <those e with catches e>: h e] *)
Definition try_except {A} (m : M A) (catches : exn -> bool) (h : exn -> M A) : M A :=
  fun w =>
    match m w with
    | (Raise e, w') => if catches e then h e w' else (Raise e, w')
    | r => r
    end.

(** [try: m finally: fin] *)
Definition try_finally {A} (m : M A) (fin : M unit) : M A :=
  fun w =>
    match m w with
    | (Diverge, w') => (Diverge, w')
    | (o, w') =>
        match fin w' with
        | (Ret _, w'') => (o, w'')
        | (Raise e, w'') => (Raise e, w'')
        | (Diverge, w'') => (Diverge, w'')
        end
    end.

(** [for _ in range(n): body] *)
Fixpoint for_range (n : nat) (body : M unit) : M unit :=
  match n with
  | O => ret tt
  | S n' => body ;; for_range n' body
  end.

(** [for x in l: body x] *)
Fixpoint for_each {A} (l : list A) (body : A -> M unit) : M unit :=
  match l with
  | [] => ret tt
  | x :: l' => body x ;; for_each l' body
  end.

(** ** Primitive effects *)

Definition log (e : Event) : M unit :=
  modify (fun w => set_trace (trace w ++ [e]) w).

Definition print (msg : string) : M unit := log (Print msg).

Definition sleep (ms : nat) : M unit := log (Sleep ms).

Definition enter (m : Method) : M unit :=
  modify (fun w => set_calls (calls w ++ [m]) w).

(** Calls of the same engine function, whatever their arguments. *)
Definition call_tag (c : EngineCall) : nat :=
  match c with
  | simSetStringParameter _ _ => 0
  | simExtLaunchUIThread _ _ _ _ => 1
  | simExtCanInitSimThread => 2
  | simExtSimThreadInit => 3
  | simExtStep _ => 4
  | simGetStringParameter _ => 5
  | simReleaseBuffer => 6
  | simGetObjectsInTree _ _ _ => 7
  | simGetObjectName _ => 8
  | simExtGetExitRequest => 9
  | simExtPostExitRequest => 10
  | simExtSimThreadDestroy => 11
  | simStartSimulation => 12
  | simStopSimulation => 13
  | simCreateTexture _ _ => 14
  end.

Definition is_call (c : EngineCall) (e : Event) : bool :=
  match e with
  | Call c' => Nat.eqb (call_tag c) (call_tag c')
  | _ => false
  end.

Definition occurrences (c : EngineCall) (tr : list Event) : nat :=
  List.length (filter (is_call c) tr).

(** [step_lock.acquire()]: a [threading.Lock] is not reentrant and blocks
    while it is held; in a run of one thread that is forever. *)
Definition acquire : M unit :=
  fun w =>
    if step_lock w then (Diverge, w)
    else (Ret tt, set_trace (trace w ++ [Acquire]) (set_step_lock true w)).

Definition release : M unit :=
  fun w => (Ret tt, set_trace (trace w ++ [Release]) (set_step_lock false w)).

(** [with utils.step_lock: body] *)
Definition with_step_lock {A} (body : M A) : M A :=
  acquire ;; try_finally body release.

Definition is_ascii (s : string) : bool :=
  forallb (fun a => Nat.ltb (nat_of_ascii a) 128) (list_ascii_of_string s).

(** [s.encode("ascii")] *)
Definition encode_ascii (s : string) : M string :=
  if is_ascii s then ret s else raise (UnicodeEncodeError s).

(** The code points of a [str] whose characters are below 256. *)
Definition str_points (s : string) : list N :=
  map N_of_ascii (list_ascii_of_string s).

(** A continuation byte [10xxxxxx] of UTF-8 and its six bits. *)
Definition continuation (a : ascii) : option N :=
  let n := N_of_ascii a in
  if N.leb 128 n && N.ltb n 192 then Some (n - 128)%N else None.

(** The code points that the bytes [b] encode in UTF-8, as the strict
    decoder of Python reads them: [None] for a stray or missing
    continuation byte, an overlong form, a surrogate, a code point above
    U+10FFFF, or a byte that starts no sequence. *)
Fixpoint utf8_points (b : list ascii) : option (list N) :=
  match b with
  | [] => Some []
  | a0 :: b1 =>
      let n0 := N_of_ascii a0 in
      if N.ltb n0 128 then option_map (cons n0) (utf8_points b1)
      else if N.ltb n0 194 then None
      else if N.ltb n0 224 then
        match b1 with
        | a1 :: b2 =>
            match continuation a1 with
            | Some c1 =>
                option_map (cons ((n0 - 192) * 64 + c1)%N) (utf8_points b2)
            | None => None
            end
        | _ => None
        end
      else if N.ltb n0 240 then
        match b1 with
        | a1 :: a2 :: b3 =>
            match continuation a1, continuation a2 with
            | Some c1, Some c2 =>
                let p := ((n0 - 224) * 4096 + c1 * 64 + c2)%N in
                if N.ltb p 2048 || (N.leb 55296 p && N.ltb p 57344) then None
                else option_map (cons p) (utf8_points b3)
            | _, _ => None
            end
        | _ => None
        end
      else if N.ltb n0 245 then
        match b1 with
        | a1 :: a2 :: a3 :: b4 =>
            match continuation a1, continuation a2, continuation a3 with
            | Some c1, Some c2, Some c3 =>
                let p := ((n0 - 240) * 262144 + c1 * 4096 + c2 * 64 + c3)%N in
                if N.ltb p 65536 || N.ltb 1114111 p then None
                else option_map (cons p) (utf8_points b4)
            | _, _, _ => None
            end
        | _ => None
        end
      else None
  end.

(** [sim.ffi.string(ptr).decode("utf-8")] for the bytes [b] at [ptr]. *)
Definition decode_utf8 (b : string) : M (list N) :=
  match utf8_points (list_ascii_of_string b) with
  | Some points => ret points
  | None => raise (UnicodeDecodeError b)
  end.

(** [x != y] for two [str]s given by their code points. *)
Fixpoint points_differ (x y : list N) : bool :=
  match x, y with
  | [], [] => false
  | a :: x', b :: y' => negb (N.eqb a b) || points_differ x' y'
  | _, _ => true
  end.

(** [str(z)] for an integer. *)
Definition str (z : Z) : string := NilZero.string_of_int (Z.to_int z).

Definition update_thread (t : tid) (f : Thread -> Thread) (l : list Thread)
  : list Thread :=
  map (fun p => if Nat.eqb (fst p) t then f (snd p) else snd p)
      (combine (seq 0 (List.length l)) l).

(** [threading.Thread(target=...)] *)
Definition Thread_new (tg : Target) : M tid :=
  fun w => (Ret (List.length (threads w)),
            set_threads (threads w ++ [mkThread tg false false]) w).

(** [t.daemon = True] *)
Definition set_daemon (t : tid) : M unit :=
  modify (fun w => set_threads
    (update_thread t (fun th => mkThread (target th) true (started th)) (threads w)) w).

Definition is_started (t : tid) (w : World) : bool :=
  match nth_error (threads w) t with
  | Some th => started th
  | None => false
  end.

Definition is_current (t : tid) (w : World) : bool :=
  match current w with
  | Some c => Nat.eqb c t
  | None => false
  end.

(** [t.join()]: refused before the thread is started and on the calling
    thread itself; otherwise returns once the thread has ended. *)
Definition join (t : tid) : M unit :=
  fun w =>
    if negb (is_started t w) then
      (Raise (RuntimeError "cannot join thread before it is started"), w)
    else if is_current t w then
      (Raise (RuntimeError "cannot join current thread"), w)
    else log (ThreadJoin t) w.

Section Controller.

Variable E : Env.

Definition isfile (p : string) : bool :=
  match fs E p with
  | Some File => true
  | _ => false
  end.

Definition exists_ (p : string) : bool :=
  match fs E p with
  | Some _ => true
  | None => false
  end.

(** [os.chdir(p)] *)
Definition chdir (p : string) : M unit :=
  match fs E p with
  | Some Dir => log (Chdir p) ;; modify (set_cwd p)
  | _ => raise (OSError p)
  end.

(** A foreign call: recorded, then raising or returning as the engine
    decides.  The result is the index under which the engine's answer to
    this call is found. *)
Definition call (c : EngineCall) : M nat :=
  fun w =>
    let n := occurrences c (trace w) in
    let w' := set_trace (trace w ++ [Call c]) w in
    if raises E c n then (Raise (EngineError c), w') else (Ret n, w').

Definition call_bool (c : EngineCall) : M bool :=
  n <- call c ;; ret (truth E c n).

Definition call_buffer (c : EngineCall) : M (option string) :=
  n <- call c ;; ret (buffer E c n).

Definition call_handles (c : EngineCall) : M (option (list Z)) :=
  n <- call c ;; ret (handles E c n).

Definition call_handle (c : EngineCall) : M Z :=
  n <- call c ;; ret (new_handle E c n).

(** *** [PyRep.__init__] *)
Definition __init__ : M unit :=
  modify (set_running false) ;;
  modify (set_ui_thread None) ;;
  modify (set_responsive_ui_thread None) ;;
  modify (set_shutting_down false) ;;
  match environ E "COPPELIASIM_ROOT" with
  | None =>
      raise (PyRepError "COPPELIASIM_ROOT not defined. See installation instructions.")
  | Some root =>
      modify (set_vrep_root root) ;;
      if negb (exists_ root) then
        raise (PyRepError
          "COPPELIASIM_ROOT was not a correct path. See installation instructions")
      else ret tt
  end.

(** *** [PyRep._run_ui_thread] *)
Definition _run_ui_thread (scene_file : string) (headless : bool)
           (verbosity : Verbosity) : M unit :=
  root <- gets _vrep_root ;;
  chdir root ;;
  let options :=
    if headless then sim_gui_headless (const E) else sim_gui_all (const E) in
  print "Forcing CoppeliaSim verbosity to TRACEALL" ;;
  v <- encode_ascii (str (sim_verbosity_traceall (const E))) ;;
  call (simSetStringParameter (sim_stringparam_verbosity (const E)) v) ;;
  name <- encode_ascii "PyRep" ;;
  scene <- encode_ascii scene_file ;;
  root' <- (r <- gets _vrep_root ;; encode_ascii r) ;;
  call (simExtLaunchUIThread name options scene root') ;;
  ret tt.

(** *** [PyRep.step] *)
Definition step : M unit :=
  enter m_step ;;
  with_step_lock (call (simExtStep None) ;; ret tt).

(** *** [PyRep.step_ui] *)
Definition step_ui : M unit :=
  enter m_step_ui ;;
  with_step_lock (call (simExtStep (Some false)) ;; ret tt).

(** *** [PyRep.start] *)
Definition start : M unit :=
  enter m_start ;;
  t <- gets _ui_thread ;;
  match t with
  | None => raise NotLaunchedError
  | Some _ =>
      r <- gets running ;;
      if negb r then
        call simStartSimulation ;;
        modify (set_running true)
      else ret tt
  end.

(** *** [PyRep.stop] *)
Definition stop : M unit :=
  enter m_stop ;;
  t <- gets _ui_thread ;;
  match t with
  | None => raise NotLaunchedError
  | Some _ =>
      r <- gets running ;;
      if r then
        call simStopSimulation ;;
        modify (set_running false) ;;
        for_range 5 step
      else ret tt
  end.

(** *** [PyRep.shutdown] *)
Definition shutdown : M unit :=
  enter m_shutdown ;;
  t <- gets _ui_thread ;;
  (match t with
   | None => raise NotLaunchedError
   | Some _ => ret tt
   end) ;;
  t <- gets _ui_thread ;;
  (match t with
   | Some ui =>
       modify (set_shutting_down true) ;;
       stop ;;
       step_ui ;;
       call simExtPostExitRequest ;;
       call simExtSimThreadDestroy ;;
       join ui ;;
       r <- gets _responsive_ui_thread ;;
       (match r with
        | Some rt => join rt
        | None => ret tt
        end) ;;
       sleep 100
   | None => ret tt
   end) ;;
  modify (set_ui_thread None) ;;
  modify (set_shutting_down false).

(** *** Threads *)

Definition mark_started (t : tid) : M unit :=
  modify (fun w => set_threads
    (update_thread t (fun th => mkThread (target th) (daemon th) true) (threads w)) w).

(** The body of a started thread, run as thread [t] up to the point where
    it ends or blocks.  An exception in it ends that thread only. *)
Definition run_as (t : tid) (body : M unit) : M unit :=
  fun w =>
    let me := current w in
    match body (set_current (Some t) w) with
    | (_, w') => (Ret tt, set_current me w')
    end.

(** [t.start()].  The session thread runs at once up to the engine call
    that occupies it for the rest of the session: the engine reports
    readiness only after that call.  This is one schedule of the two
    threads: where the events of the session thread fall among those of
    its creator is a choice of the model, not of the code.  The
    responsive loop runs beside its creator; its run is the entry point
    [_run_responsive_ui_thread]. *)
Definition Thread_start (t : tid) : M unit :=
  fun w =>
    match nth_error (threads w) t with
    | None => (Raise (RuntimeError "thread.__init__() not called"), w)
    | Some th =>
        if started th then
          (Raise (RuntimeError "threads can only be started once"), w)
        else
          match interrupt E t with
          | Some e => (Raise e, w)
          | None =>
              (mark_started t ;;
               log (ThreadStart t) ;;
               match target th with
               | run_ui_thread scene_file headless verbosity =>
                   run_as t (_run_ui_thread scene_file headless verbosity)
               | run_responsive_ui_thread => ret tt
               end) w
          end
    end.

(** *** [PyRep._run_responsive_ui_thread] *)

(** What the loop does while it holds the gate; the result is whether it
    hit [break]. *)
Definition responsive_check : M bool :=
  sd <- gets _shutting_down ;;
  if sd then ret true
  else
    x <- call_bool simExtGetExitRequest ;;
    if x then ret true
    else call (simExtStep (Some false)) ;; ret false.

(** The [while True] loop. *)
Fixpoint responsive_loop (fuel : nat) : M unit :=
  match fuel with
  | O => diverge
  | S fuel' =>
      r <- gets running ;;
      brk <- (if negb r then with_step_lock responsive_check else ret false) ;;
      if brk then ret tt
      else sleep 10 ;; responsive_loop fuel'
  end.

Definition _run_responsive_ui_thread (fuel : nat) : M unit :=
  responsive_loop fuel ;;
  sd <- gets _shutting_down ;;
  if negb sd then shutdown else ret tt.

(** *** [PyRep.launch] *)

(** The scene-file check and the absolute path handed to the engine. *)
Definition check_scene_file (scene_file : string) : M string :=
  d <- gets cwd ;;
  let abs_scene_file := abspath E d scene_file in
  if Nat.ltb 0 (String.length scene_file) && negb (isfile abs_scene_file) then
    print "ERROR - Scene file specified BUT DOES NOT EXIST" ;;
    raise (SceneFileError scene_file)
  else if Nat.eqb (String.length scene_file) 0 then
    print "No scene file specified, launching with empty scene." ;;
    ret ""
  else
    print "Scene file specified and found" ;;
    ret abs_scene_file.

(** [while not sim.lib.simExtCanInitSimThread(): time.sleep(0.1)] *)
Fixpoint wait_ready (fuel : nat) : M unit :=
  match fuel with
  | O => diverge
  | S fuel' =>
      ok <- call_bool simExtCanInitSimThread ;;
      if ok then ret tt
      else sleep 100 ;; wait_ready fuel'
  end.

Definition preliminary_step : M unit :=
  print "Before preliminary step()." ;;
  try_except
    (with_step_lock (call (simExtStep (Some true)) ;; ret tt) ;;
     print "Preliminary step() completed." ;;
     sleep 100)
    is_Exception
    (fun _ => print "ERROR during preliminary step").

Definition report_scene_name (abs_scene_file : string) : M unit :=
  try_except
    (p <- call_buffer
            (simGetStringParameter (sim_stringparam_scene_path_and_name (const E))) ;;
     match p with
     | Some loaded_scene_name_ptr =>
         loaded_scene_name <- decode_utf8 loaded_scene_name_ptr ;;
         print "CoppeliaSim reports current scene" ;;
         call simReleaseBuffer ;;
         if negb (String.eqb abs_scene_file "")
            && points_differ loaded_scene_name (str_points abs_scene_file)
         then print "WARNING! Scene mismatch."
         else ret tt
     | None => print "CoppeliaSim reports NO current scene name"
     end)
    is_Exception
    (fun _ => print "Error getting scene name immediately after simExtSimThreadInit").

Definition list_scene_objects : M unit :=
  try_except
    (hs <- call_handles
             (simGetObjectsInTree (sim_handle_scene (const E))
                                  (ObjectType_ALL (const E)) 0) ;;
     match hs with
     | Some (h :: l) =>
         print "Found object handles." ;;
         for_each (h :: l)
           (fun handle_val =>
              name_ptr <- call_buffer (simGetObjectName handle_val) ;;
              match name_ptr with
              | Some name =>
                  try_finally (decode_utf8 name ;; ret tt)
                              (call simReleaseBuffer ;; ret tt)
              | None => ret tt
              end) ;;
         call simReleaseBuffer ;;
         ret tt
     | _ => print "simGetObjectsInTree returned no objects or an error"
     end ;;
     print "Objects in scene immediately after launch")
    is_Exception
    (fun _ =>
       print "Error encountered while trying to list objects after launch" ;;
       print "traceback").

(** [while not sim.lib.simExtGetExitRequest(): sim.lib.simExtStep(True)] *)
Fixpoint blocking_loop (fuel : nat) : M unit :=
  match fuel with
  | O => diverge
  | S fuel' =>
      x <- call_bool simExtGetExitRequest ;;
      if x then ret tt
      else call (simExtStep (Some true)) ;; blocking_loop fuel'
  end.

Definition is_interrupt (e : exn) : bool :=
  match e with
  | KeyboardInterrupt | SystemExit => true
  | _ => false
  end.

Definition dispatch (fuel : nat) (responsive_ui blocking : bool) : M unit :=
  if blocking then
    blocking_loop fuel ;;
    shutdown
  else if responsive_ui then
    t <- Thread_new run_responsive_ui_thread ;;
    modify (set_responsive_ui_thread (Some t)) ;;
    set_daemon t ;;
    try_except (Thread_start t) is_interrupt
      (fun _ =>
         sd <- gets _shutting_down ;;
         (if negb sd then shutdown else ret tt) ;;
         raise SystemExit) ;;
    step
  else step.

Definition final_report (blocking : bool) : M unit :=
  if negb blocking then
    try_except
      (p <- call_buffer
              (simGetStringParameter (sim_stringparam_scene_path_and_name (const E))) ;;
       match p with
       | Some current_scene_name_ptr =>
           decode_utf8 current_scene_name_ptr ;;
           call simReleaseBuffer ;;
           print "After first main logic step(s). Current scene"
       | None =>
           print "After first main logic step(s). Current scene: NULL"
       end)
      is_Exception
      (fun _ => print "After first main logic step(s). Error getting scene name")
  else ret tt.

(** What [launch] does once the engine is initialised, up to the last
    report. *)
Definition session_after_init (fuel : nat) (abs_scene_file : string)
           (responsive_ui blocking : bool) : M unit :=
  sleep 200 ;;
  preliminary_step ;;
  print "simExtSimThreadInit completed (and preliminary step done)." ;;
  print "simExtSimThreadInit completed." ;;
  print "Attempting to list objects in the scene NOW..." ;;
  report_scene_name abs_scene_file ;;
  print "Attempting to list objects in the scene NOW (immediately)..." ;;
  list_scene_objects ;;
  dispatch fuel responsive_ui blocking ;;
  final_report blocking.

(** From the readiness poll to the last report: all of [launch] between
    the start of the session thread and the final [os.chdir(cwd)]. *)
Definition launch_session (fuel : nat) (abs_scene_file : string)
           (responsive_ui blocking : bool) : M unit :=
  wait_ready fuel ;;
  call simExtSimThreadInit ;;
  session_after_init fuel abs_scene_file responsive_ui blocking.

Definition launch (fuel : nat) (scene_file : string)
           (headless responsive_ui blocking : bool) (verbosity : Verbosity)
  : M unit :=
  enter m_launch ;;
  abs_scene_file <- check_scene_file scene_file ;;
  print "Calling simExtLaunchUIThread with scene" ;;
  saved <- gets cwd ;;
  t <- Thread_new (run_ui_thread abs_scene_file headless verbosity) ;;
  modify (set_ui_thread (Some t)) ;;
  set_daemon t ;;
  Thread_start t ;;
  launch_session fuel abs_scene_file responsive_ui blocking ;;
  chdir saved.

(** *** [PyRep.create_texture] *)

Definition create_texture_options
           (interpolate decal_mode repeat_along_u repeat_along_v : bool) : Z :=
  let options := 0%Z in
  let options := if negb interpolate then Z.lor options 1 else options in
  let options := if decal_mode then Z.lor options 2 else options in
  let options := if repeat_along_u then Z.lor options 3 else options in
  let options := if repeat_along_v then Z.lor options 4 else options in
  options.

(** The result is the handle the engine returns; [Shape] and its
    [get_texture] wrap that handle in another module. *)
Definition create_texture (filename : string)
           (interpolate decal_mode repeat_along_u repeat_along_v : bool) : M Z :=
  let options :=
    create_texture_options interpolate decal_mode repeat_along_u repeat_along_v in
  handle <- call_handle (simCreateTexture filename options) ;;
  ret handle.

End Controller.

(** ** Reading a run *)

(** The events a computation adds to the trace. *)
Definition added (w w' : World) (d : list Event) : Prop :=
  trace w' = trace w ++ d.

(** The object and the process are as before; at most the ghost log grew. *)
Definition unchanged (w w' : World) : Prop :=
  w' = set_calls (calls w') w.

Definition engine_calls (tr : list Event) : list EngineCall :=
  flat_map (fun e => match e with Call c => [c] | _ => [] end) tr.

Definition is_step_call (c : EngineCall) : bool :=
  match c with
  | simExtStep _ => true
  | _ => false
  end.

Definition step_calls (tr : list Event) : list EngineCall :=
  filter is_step_call (engine_calls tr).

Definition thread_starts (tr : list Event) : list tid :=
  flat_map (fun e => match e with ThreadStart t => [t] | _ => [] end) tr.

(** What one call of [step()] adds to the trace. *)
Definition step_events : list Event :=
  [Acquire; Call (simExtStep None); Release].

Definition step_ui_events : list Event :=
  [Acquire; Call (simExtStep (Some false)); Release].

Definition never_raises (E : Env) : Prop :=
  forall c n, raises E c n = false.

(** No engine call raises and no exception is delivered into [Thread.start]. *)
Definition calm (E : Env) : Prop :=
  never_raises E /\ forall t, interrupt E t = None.

(** [t.join()] is legal for the calling thread. *)
Definition joinable (t : tid) (w : World) : Prop :=
  is_started t w = true /\ is_current t w = false.

(** What [stop()] adds to the trace and to the ghost log, by whether the
    simulation was running; what a completed [shutdown()] adds. *)
Definition stop_events (was_running : bool) : list Event :=
  if was_running
  then Call simStopSimulation :: List.concat (repeat step_events 5)
  else [].

Definition stop_calls (was_running : bool) : list Method :=
  m_stop :: (if was_running then repeat m_step 5 else []).

Definition shutdown_events (was_running : bool) (ui : tid) (rt : option tid)
  : list Event :=
  stop_events was_running
  ++ step_ui_events
  ++ [Call simExtPostExitRequest; Call simExtSimThreadDestroy; ThreadJoin ui]
  ++ match rt with Some r => [ThreadJoin r] | None => [] end
  ++ [Sleep 100].

Definition shutdown_calls (was_running : bool) : list Method :=
  m_shutdown :: stop_calls was_running ++ [m_step_ui].

Definition Method_eq_dec (a b : Method) : {a = b} + {a <> b}.
Proof. decide equality. Defined.

Definition invocations (m : Method) (w : World) : nat :=
  count_occ Method_eq_dec (calls w) m.

(** The readiness polls that found the engine not ready. *)
Definition idle_polls (n : nat) : list Event :=
  List.concat (repeat [Call simExtCanInitSimThread; Sleep 100] n).

(** Modelled from the spec: the engine's stepping contract, which lives in
    the engine and not in this module.  The step call is "parameterized by
    a boolean: advance physics or UI-only", [step()] "advances the
    simulation by one tick" and, "if the simulation is stopped, the
    external engine is documented to only refresh its UI"; the start and
    stop calls "toggle physics execution". *)
Definition advance_requested (stepIfRunning : option bool) : bool :=
  match stepIfRunning with
  | Some false => false
  | _ => true
  end.

Fixpoint physics_ticks (simulating : bool) (tr : list Event) : nat :=
  match tr with
  | [] => 0
  | Call simStartSimulation :: tr' => physics_ticks true tr'
  | Call simStopSimulation :: tr' => physics_ticks false tr'
  | Call (simExtStep a) :: tr' =>
      (if simulating && advance_requested a then 1 else 0)
      + physics_ticks simulating tr'
  | _ :: tr' => physics_ticks simulating tr'
  end.

(** ** Threads side by side

    What a thread does to the gate and to the engine's stepping entry
    point, as a program of atomic actions: a step call is entered and,
    later, left.  A scheduler interleaves the programs of the threads;
    acquiring is possible only while nobody holds the gate. *)

Inductive Action := AAcquire | ARelease | AEnter | ALeave.

Definition actions_of (e : Event) : list Action :=
  match e with
  | Acquire => [AAcquire]
  | Release => [ARelease]
  | Call (simExtStep _) => [AEnter; ALeave]
  | _ => []
  end.

Definition actions (tr : list Event) : list Action := flat_map actions_of tr.

(** Runs a program against the gate discipline: step calls only while the
    thread holds the gate, no acquire while holding, no release while not.
    The result is whether the gate is held at the end. *)
Fixpoint gate_run (held : bool) (p : list Action) : option bool :=
  match p with
  | [] => Some held
  | AAcquire :: p' => if held then None else gate_run true p'
  | ARelease :: p' => if held then gate_run false p' else None
  | AEnter :: p' => if held then gate_run true p' else None
  | ALeave :: p' => if held then gate_run true p' else None
  end.

(** A program that starts and ends without the gate and keeps the discipline. *)
Definition gated (p : list Action) : Prop := gate_run false p = Some false.

Record Config := mkConfig {
  holder : option nat;
  pool : nat -> list Action
}.

Definition update (f : nat -> list Action) (i : nat) (p : list Action)
  : nat -> list Action :=
  fun j => if Nat.eqb j i then p else f j.

Inductive sched : Config -> Config -> Prop :=
| sched_acquire c i p :
    pool c i = AAcquire :: p -> holder c = None ->
    sched c (mkConfig (Some i) (update (pool c) i p))
| sched_release c i p :
    pool c i = ARelease :: p ->
    sched c (mkConfig None (update (pool c) i p))
| sched_enter c i p :
    pool c i = AEnter :: p ->
    sched c (mkConfig (holder c) (update (pool c) i p))
| sched_leave c i p :
    pool c i = ALeave :: p ->
    sched c (mkConfig (holder c) (update (pool c) i p)).

Inductive reachable (c0 : Config) : Config -> Prop :=
| reach_refl : reachable c0 c0
| reach_step c c' : reachable c0 c -> sched c c' -> reachable c0 c'.

(** Thread [i] has entered a step call and not yet left it. *)
Definition in_engine (c : Config) (i : nat) : Prop :=
  exists p, pool c i = ALeave :: p.

Definition mutual_exclusion (c : Config) : Prop :=
  forall i j, in_engine c i -> in_engine c j -> i = j.

(** The methods a client thread may call on a launched session, and the
    two loops of the module. *)
Inductive EntryPoint :=
| ep_step
| ep_step_ui
| ep_start
| ep_stop
| ep_shutdown
| ep_responsive (fuel : nat)
| ep_launch (fuel : nat) (scene_file : string) (headless responsive_ui : bool)
            (verbosity : Verbosity).

(** [ep_launch] is a launch with [blocking=False]. *)
Definition run (E : Env) (ep : EntryPoint) : M unit :=
  match ep with
  | ep_step => step E
  | ep_step_ui => step_ui E
  | ep_start => start E
  | ep_stop => stop E
  | ep_shutdown => shutdown E
  | ep_responsive fuel => _run_responsive_ui_thread E fuel
  | ep_launch fuel scene_file headless responsive_ui verbosity =>
      launch E fuel scene_file headless responsive_ui false verbosity
  end.

(** ** A sample environment

    An installation under [/opt/coppelia], a scene file under
    [/home/user]; the engine never raises, reports readiness at the poll
    numbered [ready_at] and an exit request at the poll numbered
    [exit_at]. *)

Definition sample_const : SimConst := mkSimConst 65535 65536 121 13 900 (-11) (-2).

Definition sample_fs (p : string) : option FileKind :=
  if String.eqb p "/opt/coppelia" then Some Dir
  else if String.eqb p "/home/user" then Some Dir
  else if String.eqb p "/home/user/scene.ttt" then Some File
  else None.

Definition sample_abspath (d p : string) : string :=
  match p with
  | EmptyString => d
  | String "/" _ => p
  | _ => String.append d (String.append "/" p)
  end.

Definition sample_environ (k : string) : option string :=
  if String.eqb k "COPPELIASIM_ROOT" then Some "/opt/coppelia" else None.

Definition sample_truth (ready_at exit_at : nat) (c : EngineCall) (n : nat) : bool :=
  match c with
  | simExtCanInitSimThread => Nat.leb ready_at n
  | simExtGetExitRequest => Nat.leb exit_at n
  | _ => false
  end.

Definition sample_env (ready_at exit_at : nat) : Env :=
  mkEnv sample_environ sample_fs sample_abspath sample_const
        (fun _ _ => false)
        (sample_truth ready_at exit_at)
        (fun _ _ => Some "/home/user/scene.ttt")
        (fun _ _ => Some [7%Z; 8%Z])
        (fun _ n => Z.of_nat n)
        (fun _ => None).

(** The process before the object is constructed, and after. *)
Definition boot : World :=
  mkWorld false None None false "" "/home/user" false [] None [] [].

Definition fresh : World := snd (__init__ (sample_env 2 1) boot).
(** A launched session, idle and then simulating. *)
Definition launched : World :=
  snd (launch (sample_env 2 1) 10 "" true false false "none" fresh).

Definition simulating : World := snd (start (sample_env 2 1) launched).

(** ** Invariants of runs *)

(** A computation keeps a relation between the world it starts in and
    the world it ends in, whatever its outcome. *)
Definition Keeps (I : World -> World -> Prop) {A} (m : M A) : Prop :=
  forall w, I w (snd (m w)).

(** Two worlds that differ only in fields no invariant below looks at. *)
Definition frame (w w' : World) : Prop :=
  trace w' = trace w /\ step_lock w' = step_lock w /\ calls w' = calls w /\
  _shutting_down w' = _shutting_down w /\ _ui_thread w' = _ui_thread w.

(** An event that is neither a gate operation nor a step call. *)
Definition quiet (e : Event) : Prop := actions_of e = [].

(** The trace only grows. *)
Definition grows (w w' : World) : Prop := exists d, added w w' d.

(** Started with the gate in state [h], a run ends with the gate in state
    [h] and what it added to the trace obeys the gate discipline. *)
Definition gate_kept (h : bool) (w w' : World) : Prop :=
  step_lock w = h ->
  step_lock w' = h /\
  exists d, added w w' d /\ gate_run h (actions d) = Some h.

(** The shutdown flag, the session handle and the number of [shutdown()]
    invocations are as before. *)
Definition session_kept (w w' : World) : Prop :=
  _shutting_down w' = _shutting_down w /\
  _ui_thread w' = _ui_thread w /\
  invocations m_shutdown w' = invocations m_shutdown w.



(** The statements of [shutdown] between raising the flag and lowering it. *)
Definition shutdown_steps (E : Env) (ui : tid) : M unit :=
  stop E;; step_ui E;; call E simExtPostExitRequest;;
  call E simExtSimThreadDestroy;; join ui;;
  r <- gets _responsive_ui_thread;;
  match r with Some rt => join rt | None => ret tt end;;
  sleep 100.

(** The responsive loop has left its [while] by [break]: it saw, holding
    the gate, either the shutdown flag or the engine's exit request, and
    released the gate. *)
Definition exit_observed (E : Env) (w1 : World) : Prop :=
  step_lock w1 = false /\
  exists pre,
    (trace w1 = pre ++ [Acquire; Release] /\ _shutting_down w1 = true) \/
    (trace w1 = pre ++ [Acquire; Call simExtGetExitRequest; Release] /\
     _shutting_down w1 = false /\
     raises E simExtGetExitRequest (occurrences simExtGetExitRequest pre) = false /\
     truth E simExtGetExitRequest (occurrences simExtGetExitRequest pre) = true).

(** A session launched with [responsive_ui=True], as its responsive
    thread (thread 1) sees it. *)
Definition responsive_session : World :=
  set_current (Some 1)
    (snd (launch (sample_env 2 1) 10 "" true true false "none" fresh)).

(** [launch] accepts the scene file: none is given, or it is a file. *)
Definition scene_ok (E : Env) (w : World) (scene_file : string) : Prop :=
  scene_file = "" \/ isfile E (abspath E (cwd w) scene_file) = true.

(** What [launch] adds to the trace before it polls the engine: two
    prints, the start of the session thread, and what that thread does. *)
Definition before_poll (msg : string) (t : tid) (d : list Event) : list Event :=
  [Print msg; Print "Calling simExtLaunchUIThread with scene"; ThreadStart t] ++ d.

(** The session thread calls the engine to set the verbosity and to
    launch the UI thread, nothing else. *)
Definition session_thread_calls (d : list Event) : Prop :=
  forall c, In (Call c) d -> call_tag c <= 1.

(** The sample environment with an engine that never becomes ready. *)
Definition stalled_env : Env :=
  mkEnv sample_environ sample_fs sample_abspath sample_const
        (fun _ _ => false)
        (fun _ _ => false)
        (fun _ _ => None)
        (fun _ _ => None)
        (fun _ n => Z.of_nat n)
        (fun _ => None).

(** ** Interleavings: bookkeeping *)

Definition is_holder (c : Config) (i : nat) : bool :=
  match holder c with
  | Some j => Nat.eqb j i
  | None => false
  end.

(** What is left of every thread's program obeys the gate discipline,
    given who holds the gate now. *)
Definition disciplined (c : Config) : Prop :=
  forall i, gate_run (is_holder c i) (pool c i) <> None.

(** Two threads and nobody else. *)
Definition two_threads (p q : list Action) : nat -> list Action :=
  fun i => match i with 0 => p | 1 => q | _ => [] end.

(** A launch with [blocking=True] in the sample environment; the engine
    asks to exit at the second poll of the blocking loop. *)
Definition blocking_run : Outcome unit * World :=
  launch (sample_env 2 1) 10 "" true false true "none" fresh.

(** ** Construction and the session thread *)

(** The two messages of [PyRepError] that [__init__] raises. *)
Definition RootUndefined : exn :=
  PyRepError "COPPELIASIM_ROOT not defined. See installation instructions.".

Definition RootNotAPath : exn :=
  PyRepError "COPPELIASIM_ROOT was not a correct path. See installation instructions".

(** The options [_run_ui_thread] passes for its [headless] argument. *)
Definition gui_options (E : Env) (headless : bool) : Z :=
  if headless then sim_gui_headless (const E) else sim_gui_all (const E).

(** What a session thread that runs to its end adds to the trace. *)
Definition session_thread_events (E : Env) (root scene : string) (headless : bool)
  : list Event :=
  [Chdir root;
   Print "Forcing CoppeliaSim verbosity to TRACEALL";
   Call (simSetStringParameter (sim_stringparam_verbosity (const E))
                               (str (sim_verbosity_traceall (const E))));
   Call (simExtLaunchUIThread "PyRep" (gui_options E headless) scene root)].

Definition is_launch_ui_call (e : Event) : bool :=
  match e with
  | Call (simExtLaunchUIThread _ _ _ _) => true
  | _ => false
  end.

(** The scene that [launch] hands to the session thread. *)
Definition scene_path (E : Env) (w : World) (scene_file : string) : string :=
  if Nat.eqb (String.length scene_file) 0 then ""
  else abspath E (cwd w) scene_file.

(** The sample installation with [COPPELIASIM_ROOT] naming a plain file. *)
Definition file_root_fs (p : string) : option FileKind :=
  if String.eqb p "/opt/coppelia" then Some File else sample_fs p.

Definition file_root_env : Env :=
  mkEnv sample_environ file_root_fs sample_abspath sample_const
        (fun _ _ => false)
        (sample_truth 2 1)
        (fun _ _ => None)
        (fun _ _ => None)
        (fun _ n => Z.of_nat n)
        (fun _ => None).

(** The sample installation without [COPPELIASIM_ROOT]. *)
Definition no_root_env : Env :=
  mkEnv (fun _ => None) sample_fs sample_abspath sample_const
        (fun _ _ => false)
        (sample_truth 2 1)
        (fun _ _ => None)
        (fun _ _ => None)
        (fun _ n => Z.of_nat n)
        (fun _ => None).

(** An engine every call of which raises. *)
Definition failing_env : Env :=
  mkEnv sample_environ sample_fs sample_abspath sample_const
        (fun _ _ => true)
        (sample_truth 2 1)
        (fun _ _ => None)
        (fun _ _ => None)
        (fun _ n => Z.of_nat n)
        (fun _ => None).

(** A scene path with a character outside ASCII. *)
Definition unicode_scene : string :=
  String (Ascii.ascii_of_nat 233) "cole.ttt".

(** ** The loops *)

(** One round of the responsive loop that neither breaks nor skips. *)
Definition responsive_round_events : list Event :=
  [Acquire; Call simExtGetExitRequest; Call (simExtStep (Some false)); Release;
   Sleep 10].

Definition responsive_rounds (n : nat) : list Event :=
  List.concat (repeat responsive_round_events n).

(** The round in which the responsive loop sees the exit request. *)
Definition responsive_exit_events : list Event :=
  [Acquire; Call simExtGetExitRequest; Release].

(** One round of the blocking loop of [launch]. *)
Definition blocking_round_events : list Event :=
  [Call simExtGetExitRequest; Call (simExtStep (Some true))].

Definition blocking_rounds (n : nat) : list Event :=
  List.concat (repeat blocking_round_events n).

(** The engine answers the exit poll with "no" [n] times from the trace
    [tr] on, and then with "yes". *)
Definition exit_requested_after (E : Env) (tr : list Event) (n : nat) : Prop :=
  (forall j, j < n ->
     truth E simExtGetExitRequest (occurrences simExtGetExitRequest tr + j) = false) /\
  truth E simExtGetExitRequest (occurrences simExtGetExitRequest tr + n) = true.

(** ** Footprints *)

(** The part of the object and of the process that only [launch] and the
    session thread write. *)
Definition process_kept (w w' : World) : Prop :=
  cwd w' = cwd w /\ _vrep_root w' = _vrep_root w /\ threads w' = threads w /\
  _responsive_ui_thread w' = _responsive_ui_thread w /\ current w' = current w.

(** Everything added to the trace passes the test [ok]. *)
Definition adds_only (ok : Event -> bool) (w w' : World) : Prop :=
  exists d, added w w' d /\ forallb ok d = true.

(** The events of [start], [stop], [step], [step_ui], [shutdown] and the
    responsive loop. *)
Definition lifecycle_event (e : Event) : bool :=
  match e with
  | Acquire | Release | Sleep _ | ThreadJoin _ => true
  | Call (simExtStep _) | Call simStartSimulation | Call simStopSimulation
  | Call simExtGetExitRequest | Call simExtPostExitRequest
  | Call simExtSimThreadDestroy => true
  | _ => false
  end.

Definition lifecycle_footprint (w w' : World) : Prop :=
  process_kept w w' /\ adds_only lifecycle_event w w'.

(** The events of [launch] between the start of the session thread and
    its last change of directory: no change of directory, and neither of
    the two engine calls of the session thread. *)
Definition session_event (e : Event) : bool :=
  match e with
  | Chdir _ => false
  | Call (simSetStringParameter _ _) => false
  | Call (simExtLaunchUIThread _ _ _ _) => false
  | _ => true
  end.

Definition session_footprint (w w' : World) : Prop :=
  cwd w' = cwd w /\ _vrep_root w' = _vrep_root w /\ adds_only session_event w w'.

(** The responsive thread of [launch], created and made a daemon, and
    then started. *)
Definition responsive_thread_created (w : World) : World :=
  set_threads (threads w ++ [mkThread run_responsive_ui_thread true false])
    (set_responsive_ui_thread (Some (List.length (threads w))) w).

Definition responsive_thread_started (w : World) : World :=
  set_trace (trace w ++ [ThreadStart (List.length (threads w))])
    (set_threads (threads w ++ [mkThread run_responsive_ui_thread true true])
       (set_responsive_ui_thread (Some (List.length (threads w))) w)).

(** What [launch] does when [Thread.start] of the responsive thread is
    interrupted. *)
Definition interrupted_start (E : Env) : M unit :=
  sd <- gets _shutting_down ;;
  (if negb sd then shutdown E else ret tt) ;;
  raise SystemExit.

(** ** Computations that only log *)

(** Started with the gate free, the computation returns, and the world it
    ends in differs from the one it started in by what it added to the
    trace. *)
Definition logs_only {A} (m : M A) : Prop :=
  forall w, step_lock w = false ->
  exists a d, m w = (Ret a, set_trace (trace w ++ d) w).

(** The same, except that the computation may also end in an exception
    that [except Exception] catches. *)
Definition logs_or_fails {A} (m : M A) : Prop :=
  forall w, step_lock w = false ->
  exists o d, m w = (o, set_trace (trace w ++ d) w) /\
    match o with
    | Ret _ => True
    | Raise e => is_Exception e = true
    | Diverge => False
    end.

(** ** A launch that succeeds *)

(** The world in which the session thread of [launch] begins to run: the
    thread is in the table, a started daemon, and the object names it. *)
Definition session_started (w : World) (abs_scene_file : string) (headless : bool)
           (verbosity : Verbosity) (msg : string) : World :=
  set_current (Some (List.length (threads w)))
    (set_trace (trace w ++ [Print msg; Print "Calling simExtLaunchUIThread with scene";
                            ThreadStart (List.length (threads w))])
       (set_threads
          (threads w ++ [mkThread (run_ui_thread abs_scene_file headless verbosity)
                                  true true])
          (set_ui_thread (Some (List.length (threads w)))
             (set_calls (calls w ++ [m_launch]) w)))).

(** The engine is ready at its [n]-th readiness poll from the trace [tr]
    on, and not before. *)
Definition ready_after (E : Env) (tr : list Event) (n : nat) : Prop :=
  (forall j, j < n ->
     truth E simExtCanInitSimThread (occurrences simExtCanInitSimThread tr + j) = false) /\
  truth E simExtCanInitSimThread (occurrences simExtCanInitSimThread tr + n) = true.

(** The engine calls of [launch] whose exceptions [launch] lets through
    do not raise: the readiness poll, the initialisation, and the step of
    [step()]. *)
Definition launch_calls_return (E : Env) : Prop :=
  forall k, raises E simExtCanInitSimThread k = false /\
            raises E simExtSimThreadInit k = false /\
            raises E (simExtStep None) k = false.

(** The threads [launch] adds to the table. *)
Definition launched_threads (abs_scene_file : string) (headless : bool)
           (verbosity : Verbosity) (responsive_ui : bool) : list Thread :=
  mkThread (run_ui_thread abs_scene_file headless verbosity) true true
  :: (if responsive_ui then [mkThread run_responsive_ui_thread true true] else []).

(** The object and the process after a launch with [blocking=False] from
    the world [w]. *)
Definition launched_from (w : World) (abs_scene_file : string) (headless : bool)
           (verbosity : Verbosity) (responsive_ui : bool) (w' : World) : Prop :=
  _ui_thread w' = Some (List.length (threads w)) /\
  _responsive_ui_thread w'
  = (if responsive_ui then Some (S (List.length (threads w)))
     else _responsive_ui_thread w) /\
  threads w'
  = threads w ++ launched_threads abs_scene_file headless verbosity responsive_ui /\
  running w' = running w /\ _shutting_down w' = _shutting_down w /\
  _vrep_root w' = _vrep_root w /\ cwd w' = cwd w /\
  step_lock w' = false /\ current w' = current w.

(** The object after the responsive thread, if one was asked for, was
    created and started. *)
Definition with_responsive_thread (responsive_ui : bool) (w : World) : World :=
  if responsive_ui
  then set_threads (threads w ++ [mkThread run_responsive_ui_thread true true])
         (set_responsive_ui_thread (Some (List.length (threads w))) w)
  else w.

(** ** The buffers of the scene listing *)

(** What the listing of the scene objects adds to the trace for the
    handles [hs]: a name lookup for each, followed by the release of the
    name buffer when the engine returned one.  The engine's answers are
    those from the index [k] on. *)
Fixpoint name_events (E : Env) (k : nat) (hs : list Z) : list Event :=
  match hs with
  | [] => []
  | h :: l =>
      (Call (simGetObjectName h)
       :: match buffer E (simGetObjectName h) k with
          | Some _ => [Call simReleaseBuffer]
          | None => []
          end)
      ++ name_events E (S k) l
  end.

(** The name buffers the engine returned for [hs]. *)
Fixpoint names_found (E : Env) (k : nat) (hs : list Z) : nat :=
  match hs with
  | [] => 0
  | h :: l =>
      (match buffer E (simGetObjectName h) k with Some _ => 1 | None => 0 end)
      + names_found E (S k) l
  end.

(** The name buffer the engine returns for the handle [h] is NULL or
    decodes as UTF-8. *)
Definition name_decodes (E : Env) (k : nat) (h : Z) : bool :=
  match buffer E (simGetObjectName h) k with
  | Some b =>
      match utf8_points (list_ascii_of_string b) with
      | Some _ => true
      | None => false
      end
  | None => true
  end.

Fixpoint names_decode (E : Env) (k : nat) (hs : list Z) : bool :=
  match hs with
  | [] => true
  | h :: l => name_decodes E k h && names_decode E (S k) l
  end.

(** The call with which [launch] asks for the handles of the scene. *)
Definition scene_tree_call (E : Env) : EngineCall :=
  simGetObjectsInTree (sim_handle_scene (const E)) (ObjectType_ALL (const E)) 0.

(** An engine that does not raise and finds three objects, the second of
    them without a name. *)
Definition listing_env : Env :=
  mkEnv sample_environ sample_fs sample_abspath sample_const
        (fun _ _ => false)
        (sample_truth 2 1)
        (fun _ n => if Nat.eqb n 1 then None else Some "name")
        (fun _ _ => Some [7%Z; 8%Z; 9%Z])
        (fun _ n => Z.of_nat n)
        (fun _ => None).

(** ** The handle of the session thread *)

(** The handle of the session thread is as it was, or cleared. *)
Definition handle_kept (w w' : World) : Prop :=
  _ui_thread w' = _ui_thread w \/ _ui_thread w' = None.

(** The same engine, except that the name of the second object is a
    lone continuation byte. *)
Definition bad_name_env : Env :=
  mkEnv sample_environ sample_fs sample_abspath sample_const
        (fun _ _ => false)
        (sample_truth 2 1)
        (fun _ n => if Nat.eqb n 1 then Some (String (Ascii.ascii_of_nat 128) "")
                    else Some "name")
        (fun _ _ => Some [7%Z; 8%Z; 9%Z])
        (fun _ n => Z.of_nat n)
        (fun _ => None).

(** ** The calls of the session thread *)

(** The two engine calls that only the session thread makes. *)
Definition is_session_call (e : Event) : bool :=
  match e with
  | Call (simSetStringParameter _ _) => true
  | Call (simExtLaunchUIThread _ _ _ _) => true
  | _ => false
  end.

Definition session_calls (tr : list Event) : list Event :=
  filter is_session_call tr.

(** * Proofs *)

Unset Implicit Arguments.

(** ** Running the monad by hand *)

Arguments occurrences : simpl never.
Arguments stop : simpl never.
Arguments step : simpl never.
Arguments step_ui : simpl never.
Arguments start : simpl never.
Arguments shutdown : simpl never.
Arguments join : simpl never.
Arguments call : simpl never.
Arguments with_step_lock : simpl never.
Arguments sleep : simpl never.
Arguments is_ascii : simpl never.
Arguments _run_ui_thread : simpl never.
Arguments launch_session : simpl never.
Arguments chdir : simpl never.
Arguments Thread_start : simpl never.
Arguments check_scene_file : simpl never.
Arguments wait_ready : simpl never.

Lemma occurrences_snoc c tr e :
  occurrences c (tr ++ [e]) = occurrences c tr + (if is_call c e then 1 else 0).
Proof.
  unfold occurrences. rewrite filter_app, length_app. cbn.
  destruct (is_call c e); reflexivity.
Qed.

Lemma occurrences_app c tr tr' :
  occurrences c (tr ++ tr') = occurrences c tr + occurrences c tr'.
Proof. unfold occurrences. now rewrite filter_app, length_app. Qed.

Ltac unfold_m :=
  unfold shutdown, stop, start, step, step_ui, with_step_lock, join,
    call_handle, call_handles, call_buffer, call_bool, call,
    acquire, release, try_finally, try_except, bind, ret, raise, diverge,
    gets, modify, enter, log, sleep, print,
    set_running, set_ui_thread, set_responsive_ui_thread, set_shutting_down,
    set_vrep_root, set_cwd, set_step_lock, set_threads, set_current, set_trace,
    set_calls, is_started, is_current in *.

(** Unfolds the monad layer by layer, deciding each test with [tac]. *)
Ltac exec_with tac :=
  repeat (progress (unfold_m; cbn in *; tac;
                    repeat rewrite occurrences_snoc; cbn in *;
                    repeat rewrite Nat.add_0_r)).

(** Names the fields of a world, so that every later world is a record
    of explicit fields. *)
Ltac open_world w :=
  destruct w as [running0 ui0 rui0 sd0 root0 cwd0 lock0 threads0 cur0 trace0 calls0];
  cbn in *; subst.

Ltac same_world := cbn; rewrite <- ?app_assoc; reflexivity.

Ltac split_oracle :=
  repeat match goal with
  | |- context [raises ?E ?c ?n] =>
      destruct (raises E c n) eqn:?; cbn in *; try discriminate
  | |- context [if ?b then _ else _] =>
      is_var b; destruct b; cbn in *; try discriminate
  | |- context [match ?o with Some _ => _ | None => _ end] =>
      is_var o; destruct o; cbn in *; try discriminate
  | |- context [nth_error ?l ?t] =>
      destruct (nth_error l t) as [[]|] eqn:?; cbn in *; try discriminate
  | |- context [negb ?b] =>
      is_var b; destruct b; cbn in *; try discriminate
  | |- context [Nat.eqb ?a ?b] =>
      destruct (Nat.eqb a b) eqn:?; cbn in *; try discriminate
  end.

Lemma step_run E w :
  step_lock w = false ->
  step E w =
    ((if raises E (simExtStep None) (occurrences (simExtStep None) (trace w))
      then Raise (EngineError (simExtStep None)) else Ret tt),
     set_trace (trace w ++ step_events) (set_calls (calls w ++ [m_step]) w)).
Proof.
  intros Hl. open_world w. exec_with idtac.
  destruct (raises E _ _); cbn; f_equal; same_world.
Qed.

Lemma step_ui_run E w :
  step_lock w = false ->
  step_ui E w =
    ((if raises E (simExtStep (Some false))
            (occurrences (simExtStep (Some false)) (trace w))
      then Raise (EngineError (simExtStep (Some false))) else Ret tt),
     set_trace (trace w ++ step_ui_events) (set_calls (calls w ++ [m_step_ui]) w)).
Proof.
  intros Hl. open_world w. exec_with idtac.
  destruct (raises E _ _); cbn; f_equal; same_world.
Qed.

Lemma step_blocked E w :
  step_lock w = true ->
  step E w = (Diverge, set_calls (calls w ++ [m_step]) w).
Proof. intros Hl. open_world w. exec_with idtac. reflexivity. Qed.


Lemma sample_never_raises a b : never_raises (sample_env a b).
Proof. intros c n. reflexivity. Qed.

Lemma sample_calm a b : calm (sample_env a b).
Proof. split; [apply sample_never_raises|reflexivity]. Qed.

(** ** The option flags of [create_texture] *)

(** C10: in [create_texture] the four flags are not independent bits.
    [repeat_along_u] ors in 3, which sets bits 0 and 1, the bits of "not
    interpolate" and of "decal mode"; [repeat_along_v] ors in 4, bit 2.
    So the call with interpolate, no decal, repeat along u and the call
    with no interpolate, decal, no repeat pass the same value 3 to the
    engine. *)
Theorem create_texture_flags_overlap :
  (forall i d u v, Z.testbit (create_texture_options i d u v) 0 = negb i || u) /\
  (forall i d u v, Z.testbit (create_texture_options i d u v) 1 = d || u) /\
  (forall i d u v, Z.testbit (create_texture_options i d u v) 2 = v) /\
  (forall i d v, create_texture_options i d true v
                 = Z.lor 3 (create_texture_options i d false v)) /\
  (forall i d u, create_texture_options i d u true
                 = Z.lor 4 (create_texture_options i d u false)) /\
  create_texture_options true false true false = 3%Z /\
  create_texture_options false true false false = 3%Z /\
  (forall E filename w,
      engine_calls (trace (snd (create_texture E filename true false true false w)))
      = engine_calls (trace w) ++ [simCreateTexture filename 3] /\
      engine_calls (trace (snd (create_texture E filename false true false false w)))
      = engine_calls (trace w) ++ [simCreateTexture filename 3]).
Proof.
  repeat split; try (intros [] [] [] []; reflexivity); try (intros [] [] []; reflexivity).
  - unfold create_texture. exec_with idtac.
    destruct (raises E _ _); cbn; unfold engine_calls; rewrite flat_map_app; reflexivity.
  - unfold create_texture. exec_with idtac.
    destruct (raises E _ _); cbn; unfold engine_calls; rewrite flat_map_app; reflexivity.
Qed.

Lemma unchanged_set_calls w l : unchanged w (set_calls l w).
Proof. unfold unchanged. destruct w; reflexivity. Qed.

(** ** The launch check of [start], [stop] and [shutdown] *)

Lemma refused_before_launch E w :
  _ui_thread w = None ->
  start E w = (Raise NotLaunchedError, set_calls (calls w ++ [m_start]) w) /\
  stop E w = (Raise NotLaunchedError, set_calls (calls w ++ [m_stop]) w) /\
  shutdown E w = (Raise NotLaunchedError, set_calls (calls w ++ [m_shutdown]) w).
Proof.
  intros Hu. repeat split; open_world w; exec_with idtac; reflexivity.
Qed.

(** C1, as the code has it: before a launch, [start], [stop] and
    [shutdown] fail with the not-launched error, touching nothing but the
    ghost log.  [step] has no such check: whatever the handle, launched
    or not, it never raises that error, and with the gate free it takes
    the gate, calls the engine's step and releases the gate; it returns
    normally unless the engine call itself raises, and then it is the
    engine's error that it raises. *)
Theorem launch_check_before_launch E w :
  (_ui_thread w = None ->
   start E w = (Raise NotLaunchedError, set_calls (calls w ++ [m_start]) w) /\
   stop E w = (Raise NotLaunchedError, set_calls (calls w ++ [m_stop]) w) /\
   shutdown E w = (Raise NotLaunchedError, set_calls (calls w ++ [m_shutdown]) w)) /\
  (forall msg, fst (step E w) <> Raise (PyRepError msg)) /\
  (step_lock w = false ->
   added w (snd (step E w)) step_events /\
   _ui_thread (snd (step E w)) = _ui_thread w /\
   (raises E (simExtStep None) (occurrences (simExtStep None) (trace w)) = false ->
    fst (step E w) = Ret tt) /\
   (raises E (simExtStep None) (occurrences (simExtStep None) (trace w)) = true ->
    fst (step E w) = Raise (EngineError (simExtStep None)))).
Proof.
  split; [apply refused_before_launch|]. split.
  - intros msg. destruct (step_lock w) eqn:Hl.
    + rewrite step_blocked by assumption. discriminate.
    + rewrite step_run by assumption. cbn. destruct (raises E _ _); discriminate.
  - intros Hl. rewrite step_run by assumption. cbn [fst snd].
    split; [reflexivity|]. split; [reflexivity|].
    split; intros Hr; rewrite Hr; reflexivity.
Qed.

Lemma launch_check_before_launch_witness :
  start (sample_env 2 1) fresh
  = (Raise NotLaunchedError, set_calls (calls fresh ++ [m_start]) fresh) /\
  fst (step (sample_env 2 1) fresh) = Ret tt /\
  _ui_thread launched = Some 0 /\
  fst (step (sample_env 2 1) launched) = Ret tt.
Proof.
  destruct (launch_check_before_launch (sample_env 2 1) fresh)
    as (H1 & _ & H5).
  destruct (launch_check_before_launch (sample_env 2 1) launched)
    as (_ & _ & H6).
  split; [apply H1; vm_compute; reflexivity|].
  split; [apply H5; vm_compute; reflexivity|].
  split; [vm_compute; reflexivity|].
  apply H6; vm_compute; reflexivity.
Defined.

(** C1 as stated fails for [step]: on a freshly constructed object, never
    launched, [step()] returns normally after calling the engine. *)
Lemma step_before_launch_not_refused :
  _ui_thread fresh = None /\
  step (sample_env 2 1) fresh
  = (Ret tt, set_trace step_events (set_calls [m_step] fresh)) /\
  ~ (forall E w, _ui_thread w = None -> fst (step E w) = Raise NotLaunchedError).
Proof.
  split; [vm_compute; reflexivity|]. split; [vm_compute; reflexivity|].
  intros H.
  assert (Hu : _ui_thread fresh = None) by (vm_compute; reflexivity).
  specialize (H (sample_env 2 1) fresh Hu). vm_compute in H. discriminate.
Qed.

(** ** [stop] *)

Lemma stop_idle E w ui :
  _ui_thread w = Some ui -> running w = false ->
  stop E w = (Ret tt, set_calls (calls w ++ [m_stop]) w).
Proof. intros Hu Hr. open_world w. exec_with idtac. reflexivity. Qed.

Lemma stop_stops E w ui :
  _ui_thread w = Some ui -> running w = true -> step_lock w = false ->
  never_raises E ->
  stop E w =
    (Ret tt,
     set_trace (trace w ++ stop_events true)
       (set_calls (calls w ++ stop_calls true) (set_running false w))).
Proof.
  intros Hu Hr Hl Hn. open_world w.
  exec_with ltac:(rewrite ?Hn).
  f_equal. same_world.
Qed.

Lemma stop_flag E w ui :
  _ui_thread w = Some ui -> running w = true ->
  running (snd (stop E w))
  = raises E simStopSimulation (occurrences simStopSimulation (trace w)).
Proof.
  intros Hu Hr. open_world w. exec_with split_oracle; auto.
Qed.

(** C3: on a launched session that is simulating, [stop()] calls the
    engine's stop, sets [running] to false and then makes exactly five
    [step()] calls, each under the gate; the flag is lowered exactly when
    the stop call did not raise, so before the steps.  By the engine's
    stepping contract none of the five advances physics: they are UI-only.
    On a launched session that is not simulating, [stop()] changes nothing
    and calls nothing. *)
Theorem stop_effect E w ui :
  _ui_thread w = Some ui ->
  (running w = false ->
   stop E w = (Ret tt, set_calls (calls w ++ [m_stop]) w)) /\
  (running w = true -> step_lock w = false -> never_raises E ->
   stop E w =
     (Ret tt,
      set_trace (trace w ++ stop_events true)
        (set_calls (calls w ++ stop_calls true) (set_running false w)))) /\
  (running w = true ->
   running (snd (stop E w))
   = raises E simStopSimulation (occurrences simStopSimulation (trace w))) /\
  stop_events true
  = Call simStopSimulation :: List.concat (repeat step_events 5) /\
  step_calls (stop_events true) = repeat (simExtStep None) 5 /\
  (forall simulating, physics_ticks simulating (stop_events true) = 0).
Proof.
  intros Hu. split; [|split; [|split]].
  - apply stop_idle with ui; assumption.
  - apply stop_stops with ui; assumption.
  - apply stop_flag with ui; assumption.
  - repeat split.
Qed.

Lemma stop_effect_witness :
  stop (sample_env 2 1) simulating =
    (Ret tt,
     set_trace (trace simulating ++ stop_events true)
       (set_calls (calls simulating ++ stop_calls true)
          (set_running false simulating))).
Proof.
  assert (Hu : _ui_thread simulating = Some 0) by (vm_compute; reflexivity).
  destruct (stop_effect (sample_env 2 1) simulating 0 Hu) as (_ & H & _).
  apply H; [vm_compute; reflexivity | vm_compute; reflexivity
           | apply sample_never_raises].
Defined.

(** ** Rules for invariants of runs *)

Section KeepsOps.

Variable E : Env.
Variable I : World -> World -> Prop.
Hypothesis I_refl : forall w, I w w.
Hypothesis I_trans : forall w1 w2 w3, I w1 w2 -> I w2 w3 -> I w1 w3.
Hypothesis I_frame : forall w w', frame w w' -> I w w'.
Hypothesis I_log :
  forall e w, quiet e -> I w (set_trace (trace w ++ [e]) w).
Variable okm : Method -> Prop.
Hypothesis I_enter :
  forall m w, okm m -> I w (set_calls (calls w ++ [m]) w).
Hypothesis K_locked_step :
  forall a, Keeps I (with_step_lock (call E (simExtStep a) ;; ret tt)).
Hypothesis K_locked_check : Keeps I (with_step_lock (responsive_check E)).

Lemma Keeps_ret A (a : A) : Keeps I (ret a).
Proof. intros w. apply I_refl. Qed.

Lemma Keeps_raise A e : Keeps I (@raise A e).
Proof. intros w. apply I_refl. Qed.

Lemma Keeps_diverge A : Keeps I (@diverge A).
Proof. intros w. apply I_refl. Qed.

Lemma Keeps_gets A (f : World -> A) : Keeps I (gets f).
Proof. intros w. apply I_refl. Qed.

Lemma Keeps_bind A B (m : M A) (f : A -> M B) :
  Keeps I m -> (forall a, Keeps I (f a)) -> Keeps I (bind m f).
Proof.
  intros Hm Hf w. unfold bind. specialize (Hm w).
  destruct (m w) as [[a| e |] w1]; cbn in *; auto.
  eapply I_trans; [eassumption|]. apply Hf.
Qed.

Lemma Keeps_try_except A (m : M A) catches h :
  Keeps I m -> (forall e, Keeps I (h e)) -> Keeps I (try_except m catches h).
Proof.
  intros Hm Hh w. unfold try_except. specialize (Hm w).
  destruct (m w) as [[a| e |] w1]; cbn in *; auto.
  destruct (catches e); cbn; auto.
  eapply I_trans; [eassumption|]. apply Hh.
Qed.

Lemma Keeps_try_finally A (m : M A) fin :
  Keeps I m -> Keeps I fin -> Keeps I (try_finally m fin).
Proof.
  intros Hm Hf w. unfold try_finally. specialize (Hm w).
  destruct (m w) as [[a| e |] w1]; cbn in *; auto.
  - specialize (Hf w1). destruct (fin w1) as [[[]| e |] w2]; cbn in *;
      eapply I_trans; eassumption.
  - specialize (Hf w1). destruct (fin w1) as [[[]| e' |] w2]; cbn in *;
      eapply I_trans; eassumption.
Qed.

Lemma Keeps_for_range n body : Keeps I body -> Keeps I (for_range n body).
Proof.
  intros Hb. induction n; cbn.
  - apply Keeps_ret.
  - apply Keeps_bind; auto.
Qed.

Lemma Keeps_for_each A (l : list A) body :
  (forall x, Keeps I (body x)) -> Keeps I (for_each l body).
Proof.
  intros Hb. induction l; cbn.
  - apply Keeps_ret.
  - apply Keeps_bind; auto.
Qed.

Lemma Keeps_modify f : (forall w, I w (f w)) -> Keeps I (modify f).
Proof. intros H w. apply H. Qed.

Lemma Keeps_run_as t body : 
  (forall w c, I w (set_current c w)) -> Keeps I body -> Keeps I (run_as t body).
Proof.
  intros Hc Hb w. unfold run_as.
  specialize (Hb (set_current (Some t) w)).
  destruct (body (set_current (Some t) w)) as [o w1]. cbn in *.
  eapply I_trans; [apply Hc|]. eapply I_trans; [eassumption|]. apply Hc.
Qed.

Lemma Keeps_log e : quiet e -> Keeps I (log e).
Proof. intros H w. apply I_log, H. Qed.

Lemma Keeps_print s : Keeps I (print s).
Proof. apply Keeps_log. reflexivity. Qed.

Lemma Keeps_sleep n : Keeps I (sleep n).
Proof. apply Keeps_log. reflexivity. Qed.

Lemma Keeps_enter m : okm m -> Keeps I (enter m).
Proof. intros H w. apply I_enter, H. Qed.

Lemma Keeps_call c : quiet (Call c) -> Keeps I (call E c).
Proof.
  intros H w. unfold call. destruct (raises E c _); cbn; apply I_log, H.
Qed.

Lemma Keeps_call_bool c : quiet (Call c) -> Keeps I (call_bool E c).
Proof. intros H. unfold call_bool. apply Keeps_bind; auto using Keeps_call, Keeps_ret. Qed.

Lemma Keeps_call_buffer c : quiet (Call c) -> Keeps I (call_buffer E c).
Proof. intros H. unfold call_buffer. apply Keeps_bind; auto using Keeps_call, Keeps_ret. Qed.

Lemma Keeps_call_handles c : quiet (Call c) -> Keeps I (call_handles E c).
Proof. intros H. unfold call_handles. apply Keeps_bind; auto using Keeps_call, Keeps_ret. Qed.

Lemma Keeps_framed f : (forall w, frame w (f w)) -> Keeps I (modify f).
Proof. intros H. apply Keeps_modify. intros w. apply I_frame, H. Qed.

Lemma frame_refl w : frame w w.
Proof. repeat split. Qed.

Lemma Keeps_chdir p : Keeps I (chdir E p).
Proof.
  unfold chdir. destruct (fs E p) as [[]|]; auto using Keeps_raise.
  apply Keeps_bind; [apply Keeps_log; reflexivity|]. intros _.
  apply Keeps_framed. intros w. repeat split.
Qed.

Lemma Keeps_join t : Keeps I (join t).
Proof.
  intros w. unfold join.
  destruct (negb (is_started t w)); [apply I_refl|].
  destruct (is_current t w); [apply I_refl|].
  apply Keeps_log. reflexivity.
Qed.

Lemma Keeps_encode_ascii s : Keeps I (encode_ascii s).
Proof. unfold encode_ascii. destruct (is_ascii s); auto using Keeps_ret, Keeps_raise. Qed.

Lemma Keeps_Thread_new tg : Keeps I (Thread_new tg).
Proof. intros w. apply I_frame. repeat split. Qed.

Lemma Keeps_set_daemon t : Keeps I (set_daemon t).
Proof. apply Keeps_framed. intros w. repeat split. Qed.

Lemma Keeps_mark_started t : Keeps I (mark_started t).
Proof. apply Keeps_framed. intros w. repeat split. Qed.

Lemma Keeps_run_ui_thread s h v : Keeps I (_run_ui_thread E s h v).
Proof.
  unfold _run_ui_thread.
  apply Keeps_bind; [apply Keeps_gets|intros root].
  apply Keeps_bind; [apply Keeps_chdir|intros _].
  apply Keeps_bind; [apply Keeps_print|intros _].
  apply Keeps_bind; [apply Keeps_encode_ascii|intros v'].
  apply Keeps_bind; [apply Keeps_call; reflexivity|intros _].
  apply Keeps_bind; [apply Keeps_encode_ascii|intros name].
  apply Keeps_bind; [apply Keeps_encode_ascii|intros scene].
  apply Keeps_bind.
  { apply Keeps_bind; [apply Keeps_gets|intros r; apply Keeps_encode_ascii]. }
  intros root'.
  apply Keeps_bind; [apply Keeps_call; reflexivity|intros _; apply Keeps_ret].
Qed.

Lemma Keeps_Thread_start t : Keeps I (Thread_start E t).
Proof.
  intros w. unfold Thread_start.
  destruct (nth_error (threads w) t) as [th|]; [|apply I_refl].
  destruct (started th); [apply I_refl|].
  destruct (interrupt E t); [apply I_refl|].
  revert w. change (Keeps I
    (mark_started t;; log (ThreadStart t);;
     match target th with
     | run_ui_thread scene_file headless verbosity =>
         run_as t (_run_ui_thread E scene_file headless verbosity)
     | run_responsive_ui_thread => ret tt
     end)).
  apply Keeps_bind; [apply Keeps_mark_started|]; auto. intros _.
  apply Keeps_bind; [apply Keeps_log; reflexivity|]; auto. intros _.
  destruct (target th); [|apply Keeps_ret; auto].
  apply Keeps_run_as; auto using Keeps_run_ui_thread.
  intros w c. apply I_frame. repeat split.
Qed.

Lemma Keeps_step : okm m_step -> Keeps I (step E).
Proof. intros H. unfold step. apply Keeps_bind; auto using Keeps_enter. Qed.

Lemma Keeps_step_ui : okm m_step_ui -> Keeps I (step_ui E).
Proof. intros H. unfold step_ui. apply Keeps_bind; auto using Keeps_enter. Qed.

Lemma Keeps_start : okm m_start -> Keeps I (start E).
Proof.
  intros H. unfold start.
  apply Keeps_bind; auto using Keeps_enter. intros _.
  apply Keeps_bind; auto using Keeps_gets. intros [t|]; auto using Keeps_raise.
  apply Keeps_bind; auto using Keeps_gets. intros []; cbn; auto using Keeps_ret.
  apply Keeps_bind; auto. { apply Keeps_call. reflexivity. }
  intros _. apply Keeps_framed. intros w. repeat split.
Qed.

Lemma Keeps_stop : okm m_stop -> okm m_step -> Keeps I (stop E).
Proof.
  intros H H'. unfold stop.
  apply Keeps_bind; auto using Keeps_enter. intros _.
  apply Keeps_bind; auto using Keeps_gets. intros [t|]; auto using Keeps_raise.
  apply Keeps_bind; auto using Keeps_gets. intros []; cbn; auto using Keeps_ret.
  apply Keeps_bind; auto. { apply Keeps_call. reflexivity. }
  intros _. apply Keeps_bind; auto. { apply Keeps_framed. intros w. repeat split. }
  intros _. apply (Keeps_for_range 5); auto using Keeps_step.
Qed.

(** The part of [shutdown] between raising the flag and lowering it. *)
Lemma Keeps_shutdown_body ui :
  okm m_stop -> okm m_step -> okm m_step_ui ->
  Keeps I
    (stop E;; step_ui E;; call E simExtPostExitRequest;;
     call E simExtSimThreadDestroy;; join ui;;
     r <- gets _responsive_ui_thread;;
     match r with Some rt => join rt | None => ret tt end;;
     sleep 100).
Proof.
  intros H1 H2 H3.
  apply Keeps_bind; [apply Keeps_stop; auto|intros _].
  apply Keeps_bind; [apply Keeps_step_ui; auto|intros _].
  apply Keeps_bind; [apply Keeps_call; reflexivity|intros _].
  apply Keeps_bind; [apply Keeps_call; reflexivity|intros _].
  apply Keeps_bind; [apply Keeps_join|intros _].
  apply Keeps_bind; [apply Keeps_gets|intros r].
  apply Keeps_bind; [|intros _; apply Keeps_sleep].
  destruct r; [apply Keeps_join|apply Keeps_ret].
Qed.

Lemma Keeps_shutdown :
  (forall m, okm m) ->
  (forall b w, I w (set_shutting_down b w)) ->
  (forall t w, I w (set_ui_thread t w)) ->
  Keeps I (shutdown E).
Proof.
  intros Hm Hsd Hui. unfold shutdown.
  apply Keeps_bind; auto using Keeps_enter. intros _.
  apply Keeps_bind; auto using Keeps_gets. intros t.
  apply Keeps_bind; auto. { destruct t; auto using Keeps_ret, Keeps_raise. }
  intros _.
  apply Keeps_bind; auto using Keeps_gets. intros t'.
  apply Keeps_bind; auto.
  { destruct t' as [ui|]; auto using Keeps_ret.
    apply Keeps_bind; auto. { apply Keeps_modify; auto. }
    intros _. apply Keeps_shutdown_body; auto. }
  intros _. apply Keeps_bind; auto; [|intros _]; apply Keeps_modify; auto.
Qed.

Lemma Keeps_responsive_loop fuel : Keeps I (responsive_loop E fuel).
Proof.
  induction fuel; cbn; [apply Keeps_diverge; auto|].
  apply Keeps_bind; auto using Keeps_gets. intros r.
  apply Keeps_bind; auto. { destruct r; cbn; auto using Keeps_ret. }
  intros []; auto using Keeps_ret.
  apply Keeps_bind; auto using Keeps_sleep.
Qed.

Section Session.

Hypothesis okm_all : forall m, okm m.
Hypothesis I_sd : forall b w, I w (set_shutting_down b w).
Hypothesis I_ui : forall t w, I w (set_ui_thread t w).

Lemma Keeps_run_responsive_ui_thread fuel :
  Keeps I (_run_responsive_ui_thread E fuel).
Proof.
  unfold _run_responsive_ui_thread.
  apply Keeps_bind; [apply Keeps_responsive_loop|intros _].
  apply Keeps_bind; [apply Keeps_gets|intros sd].
  destruct sd; [apply Keeps_ret|apply Keeps_shutdown; auto].
Qed.

Lemma Keeps_check_scene_file s : Keeps I (check_scene_file E s).
Proof.
  unfold check_scene_file.
  apply Keeps_bind; [apply Keeps_gets|intros d].
  destruct (_ && _).
  { apply Keeps_bind; [apply Keeps_print|intros _; apply Keeps_raise]. }
  destruct (Nat.eqb _ _);
    (apply Keeps_bind; [apply Keeps_print|intros _; apply Keeps_ret]).
Qed.

Lemma Keeps_wait_ready fuel : Keeps I (wait_ready E fuel).
Proof.
  induction fuel; cbn; [apply Keeps_diverge|].
  apply Keeps_bind; [apply Keeps_call_bool; reflexivity|intros ok].
  destruct ok; [apply Keeps_ret|].
  apply Keeps_bind; [apply Keeps_sleep|auto].
Qed.

Lemma Keeps_preliminary_step : Keeps I (preliminary_step E).
Proof.
  unfold preliminary_step.
  apply Keeps_bind; [apply Keeps_print|intros _].
  apply Keeps_try_except; [|intros e; apply Keeps_print].
  apply Keeps_bind; [apply K_locked_step|intros _].
  apply Keeps_bind; [apply Keeps_print|intros _; apply Keeps_sleep].
Qed.

Lemma Keeps_decode_utf8 b : Keeps I (decode_utf8 b).
Proof.
  unfold decode_utf8. destruct (utf8_points _); [apply Keeps_ret|apply Keeps_raise].
Qed.

Lemma Keeps_report_scene_name s : Keeps I (report_scene_name E s).
Proof.
  unfold report_scene_name.
  apply Keeps_try_except; [|intros e; apply Keeps_print].
  apply Keeps_bind; [apply Keeps_call_buffer; reflexivity|intros p].
  destruct p; [|apply Keeps_print].
  apply Keeps_bind; [apply Keeps_decode_utf8|intros name].
  apply Keeps_bind; [apply Keeps_print|intros _].
  apply Keeps_bind; [apply Keeps_call; reflexivity|intros _].
  destruct (_ && _); [apply Keeps_print|apply Keeps_ret].
Qed.

Lemma Keeps_list_scene_objects : Keeps I (list_scene_objects E).
Proof.
  unfold list_scene_objects.
  apply Keeps_try_except.
  2:{ intros e. apply Keeps_bind; [apply Keeps_print|intros _; apply Keeps_print]. }
  apply Keeps_bind; [apply Keeps_call_handles; reflexivity|intros hs].
  apply Keeps_bind; [|intros _; apply Keeps_print].
  destruct hs as [[|h l]|]; try apply Keeps_print.
  apply Keeps_bind; [apply Keeps_print|intros _].
  apply Keeps_bind.
  { apply Keeps_for_each. intros x.
    apply Keeps_bind; [apply Keeps_call_buffer; reflexivity|intros p].
    destruct p; [|apply Keeps_ret].
    apply Keeps_try_finally.
    { apply Keeps_bind; [apply Keeps_decode_utf8|intros _; apply Keeps_ret]. }
    apply Keeps_bind; [apply Keeps_call; reflexivity|intros _; apply Keeps_ret]. }
  intros _.
  apply Keeps_bind; [apply Keeps_call; reflexivity|intros _; apply Keeps_ret].
Qed.

Lemma Keeps_final_report b : Keeps I (final_report E b).
Proof.
  unfold final_report. destruct (negb b); [|apply Keeps_ret].
  apply Keeps_try_except; [|intros e; apply Keeps_print].
  apply Keeps_bind; [apply Keeps_call_buffer; reflexivity|intros p].
  destruct p; [|apply Keeps_print].
  apply Keeps_bind; [apply Keeps_decode_utf8|intros _].
  apply Keeps_bind; [apply Keeps_call; reflexivity|intros _; apply Keeps_print].
Qed.

Lemma Keeps_blocking_loop fuel :
  (forall a w, I w (set_trace (trace w ++ [Call (simExtStep a)]) w)) ->
  Keeps I (blocking_loop E fuel).
Proof.
  intros Hstep. induction fuel; cbn; [apply Keeps_diverge|].
  apply Keeps_bind; [apply Keeps_call_bool; reflexivity|intros x].
  destruct x; [apply Keeps_ret|].
  apply Keeps_bind; [|auto].
  intros w. unfold call. destruct (raises E _ _); cbn; apply Hstep.
Qed.

Lemma Keeps_dispatch fuel responsive_ui blocking :
  (blocking = true ->
   forall a w, I w (set_trace (trace w ++ [Call (simExtStep a)]) w)) ->
  Keeps I (dispatch E fuel responsive_ui blocking).
Proof.
  intros Hb. unfold dispatch. destruct blocking.
  { apply Keeps_bind; [apply Keeps_blocking_loop; auto|intros _].
    apply Keeps_shutdown; auto. }
  destruct responsive_ui; [|apply Keeps_step; auto].
  apply Keeps_bind; [apply Keeps_Thread_new|intros t].
  apply Keeps_bind.
  { apply Keeps_framed. intros w. repeat split. }
  intros _.
  apply Keeps_bind; [apply Keeps_set_daemon|intros _].
  apply Keeps_bind; [|intros _; apply Keeps_step; auto].
  apply Keeps_try_except; [apply Keeps_Thread_start|intros e].
  apply Keeps_bind; [apply Keeps_gets|intros sd].
  apply Keeps_bind; [|intros _; apply Keeps_raise].
  destruct sd; [apply Keeps_ret|apply Keeps_shutdown; auto].
Qed.

Lemma Keeps_session_after_init fuel s responsive_ui blocking :
  (blocking = true ->
   forall a w, I w (set_trace (trace w ++ [Call (simExtStep a)]) w)) ->
  Keeps I (session_after_init E fuel s responsive_ui blocking).
Proof.
  intros Hb. unfold session_after_init.
  apply Keeps_bind; [apply Keeps_sleep|intros _].
  apply Keeps_bind; [apply Keeps_preliminary_step|intros _].
  apply Keeps_bind; [apply Keeps_print|intros _].
  apply Keeps_bind; [apply Keeps_print|intros _].
  apply Keeps_bind; [apply Keeps_print|intros _].
  apply Keeps_bind; [apply Keeps_report_scene_name|intros _].
  apply Keeps_bind; [apply Keeps_print|intros _].
  apply Keeps_bind; [apply Keeps_list_scene_objects|intros _].
  apply Keeps_bind; [apply Keeps_dispatch; auto|intros _].
  apply Keeps_final_report.
Qed.

Lemma Keeps_launch_session fuel s responsive_ui blocking :
  (blocking = true ->
   forall a w, I w (set_trace (trace w ++ [Call (simExtStep a)]) w)) ->
  Keeps I (launch_session E fuel s responsive_ui blocking).
Proof.
  intros Hb. unfold launch_session.
  apply Keeps_bind; [apply Keeps_wait_ready|intros _].
  apply Keeps_bind; [apply Keeps_call; reflexivity|intros _].
  apply Keeps_session_after_init; auto.
Qed.

Lemma Keeps_launch fuel s headless responsive_ui blocking v :
  (blocking = true ->
   forall a w, I w (set_trace (trace w ++ [Call (simExtStep a)]) w)) ->
  Keeps I (launch E fuel s headless responsive_ui blocking v).
Proof.
  intros Hb. unfold launch.
  apply Keeps_bind; [apply Keeps_enter; auto|intros _].
  apply Keeps_bind; [apply Keeps_check_scene_file|intros a].
  apply Keeps_bind; [apply Keeps_print|intros _].
  apply Keeps_bind; [apply Keeps_gets|intros saved].
  apply Keeps_bind; [apply Keeps_Thread_new|intros t].
  apply Keeps_bind; [apply Keeps_modify; auto|intros _].
  apply Keeps_bind; [apply Keeps_set_daemon|intros _].
  apply Keeps_bind; [apply Keeps_Thread_start|intros _].
  apply Keeps_bind; [apply Keeps_launch_session; auto|intros _].
  apply Keeps_chdir.
Qed.

End Session.

End KeepsOps.

(** ** The trace only grows *)

Lemma grows_refl w : grows w w.
Proof. exists []. unfold added. now rewrite app_nil_r. Qed.

Lemma grows_trans w1 w2 w3 : grows w1 w2 -> grows w2 w3 -> grows w1 w3.
Proof.
  intros [d1 H1] [d2 H2]. exists (d1 ++ d2). unfold added in *.
  now rewrite H2, H1, app_assoc.
Qed.

Lemma grows_frame w w' : frame w w' -> grows w w'.
Proof. intros (H & _). exists []. unfold added. now rewrite H, app_nil_r. Qed.

Lemma grows_log e w : grows w (set_trace (trace w ++ [e]) w).
Proof. exists [e]. reflexivity. Qed.

Lemma grows_locked_step E a :
  Keeps grows (with_step_lock (call E (simExtStep a) ;; ret tt)).
Proof.
  intros w. open_world w. exec_with split_oracle.
  all: unfold grows, added; cbn; rewrite <- ?app_assoc; eauto.
  exists []. now rewrite app_nil_r.
Qed.

Lemma grows_locked_check E : Keeps grows (with_step_lock (responsive_check E)).
Proof.
  intros w. open_world w. unfold responsive_check. exec_with split_oracle.
  all: repeat match goal with
       | |- context [truth ?E ?c ?n] => destruct (truth E c n); cbn
       end.
  all: exec_with split_oracle.
  all: unfold grows, added; cbn; rewrite <- ?app_assoc; eauto.
  all: exists []; now rewrite app_nil_r.
Qed.

(** ** The gate discipline *)

Lemma gate_run_app h p1 p2 :
  gate_run h (p1 ++ p2) =
  match gate_run h p1 with
  | Some h' => gate_run h' p2
  | None => None
  end.
Proof.
  revert h. induction p1 as [|a p1 IH]; intros h; cbn; [reflexivity|].
  destruct a, h; cbn; auto.
Qed.

Lemma actions_app d1 d2 : actions (d1 ++ d2) = actions d1 ++ actions d2.
Proof. apply flat_map_app. Qed.

Lemma gate_kept_refl h w : gate_kept h w w.
Proof.
  intros Hl. split; [assumption|]. exists []. split; [|reflexivity].
  unfold added. now rewrite app_nil_r.
Qed.

Lemma gate_kept_trans h w1 w2 w3 :
  gate_kept h w1 w2 -> gate_kept h w2 w3 -> gate_kept h w1 w3.
Proof.
  intros H12 H23 Hl. destruct (H12 Hl) as (Hl2 & d1 & Ha1 & Hg1).
  destruct (H23 Hl2) as (Hl3 & d2 & Ha2 & Hg2).
  split; [assumption|]. exists (d1 ++ d2). split.
  - unfold added in *. now rewrite Ha2, Ha1, app_assoc.
  - now rewrite actions_app, gate_run_app, Hg1.
Qed.

Lemma gate_kept_frame h w w' : frame w w' -> gate_kept h w w'.
Proof.
  intros (Ht & Hs & _) Hl. split; [congruence|]. exists []. split; [|reflexivity].
  unfold added. now rewrite Ht, app_nil_r.
Qed.

Lemma gate_kept_log h e w :
  quiet e -> gate_kept h w (set_trace (trace w ++ [e]) w).
Proof.
  intros Hq Hl. split; [assumption|]. exists [e]. split; [reflexivity|].
  unfold actions. cbn. rewrite Hq. reflexivity.
Qed.

Lemma gate_kept_enter h m w : gate_kept h w (set_calls (calls w ++ [m]) w).
Proof.
  intros Hl. split; [assumption|]. exists []. split; [|reflexivity].
  unfold added. cbn. now rewrite app_nil_r.
Qed.

Lemma gate_kept_locked_step E a :
  Keeps (gate_kept false) (with_step_lock (call E (simExtStep a) ;; ret tt)).
Proof.
  intros w Hl. open_world w. exec_with split_oracle.
  all: split; [reflexivity|].
  all: eexists; split; [unfold added; cbn; rewrite <- ?app_assoc; reflexivity|].
  all: reflexivity.
Qed.

Lemma gate_kept_locked_check E :
  Keeps (gate_kept false) (with_step_lock (responsive_check E)).
Proof.
  intros w Hl. open_world w. unfold responsive_check. exec_with split_oracle.
  all: repeat match goal with
       | |- context [truth ?E ?c ?n] => destruct (truth E c n); cbn
       end.
  all: exec_with split_oracle.
  all: split; [reflexivity|].
  all: eexists; split; [unfold added; cbn; rewrite <- ?app_assoc; reflexivity|].
  all: reflexivity.
Qed.

(** ** The session fields *)

Lemma session_kept_refl w : session_kept w w.
Proof. repeat split. Qed.

Lemma session_kept_trans w1 w2 w3 :
  session_kept w1 w2 -> session_kept w2 w3 -> session_kept w1 w3.
Proof. unfold session_kept. intuition congruence. Qed.

Lemma session_kept_frame w w' : frame w w' -> session_kept w w'.
Proof.
  intros (_ & _ & Hc & Hs & Hu). unfold session_kept, invocations.
  rewrite Hc. auto.
Qed.

Lemma session_kept_log e w : session_kept w (set_trace (trace w ++ [e]) w).
Proof. repeat split. Qed.

Lemma session_kept_enter m w :
  m <> m_shutdown -> session_kept w (set_calls (calls w ++ [m]) w).
Proof.
  intros Hm. repeat split. unfold invocations. cbn.
  rewrite count_occ_app. cbn. destruct (Method_eq_dec m m_shutdown); [contradiction|lia].
Qed.

Lemma session_kept_locked_step E a :
  Keeps session_kept (with_step_lock (call E (simExtStep a) ;; ret tt)).
Proof.
  intros w. open_world w. exec_with split_oracle.
  all: repeat split.
Qed.

Lemma session_kept_locked_check E :
  Keeps session_kept (with_step_lock (responsive_check E)).
Proof.
  intros w. open_world w. unfold responsive_check. exec_with split_oracle.
  all: repeat match goal with
       | |- context [truth ?E ?c ?n] => destruct (truth E c n); cbn
       end.
  all: exec_with split_oracle.
  all: repeat split.
Qed.

(** ** [shutdown] *)

Lemma shutdown_completed E w ui w' :
  _ui_thread w = Some ui ->
  shutdown E w = (Ret tt, w') ->
  added w w' (shutdown_events (running w) ui (_responsive_ui_thread w)) /\
  calls w' = calls w ++ shutdown_calls (running w) /\
  _ui_thread w' = None /\ _shutting_down w' = false /\ running w' = false.
Proof.
  intros Hu. open_world w.
  exec_with split_oracle.
  all: try discriminate.
  all: intros H; apply (f_equal snd) in H; cbn in H; subst w'; clear.
  all: unfold added; cbn; rewrite <- ?app_assoc; cbn; repeat split.
Qed.




Lemma shutdown_unfold E w ui :
  _ui_thread w = Some ui ->
  shutdown E w =
  (shutdown_steps E ui;;
   modify (set_ui_thread None);; modify (set_shutting_down false))
    (set_shutting_down true (set_calls (calls w ++ [m_shutdown]) w)).
Proof.
  intros Hu.
  unfold shutdown, shutdown_steps, bind, enter, gets, modify, ret, set_calls.
  cbn. rewrite !Hu. reflexivity.
Qed.










(** C8: once a [shutdown()] has completed, the handle is [None]; a second
    [shutdown()], and likewise [start()] and [stop()], then raise the
    not-launched error, leave the object and the process as they are and
    add nothing to the trace. *)
Theorem second_shutdown_refused E w w' :
  shutdown E w = (Ret tt, w') ->
  _ui_thread w' = None /\
  shutdown E w' = (Raise NotLaunchedError, set_calls (calls w' ++ [m_shutdown]) w') /\
  start E w' = (Raise NotLaunchedError, set_calls (calls w' ++ [m_start]) w') /\
  stop E w' = (Raise NotLaunchedError, set_calls (calls w' ++ [m_stop]) w') /\
  (forall o w'', In (o, w'') [shutdown E w'; start E w'; stop E w'] ->
     unchanged w' w'' /\ trace w'' = trace w').
Proof.
  intros H.
  assert (Hu : _ui_thread w' = None).
  { destruct (_ui_thread w) as [ui|] eqn:Hw.
    - apply (shutdown_completed E w ui w' Hw H).
    - destruct (refused_before_launch E w Hw) as (_ & _ & H3).
      rewrite H3 in H. discriminate. }
  destruct (refused_before_launch E w' Hu) as (H1 & H2 & H3).
  repeat split; auto.
  all: destruct H0 as [H0|[H0|[H0|[]]]];
    rewrite ?H1, ?H2, ?H3 in H0; injection H0 as <- <-.
  all: try apply unchanged_set_calls; reflexivity.
Qed.

Lemma second_shutdown_refused_witness :
  shutdown (sample_env 2 1) (snd (shutdown (sample_env 2 1) launched))
  = (Raise NotLaunchedError,
     set_calls (calls (snd (shutdown (sample_env 2 1) launched)) ++ [m_shutdown])
               (snd (shutdown (sample_env 2 1) launched))).
Proof.
  apply (second_shutdown_refused (sample_env 2 1) launched
           (snd (shutdown (sample_env 2 1) launched))).
  vm_compute. reflexivity.
Defined.

(** ** The responsive loop *)

(** One round of the loop, case by case. *)
Lemma responsive_round E fuel w :
  responsive_loop E (S fuel) w =
  let n := occurrences simExtGetExitRequest (trace w) in
  let k := occurrences (simExtStep (Some false)) (trace w) in
  if running w then
    responsive_loop E fuel (set_trace (trace w ++ [Sleep 10]) w)
  else if step_lock w then (Diverge, w)
  else if _shutting_down w then
    (Ret tt, set_trace (trace w ++ [Acquire; Release]) w)
  else if raises E simExtGetExitRequest n then
    (Raise (EngineError simExtGetExitRequest),
     set_trace (trace w ++ [Acquire; Call simExtGetExitRequest; Release]) w)
  else if truth E simExtGetExitRequest n then
    (Ret tt,
     set_trace (trace w ++ [Acquire; Call simExtGetExitRequest; Release]) w)
  else if raises E (simExtStep (Some false)) k then
    (Raise (EngineError (simExtStep (Some false))),
     set_trace (trace w ++ [Acquire; Call simExtGetExitRequest;
                            Call (simExtStep (Some false)); Release]) w)
  else
    responsive_loop E fuel
      (set_trace (trace w ++ [Acquire; Call simExtGetExitRequest;
                              Call (simExtStep (Some false)); Release;
                              Sleep 10]) w).
Proof.
  cbn zeta. change (responsive_loop E (S fuel)) with
    (r <- gets running ;;
     brk <- (if negb r then with_step_lock (responsive_check E) else ret false) ;;
     if brk then ret tt else sleep 10 ;; responsive_loop E fuel).
  unfold responsive_check.
  destruct (running w) eqn:Hr, (step_lock w) eqn:Hl, (_shutting_down w) eqn:Hs;
    open_world w.
  all: exec_with idtac; try reflexivity.
  all: repeat (match goal with
               | |- context [raises ?E simExtGetExitRequest ?n] => destruct (raises E simExtGetExitRequest n)
               | |- context [truth ?E ?c ?n] => destruct (truth E c n)
               end; exec_with idtac).
  all: try reflexivity; try (f_equal; same_world).
  all: destruct (raises E (simExtStep (Some false)) _); exec_with idtac.
  all: try reflexivity; f_equal; same_world.
Qed.

Lemma responsive_loop_breaks E fuel :
  forall w w1, responsive_loop E fuel w = (Ret tt, w1) ->
  exit_observed E w1 /\ running w1 = false.
Proof.
  induction fuel as [|fuel IH]; intros w w1 H; [discriminate|].
  rewrite responsive_round in H. cbn zeta in H.
  destruct (running w) eqn:Hr; [apply IH in H; exact H|].
  destruct (step_lock w) eqn:Hl; [discriminate|].
  destruct (_shutting_down w) eqn:Hs.
  { injection H as <-. repeat split; auto. exists (trace w). left. auto. }
  destruct (raises E simExtGetExitRequest _) eqn:Hx; [discriminate|].
  destruct (truth E simExtGetExitRequest _) eqn:Ht.
  { injection H as <-. repeat split; auto. exists (trace w). right. auto. }
  destruct (raises E (simExtStep (Some false)) _); [discriminate|].
  apply IH in H. exact H.
Qed.

Lemma session_kept_responsive_loop E fuel :
  Keeps session_kept (responsive_loop E fuel).
Proof.
  apply Keeps_responsive_loop.
  - apply session_kept_refl.
  - apply session_kept_trans.
  - intros e w _. apply session_kept_log.
  - apply session_kept_locked_check.
Qed.

Lemma session_kept_shutdown_steps E ui :
  Keeps session_kept (shutdown_steps E ui).
Proof.
  unfold shutdown_steps.
  apply Keeps_shutdown_body with (okm := fun m => m <> m_shutdown).
  - apply session_kept_refl.
  - apply session_kept_trans.
  - apply session_kept_frame.
  - intros e w _. apply session_kept_log.
  - intros m w. apply session_kept_enter.
  - apply session_kept_locked_step.
  - discriminate.
  - discriminate.
  - discriminate.
Qed.

(** Every call of [shutdown()] is one more entry in the ghost log,
    however it ends. *)
Lemma shutdown_counted E w :
  invocations m_shutdown (snd (shutdown E w)) = S (invocations m_shutdown w).
Proof.
  assert (Hin : forall w0,
             invocations m_shutdown (set_calls (calls w0 ++ [m_shutdown]) w0)
             = S (invocations m_shutdown w0)).
  { intros w0. unfold invocations. cbn. rewrite count_occ_app. cbn. lia. }
  destruct (_ui_thread w) as [ui|] eqn:Hu.
  - rewrite (shutdown_unfold E w ui Hu).
    pose proof (session_kept_shutdown_steps E ui
                  (set_shutting_down true (set_calls (calls w ++ [m_shutdown]) w)))
      as (_ & _ & Hk).
    unfold bind at 1.
    destruct (shutdown_steps E ui _) as [[[]| e |] w1];
      unfold invocations in *; cbn in *; rewrite Hk; apply Hin.
  - destruct (refused_before_launch E w Hu) as (_ & _ & H). rewrite H. apply Hin.
Qed.

(** C6: the responsive loop leaves its [while] only by seeing, while it
    holds the gate, the shutdown flag or the engine's exit request, and
    it does leave it then.  Having left, the thread calls [shutdown()]
    once if the flag is down and not at all if the flag is up; a loop
    that ends otherwise calls it not at all. *)
Theorem responsive_loop_exit E fuel w :
  (forall w1, responsive_loop E fuel w = (Ret tt, w1) ->
     exit_observed E w1 /\
     _shutting_down w1 = _shutting_down w /\
     _run_responsive_ui_thread E fuel w
     = (if _shutting_down w1 then (Ret tt, w1) else shutdown E w1) /\
     invocations m_shutdown (snd (_run_responsive_ui_thread E fuel w))
     = invocations m_shutdown w + (if _shutting_down w1 then 0 else 1)) /\
  (forall o w1, responsive_loop E fuel w = (o, w1) -> o <> Ret tt ->
     invocations m_shutdown (snd (_run_responsive_ui_thread E fuel w))
     = invocations m_shutdown w) /\
  (running w = false -> step_lock w = false -> _shutting_down w = true ->
   responsive_loop E (S fuel) w
   = (Ret tt, set_trace (trace w ++ [Acquire; Release]) w)) /\
  (running w = false -> step_lock w = false -> _shutting_down w = false ->
   raises E simExtGetExitRequest (occurrences simExtGetExitRequest (trace w)) = false ->
   truth E simExtGetExitRequest (occurrences simExtGetExitRequest (trace w)) = true ->
   responsive_loop E (S fuel) w
   = (Ret tt,
      set_trace (trace w ++ [Acquire; Call simExtGetExitRequest; Release]) w)).
Proof.
  split; [|split; [|split]].
  - intros w1 H.
    pose proof (session_kept_responsive_loop E fuel w) as Hk.
    rewrite H in Hk. destruct Hk as (Hsd & _ & Hinv). cbn in Hsd, Hinv.
    assert (Hrun : _run_responsive_ui_thread E fuel w
                   = (if _shutting_down w1 then (Ret tt, w1) else shutdown E w1)).
    { unfold _run_responsive_ui_thread, bind, gets. rewrite H.
      destruct (_shutting_down w1); reflexivity. }
    split; [apply (responsive_loop_breaks E fuel w w1 H)|].
    split; [assumption|]. split; [assumption|].
    rewrite Hrun. destruct (_shutting_down w1); cbn.
    + lia.
    + rewrite shutdown_counted. lia.
  - intros o w1 H Ho.
    pose proof (session_kept_responsive_loop E fuel w) as Hk.
    rewrite H in Hk. destruct Hk as (_ & _ & Hinv). cbn in Hinv.
    unfold _run_responsive_ui_thread, bind. rewrite H.
    destruct o as [[]| e |]; [contradiction Ho; reflexivity| |]; exact Hinv.
  - intros Hr Hl Hs. rewrite responsive_round. cbn zeta.
    rewrite Hr, Hl, Hs. reflexivity.
  - intros Hr Hl Hs Hx Ht. rewrite responsive_round. cbn zeta.
    rewrite Hr, Hl, Hs, Hx, Ht. reflexivity.
Qed.

Lemma responsive_loop_exit_witness :
  invocations m_shutdown
    (snd (_run_responsive_ui_thread (sample_env 2 1) 5 responsive_session))
  = invocations m_shutdown responsive_session + 1.
Proof.
  destruct (responsive_loop_exit (sample_env 2 1) 5 responsive_session)
    as (H & _).
  destruct (H (snd (responsive_loop (sample_env 2 1) 5 responsive_session)))
    as (_ & _ & _ & Hinv).
  - vm_compute. reflexivity.
  - rewrite Hinv. vm_compute. reflexivity.
Defined.

(** The [shutdown()] that the responsive thread calls on itself stops at
    the join of the responsive thread: a thread cannot join itself.  The
    engine has been told to exit and the session thread has been joined,
    but the handle stays set and the flag stays raised. *)
Example self_shutdown_cannot_join_itself :
  let r := _run_responsive_ui_thread (sample_env 2 1) 5 responsive_session in
  fst r = Raise (RuntimeError "cannot join current thread") /\
  _shutting_down (snd r) = true /\ _ui_thread (snd r) = Some 0 /\
  engine_calls (trace (snd r))
  = engine_calls (trace responsive_session)
    ++ [simExtGetExitRequest; simExtStep (Some false); simExtGetExitRequest;
        simExtStep (Some false); simExtPostExitRequest; simExtSimThreadDestroy].
Proof. vm_compute. repeat split. Qed.

(** ** [launch] *)

Lemma nonempty_length s : s <> "" -> Nat.ltb 0 (String.length s) = true.
Proof. destruct s; [congruence|reflexivity]. Qed.

Lemma missing_is_no_file E p : exists_ E p = false -> isfile E p = false.
Proof. unfold exists_, isfile. destruct (fs E p) as [[]|]; congruence. Qed.

(** C5: given a non-empty [scene_file] whose absolute path does not
    exist, [launch] raises the scene-file error at once: it creates and
    starts no thread, sets no handle and calls the engine not at all; all
    it adds to the trace is a print. *)
Theorem launch_missing_scene_file
        E fuel scene_file headless responsive_ui blocking verbosity w :
  scene_file <> "" ->
  exists_ E (abspath E (cwd w) scene_file) = false ->
  let r := launch E fuel scene_file headless responsive_ui blocking verbosity w in
  r = (Raise (SceneFileError scene_file),
       set_trace (trace w ++ [Print "ERROR - Scene file specified BUT DOES NOT EXIST"])
         (set_calls (calls w ++ [m_launch]) w)) /\
  threads (snd r) = threads w /\
  _ui_thread (snd r) = _ui_thread w /\
  _responsive_ui_thread (snd r) = _responsive_ui_thread w /\
  engine_calls (trace (snd r)) = engine_calls (trace w) /\
  thread_starts (trace (snd r)) = thread_starts (trace w).
Proof.
  intros Hne Hex r.
  assert (Hr : r = (Raise (SceneFileError scene_file),
       set_trace (trace w ++ [Print "ERROR - Scene file specified BUT DOES NOT EXIST"])
         (set_calls (calls w ++ [m_launch]) w))).
  { subst r. unfold launch, check_scene_file.
    unfold bind at 1. unfold enter at 1, modify at 1.
    unfold bind at 1. unfold bind at 1. unfold gets at 1.
    change (cwd (set_calls (calls w ++ [m_launch]) w)) with (cwd w).
    rewrite (nonempty_length _ Hne), (missing_is_no_file _ _ Hex). cbn [andb negb].
    reflexivity. }
  rewrite Hr. repeat split; cbn.
  - unfold engine_calls. rewrite flat_map_app. cbn. apply app_nil_r.
  - unfold thread_starts. rewrite flat_map_app. cbn. apply app_nil_r.
Qed.

Lemma launch_missing_scene_file_witness :
  fst (launch (sample_env 2 1) 10 "nope.ttt" true false false "none" fresh)
  = Raise (SceneFileError "nope.ttt").
Proof.
  destruct (launch_missing_scene_file (sample_env 2 1) 10 "nope.ttt"
              true false false "none" fresh) as (H & _).
  - discriminate.
  - vm_compute. reflexivity.
  - rewrite H. reflexivity.
Defined.

Lemma bind_Ret A B (m : M A) (f : A -> M B) w b w' :
  bind m f w = (Ret b, w') ->
  exists a w1, m w = (Ret a, w1) /\ f a w1 = (Ret b, w').
Proof.
  unfold bind. destruct (m w) as [[a| e |] w1]; try discriminate.
  intros H. exists a, w1. auto.
Qed.

Lemma check_scene_file_Ret E s w a w1 :
  check_scene_file E s w = (Ret a, w1) ->
  exists msg, w1 = set_trace (trace w ++ [Print msg]) w.
Proof.
  unfold check_scene_file, bind, gets, print, log, modify, raise, ret.
  destruct (_ && _); [discriminate|].
  destruct (Nat.eqb _ _); intros [= <- <-]; eexists; reflexivity.
Qed.

Lemma chdir_Ret E p w w' :
  chdir E p w = (Ret tt, w') ->
  w' = set_cwd p (set_trace (trace w ++ [Chdir p]) w).
Proof.
  unfold chdir. destruct (fs E p) as [[]|]; try discriminate.
  unfold bind, log, modify. intros [= <-]. reflexivity.
Qed.

Lemma nth_error_update_thread_last f x (l : list Thread) :
  nth_error (update_thread (List.length l) f (l ++ [x])) (List.length l)
  = Some (f x).
Proof.
  unfold update_thread.
  assert (H : forall k,
    nth_error
      (map (fun p => if Nat.eqb (fst p) (k + List.length l) then f (snd p) else snd p)
           (combine (seq k (List.length (l ++ [x]))) (l ++ [x])))
      (List.length l) = Some (f x)).
  { induction l as [|y l IH]; intros k; cbn.
    - rewrite Nat.add_0_r, Nat.eqb_refl. reflexivity.
    - specialize (IH (S k)). rewrite Nat.add_succ_r. cbn in IH. exact IH. }
  exact (H 0).
Qed.


(** What the session thread adds to the trace when the installation root
    is a directory: first of all, its change of directory. *)
Lemma run_ui_thread_chdir E s h v w :
  fs E (_vrep_root w) = Some Dir ->
  exists d, trace (snd (_run_ui_thread E s h v w))
            = trace w ++ Chdir (_vrep_root w) :: d.
Proof.
  intros Hd. open_world w. unfold _run_ui_thread, chdir, encode_ascii.
  exec_with idtac. rewrite Hd.
  repeat (match goal with
          | |- context [if is_ascii ?s then _ else _] => destruct (is_ascii s)
          | |- context [raises ?E ?c ?n] => destruct (raises E c n)
          end; exec_with idtac).
  all: eexists; rewrite <- ?app_assoc; cbn; reflexivity.
Qed.

Lemma grows_run_ui_thread E s h v : Keeps grows (_run_ui_thread E s h v).
Proof.
  apply Keeps_run_ui_thread.
  - apply grows_refl.
  - apply grows_trans.
  - apply grows_frame.
  - intros e w _. apply grows_log.
Qed.

Lemma session_thread_started E t s h v w w' :
  nth_error (threads w) t = Some (mkThread (run_ui_thread s h v) true false) ->
  Thread_start E t w = (Ret tt, w') ->
  exists d, trace w' = trace w ++ ThreadStart t :: d /\
            (fs E (_vrep_root w) = Some Dir ->
             exists d', d = Chdir (_vrep_root w) :: d').
Proof.
  intros Hn. unfold Thread_start. rewrite Hn. cbn [started target].
  destruct (interrupt E t); [discriminate|].
  unfold bind, mark_started, log, run_as. unfold modify. cbn beta iota.
  match goal with
  | |- context [_run_ui_thread E s h v ?W] => set (W0 := W)
  end.
  pose proof (grows_run_ui_thread E s h v W0) as [d Hd].
  destruct (_run_ui_thread E s h v W0) as [o w1] eqn:Hrun.
  intros [= <-]. cbn in *. unfold added in Hd. cbn in Hd.
  exists d. split.
  - rewrite Hd, <- app_assoc. reflexivity.
  - intros Hdir.
    destruct (run_ui_thread_chdir E s h v W0 Hdir) as [d' Hd'].
    rewrite Hrun in Hd'. cbn in Hd'. rewrite Hd in Hd'.
    rewrite <- !app_assoc in Hd'.
    apply app_inv_head in Hd'. cbn in Hd'. injection Hd' as ->.
    exists d'. reflexivity.
Qed.

Lemma grows_launch_session E fuel s r b : Keeps grows (launch_session E fuel s r b).
Proof.
  apply Keeps_launch_session with (okm := fun _ => True); auto.
  - apply grows_refl.
  - apply grows_trans.
  - apply grows_frame.
  - intros e w _. apply grows_log.
  - intros m w _. exists []. unfold added. cbn. now rewrite app_nil_r.
  - apply grows_locked_step.
  - intros c w. exists []. unfold added. cbn. now rewrite app_nil_r.
  - intros c w. exists []. unfold added. cbn. now rewrite app_nil_r.
  - intros _ a w. apply grows_log.
Qed.

(** C9: a [launch] that returns has restored the working directory: the
    directory is read before the session thread is started, and the last
    thing [launch] does, in blocking and in non-blocking mode alike, is to
    change back to it.  In between the session thread, started by
    [launch], has changed to the installation root (when that is a
    directory). *)
Theorem launch_restores_cwd
        E fuel scene_file headless responsive_ui blocking verbosity w w' :
  launch E fuel scene_file headless responsive_ui blocking verbosity w
  = (Ret tt, w') ->
  cwd w' = cwd w /\
  exists msg d,
    added w w'
      ([Print msg; Print "Calling simExtLaunchUIThread with scene";
        ThreadStart (List.length (threads w))]
       ++ d ++ [Chdir (cwd w)]) /\
    (fs E (_vrep_root w) = Some Dir ->
     exists d', d = Chdir (_vrep_root w) :: d').
Proof.
  unfold launch. intros H.
  apply bind_Ret in H as ([] & w0 & H0 & H). injection H0 as <-.
  apply bind_Ret in H as (a & w1 & H1 & H).
  apply check_scene_file_Ret in H1 as [msg ->].
  apply bind_Ret in H as ([] & w2 & H2 & H). injection H2 as <-.
  apply bind_Ret in H as (saved & w3 & H3 & H). injection H3 as <- <-.
  apply bind_Ret in H as (t & w4 & H4 & H). injection H4 as <- <-.
  apply bind_Ret in H as ([] & w5 & H5 & H). injection H5 as <-.
  apply bind_Ret in H as ([] & w6 & H6 & H). injection H6 as <-.
  apply bind_Ret in H as ([] & w7 & H7 & H).
  apply bind_Ret in H as ([] & w8 & H8 & H).
  apply chdir_Ret in H. subst w'.
  eapply session_thread_started in H7.
  2:{ cbn. rewrite nth_error_update_thread_last. reflexivity. }
  destruct H7 as (d & Hd & Hdir).
  pose proof (grows_launch_session E fuel a responsive_ui blocking w7) as [d2 Hd2].
  rewrite H8 in Hd2. unfold added in Hd2. cbn in Hd2.
  split; [reflexivity|].
  exists msg, (d ++ d2). split.
  - unfold added. cbn. rewrite Hd2, Hd. cbn. rewrite <- !app_assoc. reflexivity.
  - intros Hroot. destruct (Hdir Hroot) as [d' ->]. exists (d' ++ d2). reflexivity.
Qed.

Lemma launch_restores_cwd_witness :
  cwd (snd (launch (sample_env 2 1) 10 "scene.ttt" true false false "none" fresh))
  = cwd fresh /\
  cwd (snd (launch (sample_env 2 1) 10 "scene.ttt" true false true "none" fresh))
  = cwd fresh.
Proof.
  split.
  - assert (H : launch (sample_env 2 1) 10 "scene.ttt" true false false "none" fresh
                = (Ret tt, snd (launch (sample_env 2 1) 10 "scene.ttt"
                                       true false false "none" fresh)))
      by (vm_compute; reflexivity).
    exact (proj1 (launch_restores_cwd _ _ _ _ _ _ _ _ _ H)).
  - assert (H : launch (sample_env 2 1) 10 "scene.ttt" true false true "none" fresh
                = (Ret tt, snd (launch (sample_env 2 1) 10 "scene.ttt"
                                       true false true "none" fresh)))
      by (vm_compute; reflexivity).
    exact (proj1 (launch_restores_cwd _ _ _ _ _ _ _ _ _ H)).
Defined.

(** ** The readiness poll *)

Lemma wait_ready_round E fuel w :
  wait_ready E (S fuel) w =
  let n := occurrences simExtCanInitSimThread (trace w) in
  if raises E simExtCanInitSimThread n then
    (Raise (EngineError simExtCanInitSimThread),
     set_trace (trace w ++ [Call simExtCanInitSimThread]) w)
  else if truth E simExtCanInitSimThread n then
    (Ret tt, set_trace (trace w ++ [Call simExtCanInitSimThread]) w)
  else
    wait_ready E fuel
      (set_trace (trace w ++ [Call simExtCanInitSimThread; Sleep 100]) w).
Proof.
  cbn zeta. change (wait_ready E (S fuel)) with
    (ok <- call_bool E simExtCanInitSimThread ;;
     if ok then ret tt else sleep 100 ;; wait_ready E fuel).
  open_world w. exec_with idtac.
  destruct (raises E simExtCanInitSimThread _); exec_with idtac; [reflexivity|].
  destruct (truth E simExtCanInitSimThread _); exec_with idtac; [reflexivity|].
  f_equal. same_world.
Qed.

Lemma occurrences_one_poll :
  occurrences simExtCanInitSimThread [Call simExtCanInitSimThread; Sleep 100] = 1.
Proof. reflexivity. Qed.

Lemma idle_polls_S n :
  idle_polls (S n) = [Call simExtCanInitSimThread; Sleep 100] ++ idle_polls n.
Proof. reflexivity. Qed.

Lemma occurrences_idle_polls n :
  occurrences simExtCanInitSimThread (idle_polls n) = n.
Proof.
  induction n; [reflexivity|]. rewrite idle_polls_S, occurrences_app, IHn.
  reflexivity.
Qed.

(** While the engine is not ready the poll goes on: all the fuel there is
    goes into polls. *)
Lemma wait_ready_never E fuel :
  never_raises E ->
  (forall n, truth E simExtCanInitSimThread n = false) ->
  forall w, wait_ready E fuel w
            = (Diverge, set_trace (trace w ++ idle_polls fuel) w).
Proof.
  intros Hn Hf. induction fuel as [|fuel IH]; intros w.
  - cbn. unfold diverge. f_equal. destruct w; cbn. now rewrite app_nil_r.
  - rewrite wait_ready_round. cbn zeta. rewrite Hn, Hf, IH.
    f_equal. rewrite idle_polls_S. destruct w; cbn. now rewrite <- app_assoc.
Qed.

Lemma wait_ready_not_Ret E fuel :
  (forall n, truth E simExtCanInitSimThread n = false) ->
  forall w w', wait_ready E fuel w <> (Ret tt, w').
Proof.
  intros Hf. induction fuel as [|fuel IH]; intros w w'.
  - discriminate.
  - rewrite wait_ready_round. cbn zeta. rewrite Hf.
    destruct (raises E _ _); [discriminate|apply IH].
Qed.

(** Once the engine is ready, at its [n]-th poll from here, the poll ends
    with that poll. *)
Lemma wait_ready_at E n :
  never_raises E ->
  forall fuel w, n < fuel ->
  (forall j, j < n ->
     truth E simExtCanInitSimThread
           (occurrences simExtCanInitSimThread (trace w) + j) = false) ->
  truth E simExtCanInitSimThread
        (occurrences simExtCanInitSimThread (trace w) + n) = true ->
  wait_ready E fuel w
  = (Ret tt,
     set_trace (trace w ++ idle_polls n ++ [Call simExtCanInitSimThread]) w).
Proof.
  intros Hn. induction n as [|n IH]; intros fuel w Hlt Hf Ht.
  - destruct fuel; [lia|]. rewrite wait_ready_round. cbn zeta.
    rewrite Nat.add_0_r in Ht. rewrite Hn, Ht. reflexivity.
  - destruct fuel; [lia|]. rewrite wait_ready_round. cbn zeta.
    rewrite Hn. specialize (Hf 0 ltac:(lia)) as Hf0.
    rewrite Nat.add_0_r in Hf0. rewrite Hf0.
    rewrite IH.
    + f_equal. rewrite idle_polls_S. destruct w; cbn. now rewrite <- !app_assoc.
    + lia.
    + intros j Hj. cbn [trace set_trace].
      rewrite occurrences_app, occurrences_one_poll, <- Nat.add_assoc.
      apply Hf. lia.
    + cbn [trace set_trace].
      rewrite occurrences_app, occurrences_one_poll, <- Nat.add_assoc.
      exact Ht.
Qed.

Lemma bind_Ret_eq A B (m : M A) (f : A -> M B) w a w1 :
  m w = (Ret a, w1) -> bind m f w = f a w1.
Proof. intros H. unfold bind. rewrite H. reflexivity. Qed.

Lemma check_scene_file_ok E s w :
  scene_ok E w s ->
  exists msg abs,
    check_scene_file E s w = (Ret abs, set_trace (trace w ++ [Print msg]) w).
Proof.
  intros Hs. unfold check_scene_file, bind, gets, print, log, modify, ret.
  destruct Hs as [-> | Hf].
  - cbn. eexists _, _. reflexivity.
  - rewrite Hf. rewrite andb_false_r.
    destruct (Nat.eqb _ _); eexists _, _; reflexivity.
Qed.

Lemma run_ui_thread_calls E s h v w :
  exists d, trace (snd (_run_ui_thread E s h v w)) = trace w ++ d /\
            session_thread_calls d.
Proof.
  open_world w. unfold _run_ui_thread, chdir, encode_ascii.
  exec_with idtac.
  repeat (match goal with
          | |- context [match fs ?E ?p with _ => _ end] =>
              destruct (fs E p) as [[]|]
          | |- context [if is_ascii ?s then _ else _] => destruct (is_ascii s)
          | |- context [raises ?E ?c ?n] => destruct (raises E c n)
          end; exec_with idtac).
  all: eexists; split; [rewrite <- ?app_assoc; cbn; try reflexivity;
                        symmetry; apply app_nil_r|].
  all: intros c Hc; cbn in Hc;
       repeat (destruct Hc as [Hc|Hc]; [try discriminate; injection Hc as <-; cbn; lia|]);
       try contradiction.
Qed.

Lemma session_thread_runs E t s h v w :
  nth_error (threads w) t = Some (mkThread (run_ui_thread s h v) true false) ->
  interrupt E t = None ->
  exists w' d,
    Thread_start E t w = (Ret tt, w') /\
    trace w' = trace w ++ ThreadStart t :: d /\ session_thread_calls d.
Proof.
  intros Hn Hi. unfold Thread_start. rewrite Hn, Hi. cbn [started target].
  unfold bind, mark_started, log, run_as. unfold modify. cbn beta iota.
  match goal with
  | |- context [_run_ui_thread E s h v ?W] => set (W0 := W)
  end.
  destruct (run_ui_thread_calls E s h v W0) as (d & Hd & Hc).
  destruct (_run_ui_thread E s h v W0) as [o w1].
  eexists _, d. split; [reflexivity|]. split; [|exact Hc].
  cbn in *. rewrite Hd, <- app_assoc. reflexivity.
Qed.

(** With an acceptable scene file and an undisturbed [Thread.start],
    [launch] gets to the readiness poll. *)
Lemma launch_reaches_poll E fuel s h r b v w :
  scene_ok E w s -> interrupt E (List.length (threads w)) = None ->
  exists msg abs w7 d,
    launch E fuel s h r b v w
    = (launch_session E fuel abs r b ;; chdir E (cwd w)) w7 /\
    trace w7 = trace w ++ before_poll msg (List.length (threads w)) d /\
    session_thread_calls d.
Proof.
  intros Hs Hi. unfold launch.
  erewrite bind_Ret_eq by reflexivity.
  destruct (check_scene_file_ok E s (set_calls (calls w ++ [m_launch]) w))
    as (msg & abs & Hc); [exact Hs|].
  erewrite bind_Ret_eq by exact Hc.
  erewrite bind_Ret_eq by reflexivity.
  erewrite bind_Ret_eq by reflexivity.
  erewrite bind_Ret_eq by reflexivity.
  erewrite bind_Ret_eq by reflexivity.
  erewrite bind_Ret_eq by reflexivity.
  match goal with
  | |- context [bind (Thread_start E ?t) _ ?W] =>
      destruct (session_thread_runs E t abs h v W) as (w7 & d & Hst & Htr & Hd)
  end.
  { unfold set_threads, set_ui_thread, set_trace, set_calls.
    cbn -[update_thread].
    rewrite nth_error_update_thread_last. reflexivity. }
  { exact Hi. }
  erewrite bind_Ret_eq by exact Hst.
  exists msg, abs, w7, d. split; [reflexivity|]. split; [|exact Hd].
  rewrite Htr. unfold set_threads, set_ui_thread, set_trace, set_calls. cbn.
  unfold before_poll. rewrite <- !app_assoc. reflexivity.
Qed.

Lemma grows_session_tail E fuel abs r b saved :
  Keeps grows (session_after_init E fuel abs r b ;; chdir E saved).
Proof.
  apply Keeps_bind; [apply grows_trans| |intros _].
  - apply Keeps_session_after_init with (okm := fun _ => True); auto.
    + apply grows_refl.
    + apply grows_trans.
    + apply grows_frame.
    + intros e w _. apply grows_log.
    + intros m w _. exists []. unfold added. cbn. now rewrite app_nil_r.
    + apply grows_locked_step.
    + intros c w. exists []. unfold added. cbn. now rewrite app_nil_r.
    + intros c w. exists []. unfold added. cbn. now rewrite app_nil_r.
    + intros _ a w. apply grows_log.
  - apply Keeps_chdir.
    + apply grows_refl.
    + apply grows_trans.
    + apply grows_frame.
    + intros e w _. apply grows_log.
Qed.

(** C7: the readiness poll of [launch] has no bound of its own.  If the
    engine never reports readiness, [launch] never returns; with a calm
    engine and an acceptable scene file it is still polling when the fuel
    runs out, however much there is, having made one poll per unit of fuel
    and never the initialisation call.  If the engine reports readiness at
    its [n]-th poll, [launch] makes those polls and then at once the
    initialisation call. *)
Theorem readiness_poll_unbounded E fuel s h r b v w :
  ((forall n, truth E simExtCanInitSimThread n = false) ->
   forall w', launch E fuel s h r b v w <> (Ret tt, w')) /\
  ((forall n, truth E simExtCanInitSimThread n = false) ->
   calm E -> scene_ok E w s ->
   exists msg d w',
     launch E fuel s h r b v w = (Diverge, w') /\
     added w w' (before_poll msg (List.length (threads w)) d ++ idle_polls fuel) /\
     session_thread_calls d) /\
  (forall n,
     calm E -> scene_ok E w s -> n < fuel ->
     (forall j, j < n ->
        truth E simExtCanInitSimThread
              (occurrences simExtCanInitSimThread (trace w) + j) = false) ->
     truth E simExtCanInitSimThread
           (occurrences simExtCanInitSimThread (trace w) + n) = true ->
     exists msg d post,
       added w (snd (launch E fuel s h r b v w))
         (before_poll msg (List.length (threads w)) d
          ++ idle_polls n
          ++ [Call simExtCanInitSimThread; Call simExtSimThreadInit]
          ++ post) /\
       session_thread_calls d).
Proof.
  split; [|split].
  - intros Hf w' H. unfold launch in H.
    apply bind_Ret in H as ([] & w0 & _ & H).
    apply bind_Ret in H as (a & w1 & _ & H).
    apply bind_Ret in H as ([] & w2 & _ & H).
    apply bind_Ret in H as (saved & w3 & _ & H).
    apply bind_Ret in H as (t & w4 & _ & H).
    apply bind_Ret in H as ([] & w5 & _ & H).
    apply bind_Ret in H as ([] & w6 & _ & H).
    apply bind_Ret in H as ([] & w7 & _ & H).
    apply bind_Ret in H as ([] & w8 & H8 & _).
    unfold launch_session in H8.
    apply bind_Ret in H8 as ([] & w9 & H9 & _).
    exact (wait_ready_not_Ret E fuel Hf w7 w9 H9).
  - intros Hf [Hn Hi] Hs.
    destruct (launch_reaches_poll E fuel s h r b v w Hs (Hi _))
      as (msg & abs & w7 & d & Hl & Htr & Hd).
    exists msg, d. eexists. split; [|split; [|exact Hd]].
    + rewrite Hl. unfold launch_session, bind.
      rewrite (wait_ready_never E fuel Hn Hf). reflexivity.
    + unfold added. cbn. rewrite Htr, <- app_assoc. reflexivity.
  - intros n [Hn Hi] Hs Hlt Hf Ht.
    destruct (launch_reaches_poll E fuel s h r b v w Hs (Hi _))
      as (msg & abs & w7 & d & Hl & Htr & Hd).
    assert (Hocc : occurrences simExtCanInitSimThread (trace w7)
                   = occurrences simExtCanInitSimThread (trace w)).
    { rewrite Htr, occurrences_app. unfold before_poll.
      rewrite occurrences_app.
      assert (H0 : forall a c t, occurrences simExtCanInitSimThread
                                   [Print a; Print c; ThreadStart t] = 0)
        by reflexivity.
      rewrite H0. clear H0.
      enough (occurrences simExtCanInitSimThread d = 0) by lia.
      unfold occurrences. clear - Hd. induction d as [|e d IH]; [reflexivity|].
      cbn. assert (Hd' : session_thread_calls d).
      { intros c Hc. apply Hd. right. exact Hc. }
      destruct e; cbn; auto.
      specialize (Hd c (or_introl eq_refl)).
      destruct c; cbn in *; auto; lia. }
    rewrite Hl. unfold launch_session.
    unfold bind at 1. unfold bind at 1.
    rewrite (wait_ready_at E n Hn fuel w7 Hlt); rewrite ?Hocc; auto.
    unfold bind at 1. unfold call at 1. rewrite Hn.
    match goal with
    | |- context [(session_after_init E fuel abs r b) ?W] => set (W9 := W)
    end.
    pose proof (grows_session_tail E fuel abs r b (cwd w) W9) as [post Hp].
    unfold bind in Hp at 1.
    destruct (session_after_init E fuel abs r b W9) as [[[]| e |] w10];
      cbn in Hp |- *.
    all: exists msg, d, post; split; [|exact Hd].
    all: unfold added in *; rewrite Hp; subst W9; cbn; rewrite Htr;
         rewrite <- !app_assoc; reflexivity.
Qed.

Lemma readiness_poll_unbounded_witness :
  (exists msg d w',
     launch stalled_env 7 "" true false false "none" fresh = (Diverge, w') /\
     added fresh w' (before_poll msg 0 d ++ idle_polls 7) /\
     session_thread_calls d) /\
  (exists msg d post,
     added fresh (snd (launch (sample_env 2 1) 10 "" true false false "none" fresh))
       (before_poll msg 0 d ++ idle_polls 2
        ++ [Call simExtCanInitSimThread; Call simExtSimThreadInit] ++ post) /\
     session_thread_calls d).
Proof.
  split.
  - destruct (readiness_poll_unbounded stalled_env 7 "" true false false "none" fresh)
      as (_ & H & _).
    apply H.
    + intros n. reflexivity.
    + split; [intros c n; reflexivity|intros t; reflexivity].
    + left. reflexivity.
  - destruct (readiness_poll_unbounded (sample_env 2 1) 10 "" true false false
                "none" fresh) as (_ & _ & H).
    apply (H 2).
    + apply sample_calm.
    + left. reflexivity.
    + lia.
    + intros j Hj. destruct j as [|[|j]]; [reflexivity|reflexivity|lia].
    + reflexivity.
Defined.

(** ** Interleavings *)

Lemma gate_run_head h a p :
  gate_run h (a :: p) <> None ->
  match a with
  | AAcquire => h = false /\ gate_run true p <> None
  | ARelease => h = true /\ gate_run false p <> None
  | AEnter | ALeave => h = true /\ gate_run true p <> None
  end.
Proof. destruct a, h; cbn; intros H; try congruence; auto. Qed.

Lemma is_holder_true c i : is_holder c i = true -> holder c = Some i.
Proof.
  unfold is_holder. destruct (holder c) as [j|]; [|discriminate].
  intros H. apply Nat.eqb_eq in H. congruence.
Qed.

Lemma update_same f i p : update f i p i = p.
Proof. unfold update. now rewrite Nat.eqb_refl. Qed.

Lemma update_other f i p j : j <> i -> update f i p j = f j.
Proof. intros H. unfold update. apply Nat.eqb_neq in H. now rewrite H. Qed.

Lemma disciplined_sched c c' : disciplined c -> sched c c' -> disciplined c'.
Proof.
  intros Hd Hs. destruct Hs as [c i p Hp Hh | c i p Hp | c i p Hp | c i p Hp].
  all: pose proof (Hd i) as Hi; rewrite Hp in Hi;
       apply gate_run_head in Hi; destruct Hi as [Hhold Hrest].
  all: intros j; unfold is_holder; cbn.
  all: destruct (Nat.eq_dec j i) as [->|Hne];
       [rewrite update_same|rewrite update_other by assumption].
  - rewrite Nat.eqb_refl. exact Hrest.
  - specialize (Hd j). unfold is_holder in Hd. rewrite Hh in Hd.
    assert (Hij : Nat.eqb i j = false) by (apply Nat.eqb_neq; congruence).
    rewrite Hij. exact Hd.
  - exact Hrest.
  - specialize (Hd j). apply is_holder_true in Hhold.
    unfold is_holder in Hd. rewrite Hhold in Hd.
    assert (Hij : Nat.eqb i j = false) by (apply Nat.eqb_neq; congruence).
    rewrite Hij in Hd. exact Hd.
  - apply is_holder_true in Hhold. rewrite Hhold, Nat.eqb_refl. exact Hrest.
  - apply (Hd j).
  - apply is_holder_true in Hhold. rewrite Hhold, Nat.eqb_refl. exact Hrest.
  - apply (Hd j).
Qed.

Lemma disciplined_reachable c0 c :
  disciplined c0 -> reachable c0 c -> disciplined c.
Proof.
  intros H0 Hr. induction Hr; [assumption|].
  eapply disciplined_sched; eassumption.
Qed.

Lemma disciplined_exclusive c : disciplined c -> mutual_exclusion c.
Proof.
  intros Hd i j [p Hi] [q Hj].
  pose proof (Hd i) as Di. rewrite Hi in Di. apply gate_run_head in Di as [Di _].
  pose proof (Hd j) as Dj. rewrite Hj in Dj. apply gate_run_head in Dj as [Dj _].
  apply is_holder_true in Di, Dj. congruence.
Qed.

(** Every entry point other than a blocking launch keeps the gate
    discipline. *)
Lemma gate_kept_run E ep : Keeps (gate_kept false) (run E ep).
Proof.
  pose proof (gate_kept_refl false) as Hrefl.
  pose proof (gate_kept_trans false) as Htrans.
  pose proof (gate_kept_frame false) as Hframe.
  pose proof (gate_kept_log false) as Hlog.
  assert (Henter : forall m w, True -> gate_kept false w (set_calls (calls w ++ [m]) w))
    by (intros m w _; exact (gate_kept_enter false m w)).
  pose proof (gate_kept_locked_step E) as Hstep.
  pose proof (gate_kept_locked_check E) as Hcheck.
  assert (Hsd : forall b w, gate_kept false w (set_shutting_down b w)).
  { intros b w Hl. split; [exact Hl|]. exists []. split; [|reflexivity].
    unfold added. cbn. now rewrite app_nil_r. }
  assert (Hui : forall t w, gate_kept false w (set_ui_thread t w)).
  { intros t w Hl. split; [exact Hl|]. exists []. split; [|reflexivity].
    unfold added. cbn. now rewrite app_nil_r. }
  destruct ep; cbn [run].
  - apply Keeps_step with (okm := fun _ => True); auto.
  - apply Keeps_step_ui with (okm := fun _ => True); auto.
  - apply Keeps_start with (okm := fun _ => True); auto.
  - apply Keeps_stop with (okm := fun _ => True); auto.
  - apply Keeps_shutdown with (okm := fun _ => True); auto.
  - apply Keeps_run_responsive_ui_thread with (okm := fun _ => True); auto.
  - apply Keeps_launch with (okm := fun _ => True); auto. discriminate.
Qed.

(** C2, as the code has it: every entry point of the module other than a
    launch with [blocking=True] (that is [step], [step_ui], [start],
    [stop], [shutdown], the responsive loop and a non-blocking [launch])
    calls the engine's step only while holding the gate, and has released
    the gate when it ends, however it ends.  Threads whose programs keep
    this discipline never have two step calls in progress at once,
    whatever the interleaving. *)
Theorem step_gate_discipline :
  (forall E ep w,
     step_lock w = false ->
     step_lock (snd (run E ep w)) = false /\
     exists d, added w (snd (run E ep w)) d /\ gated (actions d)) /\
  (forall c0 c,
     holder c0 = None -> (forall i, gated (pool c0 i)) ->
     reachable c0 c -> mutual_exclusion c).
Proof.
  split.
  - intros E ep w Hl. exact (gate_kept_run E ep w Hl).
  - intros c0 c Hh Hg Hr. apply disciplined_exclusive.
    apply disciplined_reachable with c0; [|exact Hr].
    intros i. unfold is_holder. rewrite Hh. rewrite (Hg i). discriminate.
Qed.

Lemma step_gate_discipline_witness :
  (exists d, added simulating (snd (run (sample_env 2 1) ep_shutdown simulating)) d
             /\ gated (actions d)) /\
  mutual_exclusion
    (mkConfig None (two_threads (actions step_events) (actions step_ui_events))).
Proof.
  destruct step_gate_discipline as [H1 H2]. split.
  - apply (H1 (sample_env 2 1) ep_shutdown simulating). vm_compute. reflexivity.
  - apply (H2 (mkConfig None (two_threads (actions step_events)
                                          (actions step_ui_events)))).
    + reflexivity.
    + intros [|[|i]]; reflexivity.
    + apply reach_refl.
Defined.

(** C2 as stated fails for a launch with [blocking=True]: its loop calls
    the engine's step without the gate, so that this call and a [step()]
    of another thread can be in progress at once. *)
Lemma blocking_launch_steps_outside_gate :
  fst blocking_run = Ret tt /\
  actions (trace (snd blocking_run))
  = [AAcquire; AEnter; ALeave; ARelease; AEnter; ALeave;
     AAcquire; AEnter; ALeave; ARelease] /\
  gate_run false (actions (trace (snd blocking_run))) = None /\
  exists c,
    reachable
      (mkConfig None (two_threads (actions (trace (snd blocking_run)))
                                  (actions step_events))) c /\
    in_engine c 0 /\ in_engine c 1 /\ ~ mutual_exclusion c.
Proof.
  assert (Ha : actions (trace (snd blocking_run))
               = [AAcquire; AEnter; ALeave; ARelease; AEnter; ALeave;
                  AAcquire; AEnter; ALeave; ARelease])
    by (vm_compute; reflexivity).
  split; [vm_compute; reflexivity|]. split; [exact Ha|].
  rewrite Ha. split; [reflexivity|].
  change (actions step_events) with [AAcquire; AEnter; ALeave; ARelease].
  pose proof (reach_refl
    (mkConfig None (two_threads
       [AAcquire; AEnter; ALeave; ARelease; AEnter; ALeave;
        AAcquire; AEnter; ALeave; ARelease]
       [AAcquire; AEnter; ALeave; ARelease]))) as R.
  eapply reach_step in R; [|eapply (sched_acquire _ 0); reflexivity].
  eapply reach_step in R; [|eapply (sched_enter _ 0); reflexivity].
  eapply reach_step in R; [|eapply (sched_leave _ 0); reflexivity].
  eapply reach_step in R; [|eapply (sched_release _ 0); reflexivity].
  eapply reach_step in R; [|eapply (sched_enter _ 0); reflexivity].
  eapply reach_step in R; [|eapply (sched_acquire _ 1); reflexivity].
  eapply reach_step in R; [|eapply (sched_enter _ 1); reflexivity].
  eexists. split; [exact R|].
  split; [eexists; reflexivity|]. split; [eexists; reflexivity|].
  intros H. specialize (H 0 1). 
  assert (Hx : 0 = 1); [|discriminate Hx].
  apply H; eexists; reflexivity.
Qed.

(** Reduces the setters and projections of a world of explicit fields. *)
Ltac flat :=
  unfold set_running, set_ui_thread, set_responsive_ui_thread, set_shutting_down,
    set_vrep_root, set_cwd, set_step_lock, set_threads, set_current, set_trace,
    set_calls;
  cbn [running _ui_thread _responsive_ui_thread _shutting_down
       _vrep_root cwd step_lock threads current trace calls].

(** ** Construction *)

Lemma init_run E w :
  __init__ E w =
  let w0 := set_shutting_down false
              (set_responsive_ui_thread None (set_ui_thread None (set_running false w))) in
  match environ E "COPPELIASIM_ROOT" with
  | None => (Raise RootUndefined, w0)
  | Some root =>
      if exists_ E root then (Ret tt, set_vrep_root root w0)
      else (Raise RootNotAPath, set_vrep_root root w0)
  end.
Proof.
  unfold __init__. cbn zeta.
  unfold bind at 1. unfold modify at 1.
  unfold bind at 1. unfold modify at 1.
  unfold bind at 1. unfold modify at 1.
  unfold bind at 1. unfold modify at 1.
  destruct (environ E "COPPELIASIM_ROOT") as [root|]; [|reflexivity].
  unfold bind, modify. destruct (exists_ E root); reflexivity.
Qed.

(** X1: [__init__] returns exactly when [COPPELIASIM_ROOT] is defined and
    names an existing path, file or directory; otherwise it raises the
    [PyRepError] of the case, an undefined variable first.  Either way the
    object is left not running and not launched, and nothing is done to the
    engine, the threads or the working directory. *)
Theorem init_outcome E w :
  let r := __init__ E w in
  (fst r = Ret tt <->
   exists root, environ E "COPPELIASIM_ROOT" = Some root /\ fs E root <> None) /\
  (environ E "COPPELIASIM_ROOT" = None ->
   fst r = Raise RootUndefined /\ _vrep_root (snd r) = _vrep_root w) /\
  (forall root, environ E "COPPELIASIM_ROOT" = Some root ->
   _vrep_root (snd r) = root /\
   (fs E root = None -> fst r = Raise RootNotAPath)) /\
  (running (snd r) = false /\ _ui_thread (snd r) = None /\
   _responsive_ui_thread (snd r) = None /\ _shutting_down (snd r) = false) /\
  (trace (snd r) = trace w /\ threads (snd r) = threads w /\
   cwd (snd r) = cwd w /\ step_lock (snd r) = step_lock w).
Proof.
  cbn zeta. rewrite init_run. cbn zeta. unfold exists_.
  destruct (environ E "COPPELIASIM_ROOT") as [root|].
  - destruct (fs E root) as [k|] eqn:Hf; cbn.
    + split.
      { split; [|reflexivity]. intros _. exists root. rewrite Hf.
        split; [reflexivity|discriminate]. }
      split; [discriminate|]. split; [|repeat split].
      intros r [= <-]. split; [reflexivity|]. rewrite Hf. discriminate.
    + split.
      { split; [discriminate|]. intros (r & [= <-] & H). contradiction. }
      split; [discriminate|]. split; [|repeat split].
      intros r [= <-]. split; reflexivity.
  - cbn. split.
    { split; [discriminate|]. intros (r & H & _). discriminate. }
    split; [split; reflexivity|]. split; [discriminate|repeat split].
Qed.

Lemma init_outcome_witness :
  fst (__init__ no_root_env boot) = Raise RootUndefined /\
  _vrep_root (snd (__init__ no_root_env boot)) = _vrep_root boot.
Proof.
  apply (proj1 (proj2 (init_outcome no_root_env boot))). reflexivity.
Defined.

(** ** The session thread *)

Lemma is_ascii_cons a s :
  is_ascii (String a s) = Nat.ltb (nat_of_ascii a) 128 && is_ascii s.
Proof. reflexivity. Qed.

Lemma is_ascii_uint d : is_ascii (NilEmpty.string_of_uint d) = true.
Proof.
  induction d; cbn [NilEmpty.string_of_uint]; try reflexivity;
    rewrite is_ascii_cons, IHd; reflexivity.
Qed.

(** [str(z)] is made of digits and a sign. *)
Lemma is_ascii_str z : is_ascii (str z) = true.
Proof.
  unfold str, NilZero.string_of_int, NilZero.string_of_uint.
  destruct (Z.to_int z) as [d|d].
  - destruct d; try reflexivity; apply (is_ascii_uint (_ _)).
  - rewrite is_ascii_cons.
    destruct d; try reflexivity; apply (is_ascii_uint (_ _)).
Qed.

Lemma run_ui_thread_unfold E s h v w :
  _run_ui_thread E s h v w =
  (chdir E (_vrep_root w) ;;
   print "Forcing CoppeliaSim verbosity to TRACEALL" ;;
   call E (simSetStringParameter (sim_stringparam_verbosity (const E))
                                 (str (sim_verbosity_traceall (const E)))) ;;
   scene <- encode_ascii s ;;
   root' <- (r <- gets _vrep_root ;; encode_ascii r) ;;
   call E (simExtLaunchUIThread "PyRep" (gui_options E h) scene root') ;;
   ret tt) w.
Proof.
  unfold _run_ui_thread, gui_options, encode_ascii.
  rewrite is_ascii_str.
  replace (is_ascii "PyRep") with true by (vm_compute; reflexivity).
  unfold bind, gets, ret. cbn.
  destruct (chdir E (_vrep_root w) w) as [[[]| e |] w1]; try reflexivity.
Qed.

Lemma run_ui_thread_ok E s h v w :
  fs E (_vrep_root w) = Some Dir ->
  is_ascii s = true -> is_ascii (_vrep_root w) = true ->
  never_raises E ->
  _run_ui_thread E s h v w =
    (Ret tt,
     set_trace (trace w ++ session_thread_events E (_vrep_root w) s h)
       (set_cwd (_vrep_root w) w)).
Proof.
  intros Hd Hs Hr Hn. rewrite run_ui_thread_unfold.
  open_world w. unfold chdir, encode_ascii. rewrite Hd, Hs.
  exec_with ltac:(rewrite ?Hn, ?Hr). f_equal. same_world.
Qed.

Lemma run_ui_thread_no_dir E s h v w :
  fs E (_vrep_root w) <> Some Dir ->
  _run_ui_thread E s h v w = (Raise (OSError (_vrep_root w)), w).
Proof.
  intros Hd. rewrite run_ui_thread_unfold. unfold bind at 1. unfold chdir.
  destruct (fs E (_vrep_root w)) as [[]|]; try reflexivity. contradiction.
Qed.

Lemma run_ui_thread_bad_scene E s h v w :
  fs E (_vrep_root w) = Some Dir -> is_ascii s = false ->
  raises E (simSetStringParameter (sim_stringparam_verbosity (const E))
                                  (str (sim_verbosity_traceall (const E))))
         (occurrences (simSetStringParameter 0 "") (trace w)) = false ->
  _run_ui_thread E s h v w =
    (Raise (UnicodeEncodeError s),
     set_trace (trace w ++ firstn 3 (session_thread_events E (_vrep_root w) s h))
       (set_cwd (_vrep_root w) w)).
Proof.
  intros Hd Hs Hn. rewrite run_ui_thread_unfold.
  open_world w. unfold chdir, encode_ascii. rewrite Hd, Hs.
  exec_with idtac.
  change (occurrences (simSetStringParameter _ _) trace0)
    with (occurrences (simSetStringParameter 0 "") trace0).
  rewrite Hn. cbn. f_equal. same_world.
Qed.

(** X2: with the installation root a directory, ASCII paths and an engine
    that does not raise, the session thread changes to the root, sets the
    engine's verbosity to TRACEALL and launches the engine's UI thread
    under the name PyRep, with the headless or the full GUI options, the
    scene it was given and the root.  Its [verbosity] argument plays no
    part: the value sent is always that of [sim_verbosity_traceall]. *)
Theorem run_ui_thread_effect E s h v w :
  fs E (_vrep_root w) = Some Dir ->
  is_ascii s = true -> is_ascii (_vrep_root w) = true ->
  never_raises E ->
  _run_ui_thread E s h v w =
    (Ret tt,
     set_trace (trace w ++ session_thread_events E (_vrep_root w) s h)
       (set_cwd (_vrep_root w) w)) /\
  engine_calls (session_thread_events E (_vrep_root w) s h) =
    [simSetStringParameter (sim_stringparam_verbosity (const E))
                           (str (sim_verbosity_traceall (const E)));
     simExtLaunchUIThread "PyRep"
       (if h then sim_gui_headless (const E) else sim_gui_all (const E))
       s (_vrep_root w)].
Proof.
  intros Hd Hs Hr Hn. split; [|reflexivity].
  apply run_ui_thread_ok; assumption.
Qed.

Lemma run_ui_thread_effect_witness :
  _run_ui_thread (sample_env 2 1) "/home/user/scene.ttt" true "none" fresh =
    (Ret tt,
     set_trace (session_thread_events (sample_env 2 1) "/opt/coppelia"
                                      "/home/user/scene.ttt" true)
       (set_cwd "/opt/coppelia" fresh)).
Proof.
  apply (run_ui_thread_effect (sample_env 2 1) "/home/user/scene.ttt" true "none" fresh).
  - vm_compute. reflexivity.
  - vm_compute. reflexivity.
  - vm_compute. reflexivity.
  - apply sample_never_raises.
Defined.

(** X3: the session thread gives up before it launches the engine's UI
    thread when the installation root is not a directory ([os.chdir]
    raises, nothing has been done) and when the scene path is not ASCII
    ([encode] raises after the directory change and the verbosity call).
    In both cases no [simExtLaunchUIThread] call is made. *)
Theorem run_ui_thread_failures E s h v w :
  (fs E (_vrep_root w) <> Some Dir ->
   _run_ui_thread E s h v w = (Raise (OSError (_vrep_root w)), w)) /\
  (fs E (_vrep_root w) = Some Dir -> is_ascii s = false ->
   raises E (simSetStringParameter (sim_stringparam_verbosity (const E))
                                   (str (sim_verbosity_traceall (const E))))
          (occurrences (simSetStringParameter 0 "") (trace w)) = false ->
   _run_ui_thread E s h v w =
     (Raise (UnicodeEncodeError s),
      set_trace (trace w ++ firstn 3 (session_thread_events E (_vrep_root w) s h))
        (set_cwd (_vrep_root w) w)) /\
   existsb is_launch_ui_call
           (firstn 3 (session_thread_events E (_vrep_root w) s h)) = false).
Proof.
  split.
  - apply run_ui_thread_no_dir.
  - intros Hd Hs Hn. split; [|reflexivity].
    apply run_ui_thread_bad_scene; assumption.
Qed.

Lemma run_ui_thread_failures_witness :
  _run_ui_thread file_root_env "" true "none" fresh
  = (Raise (OSError "/opt/coppelia"), fresh) /\
  fst (_run_ui_thread (sample_env 2 1) unicode_scene true "none" fresh)
  = Raise (UnicodeEncodeError unicode_scene).
Proof.
  split.
  - apply (proj1 (run_ui_thread_failures file_root_env "" true "none" fresh)).
    vm_compute. discriminate.
  - destruct (proj2 (run_ui_thread_failures (sample_env 2 1) unicode_scene
                       true "none" fresh)) as [H _].
    + vm_compute. reflexivity.
    + vm_compute. reflexivity.
    + reflexivity.
    + rewrite H. reflexivity.
Defined.

(** ** [start] *)

Lemma start_idle E w ui :
  _ui_thread w = Some ui -> running w = false ->
  start E w =
    (if raises E simStartSimulation (occurrences simStartSimulation (trace w))
     then (Raise (EngineError simStartSimulation),
           set_trace (trace w ++ [Call simStartSimulation])
             (set_calls (calls w ++ [m_start]) w))
     else (Ret tt,
           set_running true
             (set_trace (trace w ++ [Call simStartSimulation])
                (set_calls (calls w ++ [m_start]) w)))).
Proof.
  intros Hu Hr. open_world w. exec_with idtac.
  destruct (raises E _ _); reflexivity.
Qed.

Lemma start_running E w ui :
  _ui_thread w = Some ui -> running w = true ->
  start E w = (Ret tt, set_calls (calls w ++ [m_start]) w).
Proof. intros Hu Hr. open_world w. exec_with idtac. reflexivity. Qed.

Lemma start_returned E w w1 :
  start E w = (Ret tt, w1) ->
  running w1 = true /\ _ui_thread w1 = _ui_thread w /\ _ui_thread w <> None.
Proof.
  destruct (_ui_thread w) as [ui|] eqn:Hu.
  - destruct (running w) eqn:Hr.
    + rewrite (start_running E w ui Hu Hr). intros [= <-]. cbn.
      repeat split; auto. discriminate.
    + rewrite (start_idle E w ui Hu Hr). destruct (raises E _ _); [discriminate|].
      intros [= <-]. cbn. repeat split; auto. discriminate.
  - destruct (refused_before_launch E w Hu) as (H & _). rewrite H. discriminate.
Qed.

(** X4: on a launched session that is not simulating, [start()] makes the
    engine's start call and raises [running] only when that call has
    returned: if the call raises, [running] stays false and a later
    [start()] calls the engine again.  On a session that is simulating it
    calls nothing and changes nothing.  So a [start()] that returned
    leaves [running] true, and a [start()] after it is a no-op. *)
Theorem start_effect E w ui :
  _ui_thread w = Some ui ->
  (running w = false ->
   start E w =
     (if raises E simStartSimulation (occurrences simStartSimulation (trace w))
      then (Raise (EngineError simStartSimulation),
            set_trace (trace w ++ [Call simStartSimulation])
              (set_calls (calls w ++ [m_start]) w))
      else (Ret tt,
            set_running true
              (set_trace (trace w ++ [Call simStartSimulation])
                 (set_calls (calls w ++ [m_start]) w))))) /\
  (running w = true ->
   start E w = (Ret tt, set_calls (calls w ++ [m_start]) w)) /\
  (forall w1, start E w = (Ret tt, w1) ->
   running w1 = true /\
   start E w1 = (Ret tt, set_calls (calls w1 ++ [m_start]) w1)).
Proof.
  intros Hu. split; [|split].
  - apply start_idle with ui. exact Hu.
  - apply start_running with ui. exact Hu.
  - intros w1 H. destruct (start_returned E w w1 H) as (Hr & Hu1 & _).
    split; [exact Hr|]. apply start_running with ui; congruence.
Qed.

Lemma start_effect_witness :
  start (sample_env 2 1) launched =
    (Ret tt,
     set_running true
       (set_trace (trace launched ++ [Call simStartSimulation])
          (set_calls (calls launched ++ [m_start]) launched))) /\
  start (sample_env 2 1) simulating
  = (Ret tt, set_calls (calls simulating ++ [m_start]) simulating).
Proof.
  assert (Hu : _ui_thread launched = Some 0) by (vm_compute; reflexivity).
  assert (Hu' : _ui_thread simulating = Some 0) by (vm_compute; reflexivity).
  split.
  - rewrite (proj1 (start_effect (sample_env 2 1) launched 0 Hu)).
    + reflexivity.
    + vm_compute. reflexivity.
  - apply (proj1 (proj2 (start_effect (sample_env 2 1) simulating 0 Hu'))).
    vm_compute. reflexivity.
Defined.

(** X5: [start()] followed at once by [stop()], on a launched session
    that is not simulating, with the gate free and an engine that does not
    raise: the engine is told to start, then to stop, then stepped five
    times under the gate, and the object is as it was, [running] false
    again. *)
Theorem start_then_stop E w ui :
  _ui_thread w = Some ui -> running w = false -> step_lock w = false ->
  never_raises E ->
  (start E ;; stop E) w =
    (Ret tt,
     set_trace (trace w ++ Call simStartSimulation :: stop_events true)
       (set_calls (calls w ++ m_start :: stop_calls true) w)) /\
  engine_calls (Call simStartSimulation :: stop_events true) =
    simStartSimulation :: simStopSimulation :: repeat (simExtStep None) 5.
Proof.
  intros Hu Hr Hl Hn. split; [|reflexivity].
  unfold bind. rewrite (start_idle E w ui Hu Hr), Hn.
  rewrite (stop_stops E _ ui); auto.
  open_world w. f_equal. cbn. rewrite <- !app_assoc. reflexivity.
Qed.

Lemma start_then_stop_witness :
  (start (sample_env 2 1) ;; stop (sample_env 2 1)) launched =
    (Ret tt,
     set_trace (trace launched ++ Call simStartSimulation :: stop_events true)
       (set_calls (calls launched ++ m_start :: stop_calls true) launched)).
Proof.
  apply (start_then_stop (sample_env 2 1) launched 0).
  - vm_compute. reflexivity.
  - vm_compute. reflexivity.
  - vm_compute. reflexivity.
  - apply sample_never_raises.
Defined.

(** ** The loops, round by round *)

Lemma set_trace_nil w : set_trace (trace w ++ []) w = w.
Proof. destruct w; cbn. now rewrite app_nil_r. Qed.

Lemma set_trace_app w d1 d2 :
  set_trace (trace (set_trace (trace w ++ d1) w) ++ d2) (set_trace (trace w ++ d1) w)
  = set_trace (trace w ++ d1 ++ d2) w.
Proof. destruct w; cbn. now rewrite <- app_assoc. Qed.

Lemma exit_requested_next E tr n d :
  exit_requested_after E tr (S n) ->
  occurrences simExtGetExitRequest d = 1 ->
  exit_requested_after E (tr ++ d) n.
Proof.
  intros [Hf Ht] Hd. split.
  - intros j Hj. rewrite occurrences_app, Hd, <- Nat.add_assoc. apply Hf. lia.
  - rewrite occurrences_app, Hd, <- Nat.add_assoc. exact Ht.
Qed.

Lemma exit_requested_first E tr n :
  exit_requested_after E tr (S n) ->
  truth E simExtGetExitRequest (occurrences simExtGetExitRequest tr) = false.
Proof. intros [Hf _]. specialize (Hf 0 ltac:(lia)). now rewrite Nat.add_0_r in Hf. Qed.

Lemma exit_requested_now E tr :
  exit_requested_after E tr 0 ->
  truth E simExtGetExitRequest (occurrences simExtGetExitRequest tr) = true.
Proof. intros [_ Ht]. now rewrite Nat.add_0_r in Ht. Qed.

Lemma responsive_loop_idle E fuel :
  forall w, running w = true ->
  responsive_loop E fuel w
  = (Diverge, set_trace (trace w ++ repeat (Sleep 10) fuel) w).
Proof.
  induction fuel as [|fuel IH]; intros w Hr.
  - cbn. unfold diverge. now rewrite set_trace_nil.
  - rewrite responsive_round. cbn zeta. rewrite Hr.
    rewrite IH by exact Hr.
    change (repeat (Sleep 10) (S fuel)) with ([Sleep 10] ++ repeat (Sleep 10) fuel).
    now rewrite set_trace_app.
Qed.

Lemma responsive_loop_at E n :
  never_raises E ->
  forall fuel w, n < fuel ->
  running w = false -> step_lock w = false -> _shutting_down w = false ->
  exit_requested_after E (trace w) n ->
  responsive_loop E fuel w
  = (Ret tt,
     set_trace (trace w ++ responsive_rounds n ++ responsive_exit_events) w).
Proof.
  intros Hn. induction n as [|n IH]; intros fuel w Hlt Hr Hl Hs Hx.
  - destruct fuel; [lia|]. rewrite responsive_round. cbn zeta.
    rewrite Hr, Hl, Hs, Hn, (exit_requested_now E _ Hx). reflexivity.
  - destruct fuel; [lia|]. rewrite responsive_round. cbn zeta.
    rewrite Hr, Hl, Hs, !Hn, (exit_requested_first E _ n Hx).
    rewrite IH; auto; [|lia|].
    + change (responsive_rounds (S n))
        with (responsive_round_events ++ responsive_rounds n).
      rewrite set_trace_app, <- app_assoc. reflexivity.
    + apply (exit_requested_next E (trace w) n _ Hx). reflexivity.
Qed.

(** X6: while [running] is true the responsive loop touches neither the
    gate nor the engine: each round is a sleep and nothing else, so an
    exit request of the engine is not looked at until the simulation is
    stopped. *)
Theorem responsive_idle_while_running E fuel w :
  running w = true ->
  responsive_loop E fuel w
  = (Diverge, set_trace (trace w ++ repeat (Sleep 10) fuel) w) /\
  engine_calls (repeat (Sleep 10) fuel) = [] /\
  actions (repeat (Sleep 10) fuel) = [].
Proof.
  intros Hr. split; [apply responsive_loop_idle; exact Hr|].
  split; induction fuel; cbn; auto.
Qed.

Lemma responsive_idle_while_running_witness :
  responsive_loop (sample_env 2 1) 4 simulating
  = (Diverge, set_trace (trace simulating ++ repeat (Sleep 10) 4) simulating).
Proof.
  apply (responsive_idle_while_running (sample_env 2 1) 4 simulating).
  vm_compute. reflexivity.
Defined.

Lemma engine_calls_app d1 d2 :
  engine_calls (d1 ++ d2) = engine_calls d1 ++ engine_calls d2.
Proof. apply flat_map_app. Qed.

Lemma responsive_rounds_steps n :
  step_calls (responsive_rounds n) = repeat (simExtStep (Some false)) n.
Proof.
  induction n; [reflexivity|].
  change (responsive_rounds (S n))
    with (responsive_round_events ++ responsive_rounds n).
  unfold step_calls in *. rewrite engine_calls_app, filter_app, IHn. reflexivity.
Qed.

(** X7: with the simulation stopped, the gate free, the shutdown flag down
    and an engine that does not raise, the responsive loop makes one round
    per negative answer to its exit poll: it takes the gate, polls,
    refreshes the UI with [simExtStep(False)], releases the gate and
    sleeps.  At the first positive answer it releases the gate and leaves
    the loop without a further step.  All its steps are UI-only. *)
Theorem responsive_steps_until_exit E n fuel w :
  never_raises E -> n < fuel ->
  running w = false -> step_lock w = false -> _shutting_down w = false ->
  exit_requested_after E (trace w) n ->
  responsive_loop E fuel w
  = (Ret tt,
     set_trace (trace w ++ responsive_rounds n ++ responsive_exit_events) w) /\
  step_calls (responsive_rounds n ++ responsive_exit_events)
  = repeat (simExtStep (Some false)) n.
Proof.
  intros Hn Hlt Hr Hl Hs Hx. split.
  - apply responsive_loop_at; assumption.
  - unfold step_calls. rewrite engine_calls_app, filter_app.
    fold (step_calls (responsive_rounds n)). rewrite responsive_rounds_steps.
    cbn. apply app_nil_r.
Qed.

Lemma responsive_steps_until_exit_witness :
  responsive_loop (sample_env 2 1) 5 responsive_session
  = (Ret tt,
     set_trace (trace responsive_session
                ++ responsive_rounds 1 ++ responsive_exit_events)
       responsive_session).
Proof.
  apply (responsive_steps_until_exit (sample_env 2 1) 1 5 responsive_session).
  - apply sample_never_raises.
  - lia.
  - vm_compute. reflexivity.
  - vm_compute. reflexivity.
  - vm_compute. reflexivity.
  - split.
    + intros j Hj. assert (j = 0) as -> by lia. vm_compute. reflexivity.
    + vm_compute. reflexivity.
Defined.

(** *** The blocking loop *)

Lemma blocking_round E fuel w :
  blocking_loop E (S fuel) w =
  let n := occurrences simExtGetExitRequest (trace w) in
  let k := occurrences (simExtStep (Some true)) (trace w) in
  if raises E simExtGetExitRequest n then
    (Raise (EngineError simExtGetExitRequest),
     set_trace (trace w ++ [Call simExtGetExitRequest]) w)
  else if truth E simExtGetExitRequest n then
    (Ret tt, set_trace (trace w ++ [Call simExtGetExitRequest]) w)
  else if raises E (simExtStep (Some true)) k then
    (Raise (EngineError (simExtStep (Some true))),
     set_trace (trace w ++ blocking_round_events) w)
  else
    blocking_loop E fuel (set_trace (trace w ++ blocking_round_events) w).
Proof.
  cbn zeta. change (blocking_loop E (S fuel)) with
    (x <- call_bool E simExtGetExitRequest ;;
     if x then ret tt else call E (simExtStep (Some true)) ;; blocking_loop E fuel).
  open_world w. exec_with idtac.
  destruct (raises E simExtGetExitRequest _); exec_with idtac; [reflexivity|].
  destruct (truth E simExtGetExitRequest _); exec_with idtac; [reflexivity|].
  destruct (raises E (simExtStep (Some true)) _); exec_with idtac.
  - f_equal. same_world.
  - f_equal. same_world.
Qed.

Lemma blocking_loop_at E n :
  never_raises E ->
  forall fuel w, n < fuel ->
  exit_requested_after E (trace w) n ->
  blocking_loop E fuel w
  = (Ret tt,
     set_trace (trace w ++ blocking_rounds n ++ [Call simExtGetExitRequest]) w).
Proof.
  intros Hn. induction n as [|n IH]; intros fuel w Hlt Hx.
  - destruct fuel; [lia|]. rewrite blocking_round. cbn zeta.
    rewrite Hn, (exit_requested_now E _ Hx). reflexivity.
  - destruct fuel; [lia|]. rewrite blocking_round. cbn zeta.
    rewrite !Hn, (exit_requested_first E _ n Hx).
    rewrite IH; [|lia|].
    + change (blocking_rounds (S n))
        with (blocking_round_events ++ blocking_rounds n).
      rewrite set_trace_app, <- app_assoc. reflexivity.
    + apply (exit_requested_next E (trace w) n _ Hx). reflexivity.
Qed.

Lemma blocking_loop_never E fuel :
  never_raises E ->
  (forall n, truth E simExtGetExitRequest n = false) ->
  forall w, blocking_loop E fuel w
            = (Diverge, set_trace (trace w ++ blocking_rounds fuel) w).
Proof.
  intros Hn Hf. induction fuel as [|fuel IH]; intros w.
  - cbn. unfold diverge. now rewrite set_trace_nil.
  - rewrite blocking_round. cbn zeta. rewrite !Hn, Hf, IH.
    change (blocking_rounds (S fuel))
      with (blocking_round_events ++ blocking_rounds fuel).
    now rewrite set_trace_app.
Qed.

Lemma blocking_rounds_steps n :
  step_calls (blocking_rounds n) = repeat (simExtStep (Some true)) n.
Proof.
  induction n; [reflexivity|].
  change (blocking_rounds (S n))
    with (blocking_round_events ++ blocking_rounds n).
  unfold step_calls in *. rewrite engine_calls_app, filter_app, IHn. reflexivity.
Qed.

Lemma blocking_rounds_actions n :
  actions (blocking_rounds n) = List.concat (repeat [AEnter; ALeave] n).
Proof.
  induction n; [reflexivity|].
  change (blocking_rounds (S n))
    with (blocking_round_events ++ blocking_rounds n).
  rewrite actions_app, IHn. reflexivity.
Qed.

(** X8: the blocking loop of [launch] polls the engine's exit request and,
    for every negative answer, makes one [simExtStep(True)] call; at the
    first positive answer it ends, and while the answer stays negative it
    never ends.  It changes nothing of the object, and it never takes the
    gate: its steps are the only actions of its trace. *)
Theorem blocking_loop_steps E fuel w :
  never_raises E ->
  (forall n, n < fuel -> exit_requested_after E (trace w) n ->
   blocking_loop E fuel w
   = (Ret tt,
      set_trace (trace w ++ blocking_rounds n ++ [Call simExtGetExitRequest]) w)) /\
  ((forall n, truth E simExtGetExitRequest n = false) ->
   blocking_loop E fuel w
   = (Diverge, set_trace (trace w ++ blocking_rounds fuel) w)) /\
  (forall n,
   step_calls (blocking_rounds n) = repeat (simExtStep (Some true)) n /\
   actions (blocking_rounds n) = List.concat (repeat [AEnter; ALeave] n)).
Proof.
  intros Hn. split; [|split].
  - intros n Hlt Hx. apply blocking_loop_at; assumption.
  - intros Hf. apply blocking_loop_never; assumption.
  - intros n. split; [apply blocking_rounds_steps|apply blocking_rounds_actions].
Qed.

Lemma blocking_loop_steps_witness :
  blocking_loop (sample_env 2 1) 5 launched
  = (Ret tt,
     set_trace (trace launched ++ blocking_rounds 1 ++ [Call simExtGetExitRequest])
       launched).
Proof.
  apply (proj1 (blocking_loop_steps (sample_env 2 1) 5 launched
                  (sample_never_raises 2 1)) 1).
  - lia.
  - split.
    + intros j Hj. assert (j = 0) as -> by lia. vm_compute. reflexivity.
    + vm_compute. reflexivity.
Defined.

(** ** [shutdown] called by the responsive thread *)

Lemma shutdown_self_join E w ui rt :
  never_raises E -> step_lock w = false ->
  _ui_thread w = Some ui -> joinable ui w ->
  _responsive_ui_thread w = Some rt -> is_started rt w = true ->
  current w = Some rt ->
  shutdown E w =
    (Raise (RuntimeError "cannot join current thread"),
     set_shutting_down true
       (set_running false
          (set_trace
             (trace w ++ stop_events (running w) ++ step_ui_events
              ++ [Call simExtPostExitRequest; Call simExtSimThreadDestroy;
                  ThreadJoin ui])
             (set_calls (calls w ++ shutdown_calls (running w)) w)))).
Proof.
  intros Hn Hl Hu [Hsu Hcu] Hr Hsr Hc.
  rewrite (shutdown_unfold E w ui Hu). unfold bind at 1.
  assert (Hrt : is_current rt w = true).
  { unfold is_current. rewrite Hc. apply Nat.eqb_refl. }
  enough (Hsteps :
    shutdown_steps E ui
      (set_shutting_down true (set_calls (calls w ++ [m_shutdown]) w))
    = (Raise (RuntimeError "cannot join current thread"),
       set_shutting_down true
         (set_running false
            (set_trace
               (trace w ++ stop_events (running w) ++ step_ui_events
                ++ [Call simExtPostExitRequest; Call simExtSimThreadDestroy;
                    ThreadJoin ui])
               (set_calls (calls w ++ shutdown_calls (running w)) w)))))
    by (rewrite Hsteps; reflexivity).
  unfold shutdown_steps.
  unfold is_started, is_current in Hsu, Hcu, Hsr, Hrt.
  destruct (running w) eqn:Hrun; open_world w; flat.
  - erewrite bind_Ret_eq by (apply (stop_stops E _ ui); auto). flat.
    erewrite bind_Ret_eq
      by (rewrite step_ui_run by reflexivity; rewrite Hn; reflexivity).
    flat.
    erewrite bind_Ret_eq by (unfold call; rewrite Hn; reflexivity). flat.
    erewrite bind_Ret_eq by (unfold call; rewrite Hn; reflexivity). flat.
    erewrite bind_Ret_eq
      by (unfold join, is_started, is_current; flat; rewrite Hsu, Hcu; reflexivity).
    flat. erewrite bind_Ret_eq by reflexivity.
    unfold bind, join, is_started, is_current. flat. rewrite Hsr, Hrt. cbn.
    f_equal. same_world.
  - erewrite bind_Ret_eq by (apply (stop_idle E _ ui); auto). flat.
    erewrite bind_Ret_eq
      by (rewrite step_ui_run by reflexivity; rewrite Hn; reflexivity).
    flat.
    erewrite bind_Ret_eq by (unfold call; rewrite Hn; reflexivity). flat.
    erewrite bind_Ret_eq by (unfold call; rewrite Hn; reflexivity). flat.
    erewrite bind_Ret_eq
      by (unfold join, is_started, is_current; flat; rewrite Hsu, Hcu; reflexivity).
    flat. erewrite bind_Ret_eq by reflexivity.
    unfold bind, join, is_started, is_current. flat. rewrite Hsr, Hrt. cbn.
    f_equal. same_world.
Qed.

(** X9: when [shutdown()] is called by the responsive thread itself, as
    [_run_responsive_ui_thread] does after an exit request from the UI, it
    stops the simulation, refreshes the UI, posts the exit request, asks
    for the teardown and joins the session thread, and then fails at the
    join of the responsive thread, which is the caller: [Thread.join]
    raises [RuntimeError].  The handle stays set and the shutdown flag
    stays raised. *)
Theorem shutdown_by_responsive_thread E w ui rt :
  never_raises E -> step_lock w = false ->
  _ui_thread w = Some ui -> joinable ui w ->
  _responsive_ui_thread w = Some rt -> is_started rt w = true ->
  current w = Some rt ->
  exists w',
    shutdown E w = (Raise (RuntimeError "cannot join current thread"), w') /\
    added w w' (stop_events (running w) ++ step_ui_events
                ++ [Call simExtPostExitRequest; Call simExtSimThreadDestroy;
                    ThreadJoin ui]) /\
    _shutting_down w' = true /\ _ui_thread w' = Some ui /\
    _responsive_ui_thread w' = Some rt /\ running w' = false /\
    step_lock w' = false.
Proof.
  intros Hn Hl Hu Hj Hr Hsr Hc. eexists. split.
  - apply (shutdown_self_join E w ui rt); assumption.
  - unfold added. cbn. repeat split; assumption.
Qed.

Lemma shutdown_by_responsive_thread_witness :
  fst (shutdown (sample_env 2 1)
         (snd (responsive_loop (sample_env 2 1) 5 responsive_session)))
  = Raise (RuntimeError "cannot join current thread").
Proof.
  destruct (shutdown_by_responsive_thread (sample_env 2 1)
              (snd (responsive_loop (sample_env 2 1) 5 responsive_session)) 0 1)
    as (w' & H & _).
  - apply sample_never_raises.
  - vm_compute. reflexivity.
  - vm_compute. reflexivity.
  - split; vm_compute; reflexivity.
  - vm_compute. reflexivity.
  - vm_compute. reflexivity.
  - vm_compute. reflexivity.
  - rewrite H. reflexivity.
Defined.

(** ** The thread table *)

Lemma update_thread_last f x (l : list Thread) :
  update_thread (List.length l) f (l ++ [x]) = l ++ [f x].
Proof.
  unfold update_thread.
  assert (H : forall k,
    map (fun p => if Nat.eqb (fst p) (k + List.length l) then f (snd p) else snd p)
        (combine (seq k (List.length (l ++ [x]))) (l ++ [x]))
    = l ++ [f x]).
  { induction l as [|y l IH]; intros k; cbn.
    - rewrite Nat.add_0_r, Nat.eqb_refl. reflexivity.
    - assert (Hk : Nat.eqb k (k + S (List.length l)) = false)
        by (apply Nat.eqb_neq; lia).
      rewrite Hk. f_equal. specialize (IH (S k)).
      rewrite Nat.add_succ_r. exact IH. }
  exact (H 0).
Qed.

Lemma nth_error_last (x : Thread) l : nth_error (l ++ [x]) (List.length l) = Some x.
Proof. rewrite nth_error_app2 by lia. now rewrite Nat.sub_diag. Qed.

(** The responsive thread of [launch]: created, named by the object, made
    a daemon, and then started unless [Thread.start] is interrupted. *)
Lemma dispatch_responsive E fuel w :
  dispatch E fuel true false w
  = (try_except (Thread_start E (List.length (threads w))) is_interrupt
       (fun _ => interrupted_start E) ;;
     step E) (responsive_thread_created w).
Proof.
  unfold dispatch, interrupted_start.
  unfold bind at 1. unfold Thread_new at 1. cbn beta iota.
  unfold bind at 1. unfold modify at 1.
  unfold bind at 1. unfold set_daemon at 1, modify at 1.
  unfold responsive_thread_created. flat.
  rewrite update_thread_last. reflexivity.
Qed.

Lemma responsive_thread_start E w :
  Thread_start E (List.length (threads w)) (responsive_thread_created w)
  = match interrupt E (List.length (threads w)) with
    | Some e => (Raise e, responsive_thread_created w)
    | None => (Ret tt, responsive_thread_started w)
    end.
Proof.
  unfold Thread_start, responsive_thread_created. flat.
  rewrite nth_error_last. cbn [started target].
  destruct (interrupt E _); [reflexivity|].
  unfold bind, mark_started, log, modify, ret. flat.
  rewrite update_thread_last. reflexivity.
Qed.

(** ** Footprints of runs *)

Section Footprint.

Variable E : Env.
Variable I : World -> World -> Prop.
Variable oke : Event -> Prop.
Hypothesis I_refl : forall w, I w w.
Hypothesis I_trans : forall w1 w2 w3, I w1 w2 -> I w2 w3 -> I w1 w3.
Hypothesis I_log : forall e w, oke e -> I w (set_trace (trace w ++ [e]) w).
Hypothesis I_calls : forall l w, I w (set_calls l w).
Hypothesis I_lock : forall b w, I w (set_step_lock b w).
Hypothesis I_running : forall b w, I w (set_running b w).
Hypothesis I_sd : forall b w, I w (set_shutting_down b w).
Hypothesis I_ui : forall w, I w (set_ui_thread None w).
Hypothesis I_rui : forall t w, I w (set_responsive_ui_thread (Some t) w).
Hypothesis I_threads : forall l w, I w (set_threads l w).

Hypothesis oke_print : forall s, oke (Print s).
Hypothesis oke_sleep : forall n, oke (Sleep n).
Hypothesis oke_acquire : oke Acquire.
Hypothesis oke_release : oke Release.
Hypothesis oke_join : forall t, oke (ThreadJoin t).
Hypothesis oke_start : forall t, oke (ThreadStart t).
Hypothesis oke_step : forall a, oke (Call (simExtStep a)).
Hypothesis oke_exit : oke (Call simExtGetExitRequest).
Hypothesis oke_start_sim : oke (Call simStartSimulation).
Hypothesis oke_stop_sim : oke (Call simStopSimulation).
Hypothesis oke_post : oke (Call simExtPostExitRequest).
Hypothesis oke_destroy : oke (Call simExtSimThreadDestroy).
Hypothesis oke_poll : oke (Call simExtCanInitSimThread).
Hypothesis oke_init : oke (Call simExtSimThreadInit).
Hypothesis oke_param : forall p, oke (Call (simGetStringParameter p)).
Hypothesis oke_buffer : oke (Call simReleaseBuffer).
Hypothesis oke_tree : forall a b c, oke (Call (simGetObjectsInTree a b c)).
Hypothesis oke_name : forall h, oke (Call (simGetObjectName h)).

Lemma Fp_ret A (a : A) : Keeps I (ret a).
Proof. apply Keeps_ret, I_refl. Qed.

Lemma Fp_raise A e : Keeps I (@raise A e).
Proof. apply Keeps_raise, I_refl. Qed.

Lemma Fp_gets A (f : World -> A) : Keeps I (gets f).
Proof. apply Keeps_gets, I_refl. Qed.

Lemma Fp_bind A B (m : M A) (f : A -> M B) :
  Keeps I m -> (forall a, Keeps I (f a)) -> Keeps I (bind m f).
Proof. apply Keeps_bind, I_trans. Qed.

Lemma Fp_try_except A (m : M A) catches h :
  Keeps I m -> (forall e, Keeps I (h e)) -> Keeps I (try_except m catches h).
Proof. apply Keeps_try_except, I_trans. Qed.

Lemma Fp_try_finally A (m : M A) fin :
  Keeps I m -> Keeps I fin -> Keeps I (try_finally m fin).
Proof. apply Keeps_try_finally, I_trans. Qed.

Lemma Fp_log e : oke e -> Keeps I (log e).
Proof. intros H w. apply I_log, H. Qed.

Lemma Fp_enter m : Keeps I (enter m).
Proof. intros w. apply I_calls. Qed.

Lemma Fp_call c : oke (Call c) -> Keeps I (call E c).
Proof.
  intros H w. unfold call. destruct (raises E c _); cbn; apply I_log, H.
Qed.

Lemma Fp_call_bool c : oke (Call c) -> Keeps I (call_bool E c).
Proof.
  intros H. apply Fp_bind; [apply Fp_call, H|intros n; apply Fp_ret].
Qed.

Lemma Fp_call_buffer c : oke (Call c) -> Keeps I (call_buffer E c).
Proof.
  intros H. apply Fp_bind; [apply Fp_call, H|intros n; apply Fp_ret].
Qed.

Lemma Fp_call_handles c : oke (Call c) -> Keeps I (call_handles E c).
Proof.
  intros H. apply Fp_bind; [apply Fp_call, H|intros n; apply Fp_ret].
Qed.

Lemma Fp_with_step_lock A (body : M A) :
  Keeps I body -> Keeps I (with_step_lock body).
Proof.
  intros Hb. unfold with_step_lock. apply Fp_bind.
  - intros w. unfold acquire. destruct (step_lock w); [apply I_refl|].
    cbn. eapply I_trans; [apply (I_lock true)|].
    apply (I_log Acquire (set_step_lock true w) oke_acquire).
  - intros _. apply Fp_try_finally; [exact Hb|].
    intros w. unfold release. cbn. eapply I_trans; [apply (I_lock false)|].
    apply (I_log Release (set_step_lock false w) oke_release).
Qed.

Lemma Fp_join t : Keeps I (join t).
Proof.
  intros w. unfold join.
  destruct (negb (is_started t w)); [apply I_refl|].
  destruct (is_current t w); [apply I_refl|].
  apply Fp_log, oke_join.
Qed.

Lemma Fp_locked_step a :
  Keeps I (with_step_lock (call E (simExtStep a) ;; ret tt)).
Proof.
  apply Fp_with_step_lock, Fp_bind; [apply Fp_call, oke_step|].
  intros _. apply Fp_ret.
Qed.

Lemma Fp_step : Keeps I (step E).
Proof. apply Fp_bind; [apply Fp_enter|intros _; apply Fp_locked_step]. Qed.

Lemma Fp_step_ui : Keeps I (step_ui E).
Proof. apply Fp_bind; [apply Fp_enter|intros _; apply Fp_locked_step]. Qed.

Lemma Fp_start : Keeps I (start E).
Proof.
  unfold start. apply Fp_bind; [apply Fp_enter|intros _].
  apply Fp_bind; [apply Fp_gets|intros [t|]]; [|apply Fp_raise].
  apply Fp_bind; [apply Fp_gets|intros []]; cbn; [apply Fp_ret|].
  apply Fp_bind; [apply Fp_call, oke_start_sim|intros _].
  intros w. apply I_running.
Qed.

Lemma Fp_stop : Keeps I (stop E).
Proof.
  unfold stop. apply Fp_bind; [apply Fp_enter|intros _].
  apply Fp_bind; [apply Fp_gets|intros [t|]]; [|apply Fp_raise].
  apply Fp_bind; [apply Fp_gets|intros []]; cbn [negb]; [|apply Fp_ret].
  apply Fp_bind; [apply Fp_call, oke_stop_sim|intros _].
  apply Fp_bind; [intros w; apply I_running|intros _].
  apply (Keeps_for_range I I_refl I_trans 5), Fp_step.
Qed.

Lemma Fp_shutdown_steps ui : Keeps I (shutdown_steps E ui).
Proof.
  unfold shutdown_steps.
  apply Fp_bind; [apply Fp_stop|intros _].
  apply Fp_bind; [apply Fp_step_ui|intros _].
  apply Fp_bind; [apply Fp_call, oke_post|intros _].
  apply Fp_bind; [apply Fp_call, oke_destroy|intros _].
  apply Fp_bind; [apply Fp_join|intros _].
  apply Fp_bind; [apply Fp_gets|intros r].
  apply Fp_bind; [|intros _; apply Fp_log, oke_sleep].
  destruct r; [apply Fp_join|apply Fp_ret].
Qed.

Lemma Fp_shutdown : Keeps I (shutdown E).
Proof.
  intros w. destruct (_ui_thread w) as [ui|] eqn:Hu.
  - rewrite (shutdown_unfold E w ui Hu).
    eapply I_trans; [apply (I_calls (calls w ++ [m_shutdown]))|].
    eapply I_trans; [apply (I_sd true)|].
    revert Hu. generalize (set_shutting_down true (set_calls (calls w ++ [m_shutdown]) w)).
    intros w0 _. revert w0.
    change (Keeps I (shutdown_steps E ui;;
                     modify (set_ui_thread None);; modify (set_shutting_down false))).
    apply Fp_bind; [apply Fp_shutdown_steps|intros _].
    apply Fp_bind; [intros w0; apply I_ui|intros _]. intros w0. apply I_sd.
  - destruct (refused_before_launch E w Hu) as (_ & _ & H). rewrite H.
    apply I_calls.
Qed.

Lemma Fp_responsive_loop fuel : Keeps I (responsive_loop E fuel).
Proof.
  induction fuel; cbn; [apply Keeps_diverge, I_refl|].
  apply Fp_bind; [apply Fp_gets|intros r].
  apply Fp_bind.
  { destruct r; cbn; [apply Fp_ret|].
    apply Fp_with_step_lock. unfold responsive_check.
    apply Fp_bind; [apply Fp_gets|intros []]; [apply Fp_ret|].
    apply Fp_bind; [apply Fp_call_bool, oke_exit|intros []]; [apply Fp_ret|].
    apply Fp_bind; [apply Fp_call, oke_step|intros _; apply Fp_ret]. }
  intros []; [apply Fp_ret|].
  apply Fp_bind; [apply Fp_log, oke_sleep|intros _; exact IHfuel].
Qed.

Lemma Fp_run_responsive_ui_thread fuel :
  Keeps I (_run_responsive_ui_thread E fuel).
Proof.
  unfold _run_responsive_ui_thread.
  apply Fp_bind; [apply Fp_responsive_loop|intros _].
  apply Fp_bind; [apply Fp_gets|intros []]; cbn; [apply Fp_ret|apply Fp_shutdown].
Qed.

Lemma Fp_wait_ready fuel : Keeps I (wait_ready E fuel).
Proof.
  induction fuel; cbn; [apply Keeps_diverge, I_refl|].
  apply Fp_bind; [apply Fp_call_bool, oke_poll|intros []]; [apply Fp_ret|].
  apply Fp_bind; [apply Fp_log, oke_sleep|intros _; exact IHfuel].
Qed.

Lemma Fp_print s : Keeps I (print s).
Proof. apply Fp_log, oke_print. Qed.

Lemma Fp_preliminary_step : Keeps I (preliminary_step E).
Proof.
  unfold preliminary_step.
  apply Fp_bind; [apply Fp_print|intros _].
  apply Fp_try_except; [|intros e; apply Fp_print].
  apply Fp_bind; [apply Fp_locked_step|intros _].
  apply Fp_bind; [apply Fp_print|intros _; apply Fp_log, oke_sleep].
Qed.

Lemma Fp_decode_utf8 b : Keeps I (decode_utf8 b).
Proof.
  unfold decode_utf8. destruct (utf8_points _); [apply Fp_ret|apply Fp_raise].
Qed.

Lemma Fp_report_scene_name s : Keeps I (report_scene_name E s).
Proof.
  unfold report_scene_name.
  apply Fp_try_except; [|intros e; apply Fp_print].
  apply Fp_bind; [apply Fp_call_buffer, oke_param|intros p].
  destruct p; [|apply Fp_print].
  apply Fp_bind; [apply Fp_decode_utf8|intros name].
  apply Fp_bind; [apply Fp_print|intros _].
  apply Fp_bind; [apply Fp_call, oke_buffer|intros _].
  destruct (_ && _); [apply Fp_print|apply Fp_ret].
Qed.

Lemma Fp_list_scene_objects : Keeps I (list_scene_objects E).
Proof.
  unfold list_scene_objects.
  apply Fp_try_except.
  2:{ intros e. apply Fp_bind; [apply Fp_print|intros _; apply Fp_print]. }
  apply Fp_bind; [apply Fp_call_handles, oke_tree|intros hs].
  apply Fp_bind; [|intros _; apply Fp_print].
  destruct hs as [[|h l]|]; try apply Fp_print.
  apply Fp_bind; [apply Fp_print|intros _].
  apply Fp_bind.
  { apply (Keeps_for_each I I_refl I_trans). intros x.
    apply Fp_bind; [apply Fp_call_buffer, oke_name|intros p].
    destruct p; [|apply Fp_ret].
    apply Fp_try_finally.
    { apply Fp_bind; [apply Fp_decode_utf8|intros _; apply Fp_ret]. }
    apply Fp_bind; [apply Fp_call, oke_buffer|intros _; apply Fp_ret]. }
  intros _.
  apply Fp_bind; [apply Fp_call, oke_buffer|intros _; apply Fp_ret].
Qed.

Lemma Fp_final_report b : Keeps I (final_report E b).
Proof.
  unfold final_report. destruct (negb b); [|apply Fp_ret].
  apply Fp_try_except; [|intros e; apply Fp_print].
  apply Fp_bind; [apply Fp_call_buffer, oke_param|intros p].
  destruct p; [|apply Fp_print].
  apply Fp_bind; [apply Fp_decode_utf8|intros _].
  apply Fp_bind; [apply Fp_call, oke_buffer|intros _; apply Fp_print].
Qed.

Lemma Fp_blocking_loop fuel : Keeps I (blocking_loop E fuel).
Proof.
  induction fuel; cbn; [apply Keeps_diverge, I_refl|].
  apply Fp_bind; [apply Fp_call_bool, oke_exit|intros []]; [apply Fp_ret|].
  apply Fp_bind; [apply Fp_call, oke_step|intros _; exact IHfuel].
Qed.

Lemma Fp_interrupted_start : Keeps I (interrupted_start E).
Proof.
  unfold interrupted_start.
  apply Fp_bind; [apply Fp_gets|intros sd].
  apply Fp_bind; [|intros _; apply Fp_raise].
  destruct sd; cbn; [apply Fp_ret|apply Fp_shutdown].
Qed.

Lemma Fp_dispatch fuel responsive_ui blocking :
  Keeps I (dispatch E fuel responsive_ui blocking).
Proof.
  destruct blocking.
  { unfold dispatch.
    apply Fp_bind; [apply Fp_blocking_loop|intros _; apply Fp_shutdown]. }
  destruct responsive_ui; [|apply Fp_step].
  intros w. rewrite dispatch_responsive. unfold bind, try_except.
  rewrite responsive_thread_start.
  assert (Hc : I w (responsive_thread_created w)).
  { unfold responsive_thread_created.
    eapply I_trans; [apply I_rui|apply I_threads]. }
  destruct (interrupt E _) as [e|].
  - destruct (is_interrupt e); [|exact Hc].
    pose proof (Fp_interrupted_start (responsive_thread_created w)) as Hi.
    destruct (interrupted_start E _) as [[[]| e' |] w2]; cbn in *.
    + eapply I_trans; [exact Hc|]. eapply I_trans; [exact Hi|]. apply Fp_step.
    + eapply I_trans; eassumption.
    + eapply I_trans; eassumption.
  - eapply I_trans; [|apply Fp_step].
    unfold responsive_thread_started.
    eapply I_trans; [apply I_rui|]. eapply I_trans; [apply I_threads|].
    apply (I_log (ThreadStart (List.length (threads w)))
                 (set_threads (threads w ++ [mkThread run_responsive_ui_thread true true])
                    (set_responsive_ui_thread (Some (List.length (threads w))) w))).
    apply oke_start.
Qed.

Lemma Fp_session_after_init fuel s responsive_ui blocking :
  Keeps I (session_after_init E fuel s responsive_ui blocking).
Proof.
  unfold session_after_init.
  apply Fp_bind; [apply Fp_log, oke_sleep|intros _].
  apply Fp_bind; [apply Fp_preliminary_step|intros _].
  apply Fp_bind; [apply Fp_print|intros _].
  apply Fp_bind; [apply Fp_print|intros _].
  apply Fp_bind; [apply Fp_print|intros _].
  apply Fp_bind; [apply Fp_report_scene_name|intros _].
  apply Fp_bind; [apply Fp_print|intros _].
  apply Fp_bind; [apply Fp_list_scene_objects|intros _].
  apply Fp_bind; [apply Fp_dispatch|intros _].
  apply Fp_final_report.
Qed.

Lemma Fp_launch_session fuel s responsive_ui blocking :
  Keeps I (launch_session E fuel s responsive_ui blocking).
Proof.
  unfold launch_session.
  apply Fp_bind; [apply Fp_wait_ready|intros _].
  apply Fp_bind; [apply Fp_call, oke_init|intros _].
  apply Fp_session_after_init.
Qed.

End Footprint.

(** ** What the lifecycle methods leave alone *)

Lemma adds_only_refl ok w : adds_only ok w w.
Proof. exists []. split; [|reflexivity]. unfold added. now rewrite app_nil_r. Qed.

Lemma adds_only_trans ok w1 w2 w3 :
  adds_only ok w1 w2 -> adds_only ok w2 w3 -> adds_only ok w1 w3.
Proof.
  intros (d1 & H1 & F1) (d2 & H2 & F2). exists (d1 ++ d2). split.
  - unfold added in *. now rewrite H2, H1, app_assoc.
  - now rewrite forallb_app, F1, F2.
Qed.

Lemma adds_only_log (ok : Event -> bool) e w :
  ok e = true -> adds_only ok w (set_trace (trace w ++ [e]) w).
Proof. intros H. exists [e]. split; [reflexivity|]. cbn. now rewrite H. Qed.

Lemma adds_only_same ok w w' : trace w' = trace w -> adds_only ok w w'.
Proof.
  intros H. exists []. split; [|reflexivity]. unfold added. now rewrite H, app_nil_r.
Qed.

Lemma lifecycle_footprint_refl w : lifecycle_footprint w w.
Proof. split; [repeat split|apply adds_only_refl]. Qed.

Lemma lifecycle_footprint_trans w1 w2 w3 :
  lifecycle_footprint w1 w2 -> lifecycle_footprint w2 w3 -> lifecycle_footprint w1 w3.
Proof.
  intros [(A1 & B1 & C1 & D1 & E1) F1] [(A2 & B2 & C2 & D2 & E2) F2]. split.
  - repeat split; congruence.
  - eapply adds_only_trans; eassumption.
Qed.

Lemma lifecycle_footprint_log e w :
  lifecycle_event e = true -> lifecycle_footprint w (set_trace (trace w ++ [e]) w).
Proof. intros H. split; [repeat split|apply adds_only_log, H]. Qed.

Lemma lifecycle_footprint_field w w' :
  process_kept w w' -> trace w' = trace w -> lifecycle_footprint w w'.
Proof. intros H Ht. split; [exact H|apply adds_only_same, Ht]. Qed.

(** Instantiates the rules of footprints for [lifecycle_footprint]. *)
Ltac lifecycle_rule lem :=
  apply lem with (oke := fun e => lifecycle_event e = true);
  try (intros; reflexivity);
  [ apply lifecycle_footprint_refl
  | apply lifecycle_footprint_trans
  | intros e w H; apply lifecycle_footprint_log, H
  | .. ];
  try (intros; apply lifecycle_footprint_field; repeat split).

Lemma lifecycle_footprint_shutdown E : Keeps lifecycle_footprint (shutdown E).
Proof. lifecycle_rule Fp_shutdown. Qed.

(** X10: [step], [step_ui], [start], [stop], [shutdown] and the responsive
    thread, however they end, leave the working directory, the
    installation root and the thread table as they are: they create and
    start no thread, and [shutdown] does not clear the handle of the
    responsive thread.  Besides gate operations, sleeps and joins, all
    they add to the trace are calls of the engine's step, start, stop,
    exit-request poll, exit-request post and teardown. *)
Theorem lifecycle_methods_footprint E w :
  lifecycle_footprint w (snd (step E w)) /\
  lifecycle_footprint w (snd (step_ui E w)) /\
  lifecycle_footprint w (snd (start E w)) /\
  lifecycle_footprint w (snd (stop E w)) /\
  lifecycle_footprint w (snd (shutdown E w)) /\
  (forall fuel, lifecycle_footprint w (snd (_run_responsive_ui_thread E fuel w))).
Proof.
  revert w.
  assert (H1 : Keeps lifecycle_footprint (step E)) by lifecycle_rule Fp_step.
  assert (H2 : Keeps lifecycle_footprint (step_ui E)) by lifecycle_rule Fp_step_ui.
  assert (H3 : Keeps lifecycle_footprint (start E)) by lifecycle_rule Fp_start.
  assert (H4 : Keeps lifecycle_footprint (stop E)) by lifecycle_rule Fp_stop.
  pose proof (lifecycle_footprint_shutdown E) as H5.
  assert (H6 : forall fuel,
             Keeps lifecycle_footprint (_run_responsive_ui_thread E fuel))
    by (intros fuel; lifecycle_rule Fp_run_responsive_ui_thread).
  intros w. split; [apply H1|]. split; [apply H2|]. split; [apply H3|].
  split; [apply H4|]. split; [apply H5|]. intros fuel. apply H6.
Qed.

Lemma lifecycle_methods_footprint_witness :
  process_kept launched (snd (shutdown (sample_env 2 1) launched)) /\
  process_kept launched (snd (start (sample_env 2 1) launched)).
Proof.
  pose proof (lifecycle_methods_footprint (sample_env 2 1) launched)
    as (_ & _ & [H3 _] & _ & [H5 _] & _).
  split; [exact H5|exact H3].
Defined.

(** ** The diagnostic blocks of [launch] *)

Lemma lof_of_logs_only A (m : M A) : logs_only m -> logs_or_fails m.
Proof.
  intros H w Hl. destruct (H w Hl) as (a & d & Hm).
  exists (Ret a), d. split; [exact Hm|exact I].
Qed.

Lemma lo_ret A (a : A) : logs_only (ret a).
Proof. intros w _. exists a, []. unfold ret. now rewrite set_trace_nil. Qed.

Lemma lo_log e : logs_only (log e).
Proof. intros w _. exists tt, [e]. reflexivity. Qed.

Lemma lo_bind A B (m : M A) (f : A -> M B) :
  logs_only m -> (forall a, logs_only (f a)) -> logs_only (bind m f).
Proof.
  intros Hm Hf w Hl. destruct (Hm w Hl) as (a & d & Ha).
  destruct (Hf a (set_trace (trace w ++ d) w) Hl) as (b & d' & Hb).
  exists b, (d ++ d'). unfold bind. rewrite Ha, Hb. now rewrite set_trace_app.
Qed.

Lemma lof_raise A e : is_Exception e = true -> logs_or_fails (@raise A e).
Proof.
  intros He w _. exists (Raise e), []. unfold raise. rewrite set_trace_nil. auto.
Qed.

Lemma lof_bind A B (m : M A) (f : A -> M B) :
  logs_or_fails m -> (forall a, logs_or_fails (f a)) -> logs_or_fails (bind m f).
Proof.
  intros Hm Hf w Hl. destruct (Hm w Hl) as (o & d & Ho & Hk).
  unfold bind. rewrite Ho. destruct o as [a| e |]; [|exists (Raise e), d; auto|tauto].
  destruct (Hf a (set_trace (trace w ++ d) w) Hl) as (o' & d' & Ho' & Hk').
  exists o', (d ++ d'). rewrite Ho'. now rewrite set_trace_app.
Qed.

Lemma lof_call E c : logs_or_fails (call E c).
Proof.
  intros w _. unfold call. destruct (raises E c _).
  - exists (Raise (EngineError c)), [Call c]. auto.
  - eexists (Ret _), [Call c]. auto.
Qed.

Lemma lof_call_buffer E c : logs_or_fails (call_buffer E c).
Proof.
  apply lof_bind; [apply lof_call|intros n; apply lof_of_logs_only, lo_ret].
Qed.

Lemma lof_call_handles E c : logs_or_fails (call_handles E c).
Proof.
  apply lof_bind; [apply lof_call|intros n; apply lof_of_logs_only, lo_ret].
Qed.

Lemma lof_decode_utf8 b : logs_or_fails (decode_utf8 b).
Proof.
  unfold decode_utf8. destruct (utf8_points _).
  - apply lof_of_logs_only, lo_ret.
  - apply lof_raise. reflexivity.
Qed.

Lemma lof_try_finally A (m : M A) fin :
  logs_or_fails m -> logs_or_fails fin -> logs_or_fails (try_finally m fin).
Proof.
  intros Hm Hf w Hl. destruct (Hm w Hl) as (o & d & Ho & Hk).
  unfold try_finally. rewrite Ho.
  destruct (Hf (set_trace (trace w ++ d) w) Hl) as (o' & d' & Ho' & Hk').
  rewrite set_trace_app in Ho'.
  destruct o as [a| e |]; [| |tauto]; rewrite Ho';
    (destruct o' as [[]| e' |]; [|exists (Raise e'), (d ++ d'); auto|tauto]).
  - exists (Ret a), (d ++ d'). auto.
  - exists (Raise e), (d ++ d'). auto.
Qed.

Lemma lof_for_each A (l : list A) body :
  (forall x, logs_or_fails (body x)) -> logs_or_fails (for_each l body).
Proof.
  intros Hb. induction l as [|x l IH]; cbn.
  - apply lof_of_logs_only, lo_ret.
  - apply lof_bind; [apply Hb|intros _; exact IH].
Qed.

(** A step under the gate: the gate is released whether or not the engine
    raises. *)
Lemma lof_locked_step E a :
  logs_or_fails (with_step_lock (call E (simExtStep a) ;; ret tt)).
Proof.
  intros w Hl. open_world w. exec_with idtac.
  destruct (raises E _ _); cbn.
  - exists (Raise (EngineError (simExtStep a))), [Acquire; Call (simExtStep a); Release].
    split; [f_equal; same_world|reflexivity].
  - exists (Ret tt), [Acquire; Call (simExtStep a); Release].
    split; [f_equal; same_world|exact I].
Qed.

Lemma lo_try_except A (m : M A) h :
  logs_or_fails m -> (forall e, logs_only (h e)) ->
  logs_only (try_except m is_Exception h).
Proof.
  intros Hm Hh w Hl. destruct (Hm w Hl) as (o & d & Ho & Hk).
  unfold try_except. rewrite Ho. destruct o as [a| e |]; [| |tauto].
  - exists a, d. reflexivity.
  - rewrite Hk. destruct (Hh e (set_trace (trace w ++ d) w) Hl) as (b & d' & Hb).
    exists b, (d ++ d'). rewrite Hb. now rewrite set_trace_app.
Qed.

Lemma lo_preliminary_step E : logs_only (preliminary_step E).
Proof.
  unfold preliminary_step. apply lo_bind; [apply lo_log|intros _].
  apply lo_try_except; [|intros e; apply lo_log].
  apply lof_bind; [apply lof_locked_step|intros _].
  apply lof_of_logs_only, lo_bind; [apply lo_log|intros _; apply lo_log].
Qed.

Lemma lo_report_scene_name E s : logs_only (report_scene_name E s).
Proof.
  unfold report_scene_name.
  apply lo_try_except; [|intros e; apply lo_log].
  apply lof_bind; [apply lof_call_buffer|intros p].
  destruct p; [|apply lof_of_logs_only, lo_log].
  apply lof_bind; [apply lof_decode_utf8|intros name].
  apply lof_bind; [apply lof_of_logs_only, lo_log|intros _].
  apply lof_bind; [apply lof_call|intros _].
  destruct (_ && _); apply lof_of_logs_only; [apply lo_log|apply lo_ret].
Qed.

Lemma lo_list_scene_objects E : logs_only (list_scene_objects E).
Proof.
  unfold list_scene_objects.
  apply lo_try_except.
  2:{ intros e. apply lo_bind; [apply lo_log|intros _; apply lo_log]. }
  apply lof_bind; [apply lof_call_handles|intros hs].
  apply lof_bind; [|intros _; apply lof_of_logs_only, lo_log].
  destruct hs as [[|h l]|]; try apply lof_of_logs_only, lo_log.
  apply lof_bind; [apply lof_of_logs_only, lo_log|intros _].
  apply lof_bind.
  { apply lof_for_each. intros x.
    apply lof_bind; [apply lof_call_buffer|intros p].
    destruct p; [|apply lof_of_logs_only, lo_ret].
    apply lof_try_finally.
    { apply lof_bind; [apply lof_decode_utf8|intros _; apply lof_of_logs_only, lo_ret]. }
    apply lof_bind; [apply lof_call|intros _; apply lof_of_logs_only, lo_ret]. }
  intros _.
  apply lof_bind; [apply lof_call|intros _; apply lof_of_logs_only, lo_ret].
Qed.

Lemma lo_final_report E b : logs_only (final_report E b).
Proof.
  unfold final_report. destruct (negb b); [|apply lo_ret].
  apply lo_try_except; [|intros e; apply lo_log].
  apply lof_bind; [apply lof_call_buffer|intros p].
  destruct p; [|apply lof_of_logs_only, lo_log].
  apply lof_bind; [apply lof_decode_utf8|intros _].
  apply lof_bind; [apply lof_call|intros _; apply lof_of_logs_only, lo_log].
Qed.

(** X11: the diagnostic blocks of [launch] (the preliminary step, the
    report of the scene name, the listing of the scene objects and the
    final report) swallow every exception of the engine.  Started with
    the gate free they always return normally, whatever the engine
    answers and whichever of its calls raise; they leave the gate free
    and change nothing of the object or the process: all they do is add
    to the trace. *)
Theorem launch_diagnostics_never_raise E abs_scene_file blocking :
  logs_only (preliminary_step E) /\
  logs_only (report_scene_name E abs_scene_file) /\
  logs_only (list_scene_objects E) /\
  logs_only (final_report E blocking).
Proof.
  split; [apply lo_preliminary_step|].
  split; [apply lo_report_scene_name|].
  split; [apply lo_list_scene_objects|apply lo_final_report].
Qed.

Lemma launch_diagnostics_never_raise_witness :
  (exists a d, preliminary_step failing_env launched
               = (Ret a, set_trace (trace launched ++ d) launched)) /\
  (exists a d, list_scene_objects (sample_env 2 1) launched
               = (Ret a, set_trace (trace launched ++ d) launched)).
Proof.
  split.
  - apply (proj1 (launch_diagnostics_never_raise failing_env "" false)).
    vm_compute. reflexivity.
  - apply (proj1 (proj2 (proj2
             (launch_diagnostics_never_raise (sample_env 2 1) "" false)))).
    vm_compute. reflexivity.
Defined.

(** ** [launch], from the start of the session thread on *)

Lemma session_footprint_refl w : session_footprint w w.
Proof. split; [reflexivity|]. split; [reflexivity|apply adds_only_refl]. Qed.

Lemma session_footprint_trans w1 w2 w3 :
  session_footprint w1 w2 -> session_footprint w2 w3 -> session_footprint w1 w3.
Proof.
  intros (A1 & B1 & F1) (A2 & B2 & F2). split; [congruence|]. split; [congruence|].
  eapply adds_only_trans; eassumption.
Qed.

Lemma session_footprint_log e w :
  session_event e = true -> session_footprint w (set_trace (trace w ++ [e]) w).
Proof.
  intros H. split; [reflexivity|]. split; [reflexivity|apply adds_only_log, H].
Qed.

Lemma session_footprint_field w w' :
  cwd w' = cwd w -> _vrep_root w' = _vrep_root w -> trace w' = trace w ->
  session_footprint w w'.
Proof. intros Hc Hr Ht. split; [exact Hc|]. split; [exact Hr|apply adds_only_same, Ht]. Qed.

Ltac session_rule lem :=
  apply lem with (oke := fun e => session_event e = true);
  try (intros; reflexivity);
  [ apply session_footprint_refl
  | apply session_footprint_trans
  | intros e w H; apply session_footprint_log, H
  | .. ];
  try (intros; apply session_footprint_field; reflexivity).

Lemma session_footprint_launch_session E fuel abs r b :
  Keeps session_footprint (launch_session E fuel abs r b).
Proof. session_rule Fp_launch_session. Qed.

Lemma session_events_no_launch_ui d :
  forallb session_event d = true -> existsb is_launch_ui_call d = false.
Proof.
  induction d as [|e d IH]; [reflexivity|]. cbn. intros H.
  apply andb_true_iff in H as [He Hd]. rewrite (IH Hd), orb_false_r.
  destruct e as [| | | | | | |c]; try reflexivity. destruct c; try reflexivity; discriminate.
Qed.

Lemma check_scene_file_path E s w :
  scene_ok E w s ->
  exists msg,
    check_scene_file E s w
    = (Ret (scene_path E w s), set_trace (trace w ++ [Print msg]) w).
Proof.
  intros Hs. unfold check_scene_file, scene_path, bind, gets, print, log, modify, ret.
  destruct Hs as [-> | Hf].
  - cbn. eexists. reflexivity.
  - rewrite Hf, andb_false_r. destruct (Nat.eqb _ _); eexists; reflexivity.
Qed.

(** With an acceptable scene file and an undisturbed [Thread.start],
    [launch] is the run of the session thread, then the rest of the
    launch in the thread that called it. *)
Lemma launch_prefix E fuel s h r b v w :
  scene_ok E w s -> interrupt E (List.length (threads w)) = None ->
  exists msg,
    launch E fuel s h r b v w
    = (launch_session E fuel (scene_path E w s) r b ;; chdir E (cwd w))
        (set_current (current w)
           (snd (_run_ui_thread E (scene_path E w s) h v
                   (session_started w (scene_path E w s) h v msg)))).
Proof.
  intros Hs Hi.
  destruct (check_scene_file_path E s (set_calls (calls w ++ [m_launch]) w) Hs)
    as [msg Hc].
  exists msg. unfold launch.
  unfold bind at 1. unfold enter at 1, modify at 1.
  unfold bind at 1. rewrite Hc.
  change (scene_path E (set_calls (calls w ++ [m_launch]) w) s)
    with (scene_path E w s).
  generalize (scene_path E w s) as abs. intros abs. clear Hc Hs.
  cbn beta iota. flat.
  unfold bind at 1. unfold print at 1, log at 1, modify at 1. cbn beta iota. flat.
  unfold bind at 1. unfold gets at 1. cbn beta iota. flat.
  unfold bind at 1. unfold Thread_new at 1. cbn beta iota. flat.
  unfold bind at 1. unfold modify at 1. cbn beta iota. flat.
  unfold bind at 1. unfold set_daemon at 1, modify at 1. cbn beta iota. flat.
  rewrite update_thread_last. cbn [started target daemon].
  unfold bind at 1. unfold Thread_start at 1. cbn beta iota. flat.
  rewrite nth_error_last. cbn [started target daemon].
  rewrite Hi. unfold bind at 1. unfold mark_started at 1, modify at 1.
  cbn beta iota. flat.
  rewrite update_thread_last. cbn [started target daemon].
  unfold bind at 1. unfold log at 1, modify at 1. cbn beta iota. flat.
  unfold run_as, session_started. flat.
  rewrite <- !app_assoc. cbn [app].
  destruct (_run_ui_thread E _ h v _) as [o w1]. reflexivity.
Qed.

(** The session thread writes the working directory and the trace,
    nothing else. *)
Lemma run_ui_thread_object E s h v w :
  snd (_run_ui_thread E s h v w)
  = set_cwd (cwd (snd (_run_ui_thread E s h v w)))
      (set_trace (trace (snd (_run_ui_thread E s h v w))) w).
Proof.
  open_world w. unfold _run_ui_thread, chdir, encode_ascii.
  exec_with idtac.
  repeat (match goal with
          | |- context [match fs ?E ?p with _ => _ end] =>
              destruct (fs E p) as [[]|]
          | |- context [if is_ascii ?s then _ else _] => destruct (is_ascii s)
          | |- context [raises ?E ?c ?n] => destruct (raises E c n)
          end; exec_with idtac).
  all: reflexivity.
Qed.

Lemma run_ui_thread_cwd E s h v w :
  cwd (snd (_run_ui_thread E s h v w))
  = match fs E (_vrep_root w) with
    | Some Dir => _vrep_root w
    | _ => cwd w
    end.
Proof.
  open_world w. unfold _run_ui_thread, chdir, encode_ascii.
  exec_with idtac.
  repeat (match goal with
          | |- context [match fs ?E ?p with _ => _ end] =>
              destruct (fs E p) as [[]|]
          | |- context [if is_ascii ?s then _ else _] => destruct (is_ascii s)
          | |- context [raises ?E ?c ?n] => destruct (raises E c n)
          end; exec_with idtac).
  all: reflexivity.
Qed.

Lemma session_thread_calls_no_poll d :
  session_thread_calls d -> occurrences simExtCanInitSimThread d = 0.
Proof.
  intros Hd. unfold occurrences. induction d as [|e d IH]; [reflexivity|].
  cbn. assert (Hd' : session_thread_calls d).
  { intros c Hc. apply Hd. right. exact Hc. }
  destruct e; cbn; auto.
  specialize (Hd c (or_introl eq_refl)).
  destruct c; cbn in *; auto; lia.
Qed.

(** The world in which [launch] goes on after the start of the session
    thread. *)
Lemma launch_after_start E fuel s h r b v w :
  scene_ok E w s -> interrupt E (List.length (threads w)) = None ->
  exists msg d w7,
    launch E fuel s h r b v w
    = (launch_session E fuel (scene_path E w s) r b ;; chdir E (cwd w)) w7 /\
    w7 = set_current (current w)
           (set_cwd (cwd w7)
              (set_trace (trace w ++ before_poll msg (List.length (threads w)) d)
                 (session_started w (scene_path E w s) h v msg))) /\
    cwd w7 = match fs E (_vrep_root w) with
             | Some Dir => _vrep_root w
             | _ => cwd w
             end /\
    session_thread_calls d /\
    (fs E (_vrep_root w) <> Some Dir -> d = []) /\
    (fs E (_vrep_root w) = Some Dir ->
     is_ascii (scene_path E w s) = true -> is_ascii (_vrep_root w) = true ->
     never_raises E ->
     d = session_thread_events E (_vrep_root w) (scene_path E w s) h).
Proof.
  intros Hs Hi. destruct (launch_prefix E fuel s h r b v w Hs Hi) as [msg Hl].
  set (S0 := session_started w (scene_path E w s) h v msg) in *.
  destruct (run_ui_thread_calls E (scene_path E w s) h v S0) as (d & Hd & Hc).
  exists msg, d. eexists. split; [exact Hl|].
  pose proof (run_ui_thread_object E (scene_path E w s) h v S0) as Ho.
  pose proof (run_ui_thread_cwd E (scene_path E w s) h v S0) as Hw.
  split; [|split; [exact Hw|split; [exact Hc|split]]].
  - assert (Ht : trace S0
                 = trace w ++ [Print msg; Print "Calling simExtLaunchUIThread with scene";
                               ThreadStart (List.length (threads w))])
      by reflexivity.
    rewrite Ho at 1.
    change (cwd (set_current (current w)
                   (snd (_run_ui_thread E (scene_path E w s) h v S0))))
      with (cwd (snd (_run_ui_thread E (scene_path E w s) h v S0))).
    rewrite Hd, Ht. unfold before_poll. rewrite <- app_assoc. reflexivity.
  - intros Hn. rewrite (run_ui_thread_no_dir E _ h v S0 Hn) in Hd.
    change (trace S0 = trace S0 ++ d) in Hd.
    apply (f_equal (@List.length Event)) in Hd. rewrite length_app in Hd.
    destruct d; [reflexivity|cbn in Hd; lia].
  - intros Hdir Ha Hr Hn.
    rewrite (run_ui_thread_ok E _ h v S0 Hdir Ha Hr Hn) in Hd.
    change (trace S0 ++ session_thread_events E (_vrep_root w) (scene_path E w s) h
            = trace S0 ++ d) in Hd.
    apply app_inv_head in Hd. auto.
Qed.

(** ** [launch], after the session thread *)

Lemma bind_assoc A B C (m : M A) (f : A -> M B) (g : B -> M C) w :
  bind (bind m f) g w = bind m (fun a => bind (f a) g) w.
Proof. unfold bind. destruct (m w) as [[a| e |] w1]; reflexivity. Qed.

Lemma session_footprint_bind A B (m : M A) (f : A -> M B) :
  Keeps session_footprint m -> (forall a, Keeps session_footprint (f a)) ->
  Keeps session_footprint (bind m f).
Proof. apply Keeps_bind, session_footprint_trans. Qed.

Lemma session_footprint_wait_ready E fuel :
  Keeps session_footprint (wait_ready E fuel).
Proof. session_rule Fp_wait_ready. Qed.

Lemma session_footprint_after_init E fuel abs r b :
  Keeps session_footprint (session_after_init E fuel abs r b).
Proof. session_rule Fp_session_after_init. Qed.

Lemma session_footprint_call E c :
  session_event (Call c) = true -> Keeps session_footprint (call E c).
Proof.
  intros H w. unfold call. destruct (raises E c _); cbn;
    apply session_footprint_log, H.
Qed.

(** A computation that keeps the session footprint, followed by the last
    change of directory of [launch]. *)
Lemma tail_events (m : M unit) E saved w :
  Keeps session_footprint m ->
  exists post,
    trace (snd ((m ;; chdir E saved) w)) = trace w ++ post /\
    existsb is_launch_ui_call post = false /\
    (fst ((m ;; chdir E saved) w) <> Ret tt ->
     cwd (snd ((m ;; chdir E saved) w)) = cwd w).
Proof.
  intros Hm. destruct (Hm w) as (Hc & _ & d & Hd & Hf).
  apply session_events_no_launch_ui in Hf. unfold added in Hd.
  unfold bind. destruct (m w) as [[[]| e |] w1]; cbn in *.
  - unfold chdir. destruct (fs E saved) as [[]|]; cbn.
    + exists d. auto.
    + exists (d ++ [Chdir saved]). rewrite Hd, app_assoc.
      split; [reflexivity|]. split; [|congruence].
      rewrite existsb_app, Hf. reflexivity.
    + exists d. auto.
  - exists d. auto.
  - exists d. auto.
Qed.

Lemma launch_tail E fuel abs r b saved w :
  exists post,
    trace (snd ((launch_session E fuel abs r b ;; chdir E saved) w))
    = trace w ++ post /\
    existsb is_launch_ui_call post = false /\
    (fst ((launch_session E fuel abs r b ;; chdir E saved) w) <> Ret tt ->
     cwd (snd ((launch_session E fuel abs r b ;; chdir E saved) w)) = cwd w).
Proof. apply tail_events, session_footprint_launch_session. Qed.

Lemma session_events_no_session_call d :
  forallb session_event d = true -> session_calls d = [].
Proof.
  unfold session_calls. induction d as [|e d IH]; [reflexivity|]. cbn. intros H.
  apply andb_true_iff in H as [He Hd]. rewrite (IH Hd).
  destruct e as [| | | | | | |c]; try reflexivity.
  destruct c; try reflexivity; discriminate.
Qed.

(** What [launch] does after the start of the session thread makes
    neither of the session thread's calls, whatever world it runs in. *)
Lemma launch_tail_calls E fuel abs r b saved w :
  exists post,
    trace (snd ((launch_session E fuel abs r b ;; chdir E saved) w))
    = trace w ++ post /\
    session_calls post = [].
Proof.
  destruct (session_footprint_launch_session E fuel abs r b w)
    as (_ & _ & d & Hd & Hf).
  apply session_events_no_session_call in Hf. unfold added in Hd.
  unfold bind. destruct (launch_session E fuel abs r b w) as [[[]| e |] w1]; cbn in *.
  - unfold chdir. destruct (fs E saved) as [[]|]; cbn.
    + exists d. auto.
    + exists (d ++ [Chdir saved]). rewrite Hd, app_assoc.
      split; [reflexivity|].
      unfold session_calls in *. rewrite filter_app, Hf. reflexivity.
    + exists d. auto.
  - exists d. auto.
  - exists d. auto.
Qed.

(** The first thing [launch] does after starting the session thread is to
    poll the engine. *)
Lemma launch_session_polls_first E fuel abs r b saved w :
  exists post,
    trace (snd ((launch_session E (S fuel) abs r b ;; chdir E saved) w))
    = trace w ++ Call simExtCanInitSimThread :: post.
Proof.
  unfold launch_session.
  change (wait_ready E (S fuel)) with
    (ok <- call_bool E simExtCanInitSimThread ;;
     if ok then ret tt else sleep 100 ;; wait_ready E fuel).
  rewrite bind_assoc. unfold call_bool at 1. rewrite !bind_assoc.
  unfold bind at 1. unfold call at 1.
  destruct (raises E simExtCanInitSimThread _).
  { exists []. reflexivity. }
  unfold bind at 1. unfold ret at 1.
  rewrite <- bind_assoc.
  match goal with
  | |- context [bind ?m (fun _ => chdir E saved) ?W] =>
      destruct (tail_events m E saved W) as (post & Hp & _)
  end.
  { apply session_footprint_bind.
    - destruct (truth E simExtCanInitSimThread _).
      + intros w0. apply session_footprint_refl.
      + apply session_footprint_bind; [|intros _; apply session_footprint_wait_ready].
        intros w0. apply session_footprint_log. reflexivity.
    - intros _. apply session_footprint_bind.
      + apply session_footprint_call. reflexivity.
      + intros _. apply session_footprint_after_init. }
  exists post. rewrite Hp. cbn. rewrite <- app_assoc. reflexivity.
Qed.

Lemma after_start_trace w7 c x tr W :
  w7 = set_current c (set_cwd x (set_trace tr W)) -> trace w7 = tr.
Proof. intros ->. reflexivity. Qed.

(** X12: with an acceptable scene file, an installation root that is a
    directory, ASCII paths and an engine that does not raise, a launch
    sets the verbosity once and launches the engine's UI thread once, and
    both calls are those of its session thread: the verbosity is TRACEALL
    whatever [verbosity] was asked for, and the UI thread is launched
    headless or not as asked, with the empty string for an empty
    [scene_file] and the absolute path of the file otherwise.  The code
    of [launch] that follows the start of the thread makes neither call.
    Where the two calls fall among the events of the launching thread is
    not part of the statement. *)
Theorem launch_engine_arguments E fuel s h r b v w :
  scene_ok E w s -> interrupt E (List.length (threads w)) = None ->
  fs E (_vrep_root w) = Some Dir ->
  is_ascii (scene_path E w s) = true -> is_ascii (_vrep_root w) = true ->
  never_raises E ->
  (exists d,
     added w (snd (launch E fuel s h r b v w)) d /\
     session_calls d
     = [Call (simSetStringParameter (sim_stringparam_verbosity (const E))
                                    (str (sim_verbosity_traceall (const E))));
        Call (simExtLaunchUIThread "PyRep" (gui_options E h) (scene_path E w s)
                                   (_vrep_root w))]) /\
  (s = "" -> scene_path E w s = "") /\
  (s <> "" -> scene_path E w s = abspath E (cwd w) s) /\
  (forall w0,
     exists d0,
       added w0 (snd ((launch_session E fuel (scene_path E w s) r b ;;
                       chdir E (cwd w)) w0)) d0 /\
       session_calls d0 = []).
Proof.
  intros Hs Hi Hd Ha Hr Hn.
  destruct (launch_after_start E fuel s h r b v w Hs Hi)
    as (msg & d & w7 & Hl & Hw7 & _ & _ & _ & Hok).
  specialize (Hok Hd Ha Hr Hn). subst d.
  apply after_start_trace in Hw7.
  split; [|split; [|split]].
  - destruct (launch_tail_calls E fuel (scene_path E w s) r b (cwd w) w7)
      as (post & Hp & Hf).
    exists (before_poll msg (List.length (threads w))
              (session_thread_events E (_vrep_root w) (scene_path E w s) h) ++ post).
    rewrite Hl. unfold added. rewrite Hp, Hw7, <- app_assoc.
    split; [reflexivity|].
    unfold session_calls in *. rewrite filter_app, Hf, app_nil_r. reflexivity.
  - intros ->. reflexivity.
  - intros Hne. unfold scene_path. destruct s; [contradiction|reflexivity].
  - intros w0. apply launch_tail_calls.
Qed.

Lemma launch_engine_arguments_witness :
  exists d,
    added fresh (snd (launch (sample_env 2 1) 10 "scene.ttt" true false false "none" fresh))
      d /\
    session_calls d
    = [Call (simSetStringParameter
               (sim_stringparam_verbosity (const (sample_env 2 1)))
               (str (sim_verbosity_traceall (const (sample_env 2 1)))));
       Call (simExtLaunchUIThread "PyRep" (gui_options (sample_env 2 1) true)
                                  "/home/user/scene.ttt" "/opt/coppelia")].
Proof.
  destruct (launch_engine_arguments (sample_env 2 1) 10 "scene.ttt" true false false
              "none" fresh) as (H & _).
  - right. vm_compute. reflexivity.
  - reflexivity.
  - vm_compute. reflexivity.
  - vm_compute. reflexivity.
  - vm_compute. reflexivity.
  - apply sample_never_raises.
  - exact H.
Defined.

(** X13: [launch] does not learn of a session thread that died.  If the
    installation root is not a directory (a plain file passes the check
    of [__init__]), the session thread ends at its [os.chdir] without a
    single engine call; [launch] goes on all the same, polls the engine
    for readiness, and at no point launches the engine's UI thread. *)
Theorem launch_unnoticed_session_failure E fuel s h r b v w :
  scene_ok E w s -> interrupt E (List.length (threads w)) = None ->
  fs E (_vrep_root w) <> Some Dir ->
  exists msg post,
    added w (snd (launch E fuel s h r b v w))
      (before_poll msg (List.length (threads w)) [] ++ post) /\
    existsb is_launch_ui_call post = false /\
    (0 < fuel -> exists post', post = Call simExtCanInitSimThread :: post').
Proof.
  intros Hs Hi Hd.
  destruct (launch_after_start E fuel s h r b v w Hs Hi)
    as (msg & d & w7 & Hl & Hw7 & _ & _ & Hnd & _).
  specialize (Hnd Hd). subst d. apply after_start_trace in Hw7.
  destruct (launch_tail E fuel (scene_path E w s) r b (cwd w) w7)
    as (post & Hp & Hf & _).
  exists msg, post. rewrite Hl. unfold added. rewrite Hp, Hw7, <- app_assoc.
  split; [reflexivity|]. split; [exact Hf|].
  intros Hfuel. destruct fuel as [|fuel]; [lia|].
  destruct (launch_session_polls_first E fuel (scene_path E w s) r b (cwd w) w7)
    as (post' & Hp').
  rewrite Hp in Hp'. apply app_inv_head in Hp'. exists post'. exact Hp'.
Qed.

Lemma launch_unnoticed_session_failure_witness :
  fst (__init__ file_root_env boot) = Ret tt /\
  exists msg post,
    added (snd (__init__ file_root_env boot))
      (snd (launch file_root_env 10 "" true false false "none"
              (snd (__init__ file_root_env boot))))
      (before_poll msg 0 [] ++ post) /\
    existsb is_launch_ui_call post = false.
Proof.
  split; [vm_compute; reflexivity|].
  destruct (launch_unnoticed_session_failure file_root_env 10 "" true false false
              "none" (snd (__init__ file_root_env boot)))
    as (msg & post & H1 & H2 & _).
  - left. reflexivity.
  - reflexivity.
  - vm_compute. discriminate.
  - exists msg, post. split; [exact H1|exact H2].
Defined.

(** X14: a [launch] that does not return normally leaves the process in
    the installation root.  The session thread has changed the working
    directory to the root, and [launch] changes it back only as its very
    last statement, outside any [finally]: when an exception leaves
    [launch] after the session thread was started, or [launch] never
    ends, the working directory is the root. *)
Theorem launch_failure_leaves_cwd E fuel s h r b v w :
  scene_ok E w s -> interrupt E (List.length (threads w)) = None ->
  fs E (_vrep_root w) = Some Dir ->
  fst (launch E fuel s h r b v w) <> Ret tt ->
  cwd (snd (launch E fuel s h r b v w)) = _vrep_root w.
Proof.
  intros Hs Hi Hd Ho.
  destruct (launch_after_start E fuel s h r b v w Hs Hi)
    as (msg & d & w7 & Hl & _ & Hc & _).
  rewrite Hd in Hc.
  destruct (launch_tail E fuel (scene_path E w s) r b (cwd w) w7)
    as (post & _ & _ & Hk).
  rewrite Hl in *. rewrite (Hk Ho). exact Hc.
Qed.

Lemma launch_failure_leaves_cwd_witness :
  cwd fresh = "/home/user" /\
  cwd (snd (launch stalled_env 7 "" true false false "none" fresh))
  = "/opt/coppelia".
Proof.
  split; [reflexivity|].
  apply (launch_failure_leaves_cwd stalled_env 7 "" true false false "none" fresh).
  - left. reflexivity.
  - reflexivity.
  - vm_compute. reflexivity.
  - vm_compute. discriminate.
Defined.

(** ** A launch that succeeds *)

Lemma wait_ready_ready E n :
  (forall k, raises E simExtCanInitSimThread k = false) ->
  forall fuel w, n < fuel -> ready_after E (trace w) n ->
  wait_ready E fuel w
  = (Ret tt,
     set_trace (trace w ++ idle_polls n ++ [Call simExtCanInitSimThread]) w).
Proof.
  intros Hn. induction n as [|n IH]; intros fuel w Hlt [Hf Ht].
  - destruct fuel; [lia|]. rewrite wait_ready_round. cbn zeta.
    rewrite Nat.add_0_r in Ht. rewrite Hn, Ht. reflexivity.
  - destruct fuel; [lia|]. rewrite wait_ready_round. cbn zeta.
    rewrite Hn. specialize (Hf 0 ltac:(lia)) as Hf0.
    rewrite Nat.add_0_r in Hf0. rewrite Hf0.
    rewrite IH.
    + rewrite idle_polls_S, set_trace_app, <- !app_assoc. reflexivity.
    + lia.
    + split.
      * intros j Hj. cbn [trace set_trace].
        rewrite occurrences_app, occurrences_one_poll, <- Nat.add_assoc.
        apply Hf. lia.
      * cbn [trace set_trace].
        rewrite occurrences_app, occurrences_one_poll, <- Nat.add_assoc.
        exact Ht.
Qed.

Lemma lo_print s : logs_only (print s).
Proof. apply lo_log. Qed.

Lemma lo_sleep n : logs_only (sleep n).
Proof. apply lo_log. Qed.

Lemma bind_logs_only A B (m : M A) (f : A -> M B) w :
  logs_only m -> step_lock w = false ->
  exists a d, bind m f w = f a (set_trace (trace w ++ d) w).
Proof.
  intros Hm Hl. destruct (Hm w Hl) as (a & d & Ha). exists a, d.
  unfold bind. rewrite Ha. reflexivity.
Qed.

(** Runs, in the hypothesis [H], a first statement that only logs. *)
Ltac log_step H Hl lem :=
  match type of H with
  | bind ?m ?f ?W = _ =>
      let a := fresh "a" in
      let d := fresh "d" in
      let Hb := fresh "Hb" in
      destruct (bind_logs_only _ _ m f W lem Hl) as (a & d & Hb);
      rewrite Hb in H; clear Hb; cbn beta in H;
      rewrite ?set_trace_app in H
  end.

Lemma session_after_init_returns E fuel abs r w :
  step_lock w = false ->
  (forall k, raises E (simExtStep None) k = false) ->
  (r = true -> interrupt E (List.length (threads w)) = None) ->
  exists d l,
    session_after_init E fuel abs r false w
    = (Ret tt,
       set_calls (calls w ++ l)
         (set_trace (trace w ++ d) (with_responsive_thread r w))).
Proof.
  intros Hl Hstep Hi.
  destruct (session_after_init E fuel abs r false w) as [o w'] eqn:H.
  unfold session_after_init in H.
  log_step H Hl (lo_sleep 200).
  log_step H Hl (lo_preliminary_step E).
  log_step H Hl (lo_print "simExtSimThreadInit completed (and preliminary step done).").
  log_step H Hl (lo_print "simExtSimThreadInit completed.").
  log_step H Hl (lo_print "Attempting to list objects in the scene NOW...").
  log_step H Hl (lo_report_scene_name E abs).
  log_step H Hl (lo_print "Attempting to list objects in the scene NOW (immediately)...").
  log_step H Hl (lo_list_scene_objects E).
  match type of H with
  | context [set_trace (trace w ++ ?D) w] => set (D0 := D) in H
  end.
  clearbody D0.
  destruct r.
  - unfold bind at 1 in H. rewrite dispatch_responsive in H.
    unfold bind at 1, try_except in H. rewrite responsive_thread_start in H.
    match type of H with
    | context [interrupt E (List.length (threads ?W))] =>
        change (threads W) with (threads w) in H
    end.
    rewrite (Hi eq_refl) in H.
    rewrite step_run in H by exact Hl. rewrite Hstep in H.
    match type of H with
    | final_report E false ?W = _ =>
        destruct (lo_final_report E false W Hl) as ([] & d9 & Hb)
    end.
    rewrite Hb in H. clear Hb. injection H as <- <-.
    exists (D0 ++ [ThreadStart (List.length (threads w))] ++ step_events ++ d9),
           [m_step].
    f_equal. unfold responsive_thread_started, with_responsive_thread.
    destruct w; cbn. rewrite <- !app_assoc. reflexivity.
  - change (dispatch E fuel false false) with (step E) in H.
    unfold bind at 1 in H.
    rewrite step_run in H by exact Hl. rewrite Hstep in H.
    match type of H with
    | final_report E false ?W = _ =>
        destruct (lo_final_report E false W Hl) as ([] & d9 & Hb)
    end.
    rewrite Hb in H. clear Hb. injection H as <- <-.
    exists (D0 ++ step_events ++ d9), [m_step].
    f_equal. unfold with_responsive_thread.
    destruct w; cbn. rewrite <- !app_assoc. reflexivity.
Qed.

Lemma ready_after_start E tr n pre d :
  ready_after E tr n ->
  occurrences simExtCanInitSimThread pre = 0 -> session_thread_calls d ->
  ready_after E (tr ++ pre ++ d) n.
Proof.
  intros [Hf Ht] Hp Hd.
  assert (Ho : occurrences simExtCanInitSimThread (tr ++ pre ++ d)
               = occurrences simExtCanInitSimThread tr).
  { rewrite !occurrences_app, Hp, (session_thread_calls_no_poll d Hd). lia. }
  split.
  - intros j Hj. rewrite Ho. apply Hf, Hj.
  - rewrite Ho. exact Ht.
Qed.

Lemma launch_session_returns E fuel n abs r w :
  launch_calls_return E -> step_lock w = false ->
  (r = true -> interrupt E (List.length (threads w)) = None) ->
  n < fuel -> ready_after E (trace w) n ->
  exists d l,
    launch_session E fuel abs r false w
    = (Ret tt,
       set_calls (calls w ++ l)
         (set_trace (trace w ++ d) (with_responsive_thread r w))).
Proof.
  intros Hc Hl Hi Hlt Hr.
  assert (Hpoll : forall k, raises E simExtCanInitSimThread k = false)
    by (intros k; apply (Hc k)).
  assert (Hinit : forall k, raises E simExtSimThreadInit k = false)
    by (intros k; apply (Hc k)).
  assert (Hstep : forall k, raises E (simExtStep None) k = false)
    by (intros k; apply (Hc k)).
  unfold launch_session. unfold bind at 1.
  rewrite (wait_ready_ready E n Hpoll fuel w Hlt Hr).
  unfold bind at 1. unfold call at 1. rewrite Hinit.
  rewrite set_trace_app.
  match goal with
  | |- context [session_after_init E fuel abs r false ?W] =>
      destruct (session_after_init_returns E fuel abs r W Hl Hstep Hi) as (d & l & Hs)
  end.
  rewrite Hs. eexists _, l. f_equal.
  unfold with_responsive_thread. destruct r; destruct w; cbn;
    rewrite <- !app_assoc; reflexivity.
Qed.

Lemma chdir_dir E p w :
  fs E p = Some Dir ->
  chdir E p w = (Ret tt, set_cwd p (set_trace (trace w ++ [Chdir p]) w)).
Proof. intros H. unfold chdir. rewrite H. reflexivity. Qed.

Lemma launch_returns E fuel n s h r v w :
  scene_ok E w s ->
  interrupt E (List.length (threads w)) = None ->
  (r = true -> interrupt E (S (List.length (threads w))) = None) ->
  launch_calls_return E ->
  step_lock w = false ->
  fs E (cwd w) = Some Dir ->
  n < fuel -> ready_after E (trace w) n ->
  exists w',
    launch E fuel s h r false v w = (Ret tt, w') /\
    launched_from w (scene_path E w s) h v r w'.
Proof.
  intros Hs Hi Hi2 Hc Hl Hd Hlt Hr.
  destruct (launch_after_start E fuel s h r false v w Hs Hi)
    as (msg & d & w7 & Hlaunch & Hw7 & _ & Hcalls & _).
  set (abs := scene_path E w s) in *.
  generalize dependent (cwd w7). intros c7 Hw7.
  assert (Hl7 : step_lock w7 = false) by (rewrite Hw7; exact Hl).
  assert (Ht7 : trace w7 = trace w ++ before_poll msg (List.length (threads w)) d)
    by (rewrite Hw7; reflexivity).
  assert (Hth7 : threads w7
                 = threads w ++ [mkThread (run_ui_thread abs h v) true true])
    by (rewrite Hw7; reflexivity).
  destruct (launch_session_returns E fuel n abs r w7 Hc Hl7) as (d2 & l2 & Hsess);
    [| exact Hlt | |].
  { intros Hr'. rewrite Hth7, length_app, Nat.add_1_r. apply Hi2, Hr'. }
  { rewrite Ht7. unfold before_poll. apply ready_after_start; auto. }
  rewrite Hlaunch. unfold bind. rewrite Hsess. rewrite (chdir_dir E _ _ Hd).
  eexists. split; [reflexivity|].
  rewrite Hw7. unfold launched_from, launched_threads, with_responsive_thread,
    session_started.
  destruct r; open_world w;
    rewrite ?length_app, ?Nat.add_1_r, <- ?app_assoc;
    repeat split; try reflexivity; try assumption.
Qed.

(** X15: a launch with [blocking=False] returns normally, with the
    session up, whenever the scene file is acceptable, no [Thread.start]
    is interrupted, the gate is free, the directory it was called in is
    still a directory, the engine reports readiness within the fuel, and
    the readiness poll, the initialisation call and the first step do not
    raise; what the other engine calls do is immaterial.  The object then
    names the new session thread, a started daemon, and with
    [responsive_ui] also the new responsive thread; [running], the
    shutdown flag and the working directory are as before.  It does not
    matter whether the object was launched before: the handle is simply
    replaced. *)
Theorem launch_success E fuel n s h r v w :
  scene_ok E w s ->
  interrupt E (List.length (threads w)) = None ->
  (r = true -> interrupt E (S (List.length (threads w))) = None) ->
  launch_calls_return E ->
  step_lock w = false ->
  fs E (cwd w) = Some Dir ->
  n < fuel -> ready_after E (trace w) n ->
  exists w',
    launch E fuel s h r false v w = (Ret tt, w') /\
    launched_from w (scene_path E w s) h v r w' /\
    (forall ui, _ui_thread w = Some ui -> ui < List.length (threads w) ->
     _ui_thread w' <> Some ui /\ nth_error (threads w') ui = nth_error (threads w) ui).
Proof.
  intros Hs Hi Hi2 Hc Hl Hd Hlt Hr.
  destruct (launch_returns E fuel n s h r v w Hs Hi Hi2 Hc Hl Hd Hlt Hr)
    as (w' & Hw & Hf).
  exists w'. split; [exact Hw|]. split; [exact Hf|].
  intros ui Hu Hlt'. destruct Hf as (Hui & _ & Hth & _). split.
  - rewrite Hui. intros [= Heq]. lia.
  - rewrite Hth. apply nth_error_app1, Hlt'.
Qed.

Lemma launch_success_witness :
  exists w',
    launch (sample_env 2 1) 10 "scene.ttt" true true false "none" launched
    = (Ret tt, w') /\
    _ui_thread launched = Some 0 /\ _ui_thread w' = Some 1 /\
    _responsive_ui_thread w' = Some 2.
Proof.
  destruct (launch_success (sample_env 2 1) 10 0 "scene.ttt" true true "none" launched)
    as (w' & Hw & (Hui & Hrui & _) & _).
  - right. vm_compute. reflexivity.
  - reflexivity.
  - reflexivity.
  - intros k. repeat split.
  - vm_compute. reflexivity.
  - vm_compute. reflexivity.
  - lia.
  - split; [intros j Hj; lia|vm_compute; reflexivity].
  - exists w'. split; [exact Hw|]. split; [vm_compute; reflexivity|].
    split; [exact Hui|exact Hrui].
Defined.

(** ** A launch with [blocking=True] *)

Lemma shutdown_returned E w w' :
  shutdown E w = (Ret tt, w') ->
  _ui_thread w' = None /\ _shutting_down w' = false /\ running w' = false.
Proof.
  intros H. destruct (_ui_thread w) as [ui|] eqn:Hu.
  - destruct (shutdown_completed E w ui w' Hu H) as (_ & _ & H1 & H2 & H3). auto.
  - destruct (refused_before_launch E w Hu) as (_ & _ & H3).
    rewrite H3 in H. discriminate.
Qed.

Lemma blocking_launch_ends_in_shutdown E fuel s h r v w w' :
  launch E fuel s h r true v w = (Ret tt, w') ->
  exists w1 w2,
    shutdown E w1 = (Ret tt, w2) /\
    w' = set_cwd (cwd w) (set_trace (trace w2 ++ [Chdir (cwd w)]) w2).
Proof.
  unfold launch. intros H.
  apply bind_Ret in H as ([] & w0 & H0 & H). injection H0 as <-.
  apply bind_Ret in H as (a & w1 & H1 & H).
  apply check_scene_file_Ret in H1 as [msg ->].
  apply bind_Ret in H as ([] & w2 & H2 & H). injection H2 as <-.
  apply bind_Ret in H as (saved & w3 & H3 & H). injection H3 as <- <-.
  apply bind_Ret in H as (t & w4 & _ & H).
  apply bind_Ret in H as ([] & w5 & _ & H).
  apply bind_Ret in H as ([] & w6 & _ & H).
  apply bind_Ret in H as ([] & w7 & _ & H).
  apply bind_Ret in H as ([] & w8 & H8 & H).
  apply chdir_Ret in H. cbn [cwd set_trace set_calls] in H.
  unfold launch_session in H8.
  apply bind_Ret in H8 as ([] & w9 & _ & H8).
  apply bind_Ret in H8 as (k & w10 & _ & H8).
  unfold session_after_init in H8.
  apply bind_Ret in H8 as ([] & w11 & _ & H8).
  apply bind_Ret in H8 as ([] & w12 & _ & H8).
  apply bind_Ret in H8 as ([] & w13 & _ & H8).
  apply bind_Ret in H8 as ([] & w14 & _ & H8).
  apply bind_Ret in H8 as ([] & w15 & _ & H8).
  apply bind_Ret in H8 as ([] & w16 & _ & H8).
  apply bind_Ret in H8 as ([] & w17 & _ & H8).
  apply bind_Ret in H8 as ([] & w18 & _ & H8).
  apply bind_Ret in H8 as ([] & w19 & Hd & H8).
  injection H8 as <-.
  unfold dispatch in Hd.
  apply bind_Ret in Hd as ([] & w20 & _ & Hd).
  exists w20, w19. split; [exact Hd|exact H].
Qed.

(** X16: a launch with [blocking=True] that returns has already shut the
    session down.  The object is not launched when [launch] returns: the
    handle is [None], the shutdown flag is down and [running] is false,
    and [start], [stop] and [shutdown] then raise the not-launched error.
    The [responsive_ui] argument plays no part in such a launch. *)
Theorem blocking_launch_returns_shut_down E fuel s h r v w :
  launch E fuel s h r true v w = launch E fuel s h false true v w /\
  (forall w', launch E fuel s h r true v w = (Ret tt, w') ->
     _ui_thread w' = None /\ _shutting_down w' = false /\ running w' = false /\
     start E w' = (Raise NotLaunchedError, set_calls (calls w' ++ [m_start]) w') /\
     stop E w' = (Raise NotLaunchedError, set_calls (calls w' ++ [m_stop]) w') /\
     shutdown E w'
     = (Raise NotLaunchedError, set_calls (calls w' ++ [m_shutdown]) w')).
Proof.
  split.
  - destruct r; reflexivity.
  - intros w' H.
    destruct (blocking_launch_ends_in_shutdown E fuel s h r v w w' H)
      as (w1 & w2 & Hsd & ->).
    destruct (shutdown_returned E w1 w2 Hsd) as (Hu & Hs & Hr).
    assert (Hu' : _ui_thread (set_cwd (cwd w) (set_trace (trace w2 ++ [Chdir (cwd w)]) w2))
                  = None) by exact Hu.
    destruct (refused_before_launch E _ Hu') as (H1 & H2 & H3).
    repeat split; assumption.
Qed.

Lemma blocking_launch_returns_shut_down_witness :
  fst blocking_run = Ret tt /\ _ui_thread (snd blocking_run) = None.
Proof.
  assert (H : launch (sample_env 2 1) 10 "" true false true "none" fresh
              = (Ret tt, snd blocking_run)) by (vm_compute; reflexivity).
  split; [vm_compute; reflexivity|].
  apply (proj2 (blocking_launch_returns_shut_down (sample_env 2 1) 10 "" true false
                  "none" fresh) _ H).
Defined.

(** ** A session from [launch] to [shutdown] *)







(** ** The buffers of the scene listing *)

Lemma trace_set_trace t w : trace (set_trace t w) = t.
Proof. reflexivity. Qed.

Lemma set_trace_twice t t' w : set_trace t (set_trace t' w) = set_trace t w.
Proof. reflexivity. Qed.

(** The lookup of one name: the buffer, if there is one, is released
    whether or not it decodes; a buffer that does not decode ends the
    lookup with the error of the decoder. *)
Lemma name_lookup E h w :
  never_raises E ->
  (name_ptr <- call_buffer E (simGetObjectName h) ;;
   match name_ptr with
   | Some name =>
       try_finally (decode_utf8 name ;; ret tt)
                   (call E simReleaseBuffer ;; ret tt)
   | None => ret tt
   end) w
  = (match buffer E (simGetObjectName h) (occurrences (simGetObjectName 0) (trace w)) with
     | Some b =>
         if name_decodes E (occurrences (simGetObjectName 0) (trace w)) h
         then Ret tt else Raise (UnicodeDecodeError b)
     | None => Ret tt
     end,
     set_trace (trace w ++ name_events E (occurrences (simGetObjectName 0) (trace w)) [h])
       w).
Proof.
  intros Hn. unfold name_decodes. open_world w. exec_with ltac:(rewrite ?Hn).
  change (occurrences (simGetObjectName h) trace0)
    with (occurrences (simGetObjectName 0) trace0).
  destruct (buffer E (simGetObjectName h) _) as [b|];
    [|exec_with ltac:(rewrite ?Hn); f_equal; same_world].
  unfold decode_utf8. destruct (utf8_points _);
    exec_with ltac:(rewrite ?Hn); f_equal; same_world.
Qed.

Lemma name_events_lookups E hs :
  forall k, occurrences (simGetObjectName 0) (name_events E k hs) = List.length hs.
Proof.
  induction hs as [|h l IH]; intros k; [reflexivity|].
  cbn [name_events]. rewrite occurrences_app, IH.
  destruct (buffer E (simGetObjectName h) k); reflexivity.
Qed.

Lemma name_events_releases E hs :
  forall k, occurrences simReleaseBuffer (name_events E k hs) = names_found E k hs.
Proof.
  induction hs as [|h l IH]; intros k; [reflexivity|].
  cbn [name_events names_found]. rewrite occurrences_app, IH.
  destruct (buffer E (simGetObjectName h) k); reflexivity.
Qed.

Lemma name_events_app E a b :
  forall k,
  name_events E k (a ++ b) = name_events E k a ++ name_events E (k + List.length a) b.
Proof.
  induction a as [|h l IH]; intros k.
  - cbn. now rewrite Nat.add_0_r.
  - cbn [app name_events List.length]. rewrite IH, <- app_assoc.
    now rewrite Nat.add_succ_r.
Qed.

(** Names that all decode: every handle is looked up. *)
Lemma name_lookups E hs :
  never_raises E ->
  forall w,
  names_decode E (occurrences (simGetObjectName 0) (trace w)) hs = true ->
  for_each hs
    (fun handle_val =>
       name_ptr <- call_buffer E (simGetObjectName handle_val) ;;
       match name_ptr with
       | Some name =>
           try_finally (decode_utf8 name ;; ret tt)
                       (call E simReleaseBuffer ;; ret tt)
       | None => ret tt
       end) w
  = (Ret tt,
     set_trace (trace w ++ name_events E (occurrences (simGetObjectName 0) (trace w)) hs)
       w).
Proof.
  intros Hn. induction hs as [|h l IH]; intros w Hd.
  - cbn. unfold ret. now rewrite set_trace_nil.
  - cbn [for_each]. cbn [names_decode] in Hd. apply andb_true_iff in Hd as [Hh Hl].
    unfold bind at 1. rewrite (name_lookup E h w Hn), Hh.
    assert (Hk : occurrences (simGetObjectName 0)
                   (trace w ++ name_events E (occurrences (simGetObjectName 0) (trace w)) [h])
                 = S (occurrences (simGetObjectName 0) (trace w))).
    { rewrite occurrences_app, (name_events_lookups E [h]). cbn. lia. }
    destruct (buffer E (simGetObjectName h) _) eqn:Hb.
    all: rewrite IH by (rewrite trace_set_trace, Hk; exact Hl).
    all: rewrite set_trace_app, trace_set_trace, Hk.
    all: cbn [name_events]; rewrite Hb, app_nil_r; reflexivity.
Qed.

(** A name that does not decode: its buffer is released, and the lookups
    end there. *)
Lemma name_lookups_fail E pre h post b :
  never_raises E ->
  forall w,
  names_decode E (occurrences (simGetObjectName 0) (trace w)) pre = true ->
  buffer E (simGetObjectName h)
         (occurrences (simGetObjectName 0) (trace w) + List.length pre) = Some b ->
  name_decodes E (occurrences (simGetObjectName 0) (trace w) + List.length pre) h
  = false ->
  for_each (pre ++ h :: post)
    (fun handle_val =>
       name_ptr <- call_buffer E (simGetObjectName handle_val) ;;
       match name_ptr with
       | Some name =>
           try_finally (decode_utf8 name ;; ret tt)
                       (call E simReleaseBuffer ;; ret tt)
       | None => ret tt
       end) w
  = (Raise (UnicodeDecodeError b),
     set_trace
       (trace w
        ++ name_events E (occurrences (simGetObjectName 0) (trace w)) (pre ++ [h]))
       w).
Proof.
  intros Hn. induction pre as [|x l IH]; intros w Hd Hb Hf.
  - cbn [app for_each List.length] in *. rewrite Nat.add_0_r in Hb, Hf.
    unfold bind at 1. rewrite (name_lookup E h w Hn), Hb, Hf. reflexivity.
  - cbn [app for_each List.length]. cbn [names_decode] in Hd.
    apply andb_true_iff in Hd as [Hx Hl].
    unfold bind at 1. rewrite (name_lookup E x w Hn), Hx.
    assert (Hk : occurrences (simGetObjectName 0)
                   (trace w ++ name_events E (occurrences (simGetObjectName 0) (trace w)) [x])
                 = S (occurrences (simGetObjectName 0) (trace w))).
    { rewrite occurrences_app, (name_events_lookups E [x]). cbn. lia. }
    cbn [List.length] in Hb, Hf. rewrite Nat.add_succ_r in Hb, Hf.
    destruct (buffer E (simGetObjectName x) _) eqn:Hbx.
    all: rewrite IH by (rewrite trace_set_trace, Hk; assumption).
    all: rewrite set_trace_app, trace_set_trace, Hk.
    all: cbn [name_events]; rewrite Hbx, app_nil_r; reflexivity.
Qed.

Lemma list_scene_objects_found E w h l :
  never_raises E ->
  handles E (scene_tree_call E) (occurrences (scene_tree_call E) (trace w))
  = Some (h :: l) ->
  names_decode E (occurrences (simGetObjectName 0) (trace w)) (h :: l) = true ->
  list_scene_objects E w
  = (Ret tt,
     set_trace
       (trace w
        ++ [Call (scene_tree_call E); Print "Found object handles."]
        ++ name_events E (occurrences (simGetObjectName 0) (trace w)) (h :: l)
        ++ [Call simReleaseBuffer; Print "Objects in scene immediately after launch"])
       w).
Proof.
  intros Hn Hh Hd. unfold list_scene_objects, try_except.
  fold (scene_tree_call E).
  unfold bind at 1. unfold call_handles, bind at 1, call at 1. rewrite Hn.
  unfold ret at 1. cbn [trace set_trace]. rewrite Hh.
  unfold bind at 1. unfold bind at 1. unfold print at 1, log at 1, modify at 1.
  assert (Hk : occurrences (simGetObjectName 0)
                 (trace w ++ [Call (scene_tree_call E); Print "Found object handles."])
               = occurrences (simGetObjectName 0) (trace w)).
  { rewrite occurrences_app.
    change (occurrences (simGetObjectName 0)
              [Call (scene_tree_call E); Print "Found object handles."]) with 0.
    lia. }
  rewrite set_trace_app. cbn [app].
  unfold bind at 1.
  rewrite (name_lookups E (h :: l) Hn) by (rewrite trace_set_trace, Hk; exact Hd).
  unfold bind at 1. unfold call at 1. rewrite Hn.
  unfold ret, print, log, modify.
  rewrite ?trace_set_trace, !set_trace_twice, Hk. do 2 f_equal.
  rewrite <- !app_assoc. reflexivity.
Qed.

Lemma list_scene_objects_bad_name E w pre h post b :
  never_raises E ->
  handles E (scene_tree_call E) (occurrences (scene_tree_call E) (trace w))
  = Some (pre ++ h :: post) ->
  names_decode E (occurrences (simGetObjectName 0) (trace w)) pre = true ->
  buffer E (simGetObjectName h)
         (occurrences (simGetObjectName 0) (trace w) + List.length pre) = Some b ->
  name_decodes E (occurrences (simGetObjectName 0) (trace w) + List.length pre) h
  = false ->
  list_scene_objects E w
  = (Ret tt,
     set_trace
       (trace w
        ++ [Call (scene_tree_call E); Print "Found object handles."]
        ++ name_events E (occurrences (simGetObjectName 0) (trace w)) (pre ++ [h])
        ++ [Print "Error encountered while trying to list objects after launch";
            Print "traceback"])
       w).
Proof.
  intros Hn Hh Hd Hb Hf. unfold list_scene_objects, try_except.
  fold (scene_tree_call E).
  unfold bind at 1. unfold call_handles, bind at 1, call at 1. rewrite Hn.
  unfold ret at 1. cbn [trace set_trace]. rewrite Hh.
  assert (Hk : occurrences (simGetObjectName 0)
                 (trace w ++ [Call (scene_tree_call E); Print "Found object handles."])
               = occurrences (simGetObjectName 0) (trace w)).
  { rewrite occurrences_app.
    change (occurrences (simGetObjectName 0)
              [Call (scene_tree_call E); Print "Found object handles."]) with 0.
    lia. }
  destruct (pre ++ h :: post) as [|h0 l0] eqn:Hl;
    [destruct pre; discriminate|]. rewrite <- Hl.
  unfold bind at 1. unfold bind at 1. unfold print at 1, log at 1, modify at 1.
  rewrite set_trace_app. cbn [app].
  unfold bind at 1.
  rewrite (name_lookups_fail E pre h post b Hn)
    by (rewrite trace_set_trace, Hk; assumption).
  cbn [is_Exception].
  unfold bind, print, log, modify.
  rewrite ?trace_set_trace, !set_trace_twice, Hk. do 2 f_equal.
  rewrite <- !app_assoc. reflexivity.
Qed.

Lemma list_scene_objects_none E w :
  never_raises E ->
  (handles E (scene_tree_call E) (occurrences (scene_tree_call E) (trace w)) = None \/
   handles E (scene_tree_call E) (occurrences (scene_tree_call E) (trace w)) = Some []) ->
  list_scene_objects E w
  = (Ret tt,
     set_trace
       (trace w
        ++ [Call (scene_tree_call E);
            Print "simGetObjectsInTree returned no objects or an error";
            Print "Objects in scene immediately after launch"])
       w).
Proof.
  intros Hn Hh. unfold list_scene_objects, try_except.
  fold (scene_tree_call E).
  unfold bind at 1. unfold call_handles, bind at 1, call at 1. rewrite Hn.
  unfold ret at 1. cbn [trace set_trace].
  destruct Hh as [-> | ->]; unfold bind, print, log, modify;
    rewrite ?trace_set_trace, !set_trace_twice, <- !app_assoc; reflexivity.
Qed.

(** X18: the listing of the scene objects in [launch], with an engine
    that does not raise.  Given a non-empty array of handles whose names
    are NULL or decode as UTF-8, it looks up the name of every handle,
    releases each name buffer that is not NULL right after the lookup and
    never a NULL one, and releases the array last: one release per buffer
    obtained.  At the first name that does not decode, the buffer of
    that name is still released, but the remaining handles are not looked
    up and the array is never released; the block reports the error and
    returns.  Given NULL it releases nothing; given an array with a count
    of zero it releases nothing either, array included. *)
Theorem scene_listing_buffers E w :
  never_raises E ->
  (forall h l,
     handles E (scene_tree_call E) (occurrences (scene_tree_call E) (trace w))
     = Some (h :: l) ->
     names_decode E (occurrences (simGetObjectName 0) (trace w)) (h :: l) = true ->
     list_scene_objects E w
     = (Ret tt,
        set_trace
          (trace w
           ++ [Call (scene_tree_call E); Print "Found object handles."]
           ++ name_events E (occurrences (simGetObjectName 0) (trace w)) (h :: l)
           ++ [Call simReleaseBuffer;
               Print "Objects in scene immediately after launch"])
          w)) /\
  (forall pre h post b,
     handles E (scene_tree_call E) (occurrences (scene_tree_call E) (trace w))
     = Some (pre ++ h :: post) ->
     names_decode E (occurrences (simGetObjectName 0) (trace w)) pre = true ->
     buffer E (simGetObjectName h)
            (occurrences (simGetObjectName 0) (trace w) + List.length pre) = Some b ->
     utf8_points (list_ascii_of_string b) = None ->
     list_scene_objects E w
     = (Ret tt,
        set_trace
          (trace w
           ++ [Call (scene_tree_call E); Print "Found object handles."]
           ++ name_events E (occurrences (simGetObjectName 0) (trace w)) (pre ++ [h])
           ++ [Print "Error encountered while trying to list objects after launch";
               Print "traceback"])
          w)) /\
  ((handles E (scene_tree_call E) (occurrences (scene_tree_call E) (trace w)) = None \/
    handles E (scene_tree_call E) (occurrences (scene_tree_call E) (trace w)) = Some []) ->
   list_scene_objects E w
   = (Ret tt,
      set_trace
        (trace w
         ++ [Call (scene_tree_call E);
             Print "simGetObjectsInTree returned no objects or an error";
             Print "Objects in scene immediately after launch"])
        w)) /\
  (forall k hs,
     occurrences (simGetObjectName 0) (name_events E k hs) = List.length hs /\
     occurrences simReleaseBuffer (name_events E k hs) = names_found E k hs /\
     names_found E k hs <= List.length hs).
Proof.
  intros Hn. split; [|split; [|split]].
  - intros h l Hh Hd. apply list_scene_objects_found; assumption.
  - intros pre h post b Hh Hd Hb Hu.
    apply list_scene_objects_bad_name with (post := post) (b := b); try assumption.
    unfold name_decodes. rewrite Hb, Hu. reflexivity.
  - intros Hh. apply list_scene_objects_none; assumption.
  - intros k hs. split; [apply name_events_lookups|].
    split; [apply name_events_releases|].
    revert k. induction hs as [|h l IH]; intros k; [reflexivity|].
    cbn [names_found List.length]. specialize (IH (S k)).
    destruct (buffer E (simGetObjectName h) k); lia.
Qed.

Lemma scene_listing_buffers_witness :
  engine_calls (trace (snd (list_scene_objects listing_env fresh)))
  = [scene_tree_call listing_env;
     simGetObjectName 7; simReleaseBuffer;
     simGetObjectName 8;
     simGetObjectName 9; simReleaseBuffer;
     simReleaseBuffer] /\
  engine_calls (trace (snd (list_scene_objects bad_name_env fresh)))
  = [scene_tree_call bad_name_env;
     simGetObjectName 7; simReleaseBuffer;
     simGetObjectName 8; simReleaseBuffer].
Proof.
  assert (Hn : never_raises listing_env) by (intros c n; reflexivity).
  assert (Hb : never_raises bad_name_env) by (intros c n; reflexivity).
  split.
  - rewrite (proj1 (scene_listing_buffers listing_env fresh Hn) 7%Z [8%Z; 9%Z]).
    + reflexivity.
    + reflexivity.
    + reflexivity.
  - rewrite (proj1 (proj2 (scene_listing_buffers bad_name_env fresh Hb))
               [7%Z] 8%Z [9%Z] (String (Ascii.ascii_of_nat 128) "")).
    + reflexivity.
    + reflexivity.
    + reflexivity.
    + reflexivity.
    + reflexivity.
Defined.

(** ** The handle of the session thread *)

Lemma handle_kept_refl w : handle_kept w w.
Proof. left. reflexivity. Qed.

Lemma handle_kept_trans w1 w2 w3 :
  handle_kept w1 w2 -> handle_kept w2 w3 -> handle_kept w1 w3.
Proof.
  unfold handle_kept. intros [H1|H1] [H2|H2]; try (right; congruence).
  left. congruence.
Qed.

Ltac handle_rule lem :=
  apply lem with (oke := fun _ : Event => True);
  try (intros; exact I);
  [ apply handle_kept_refl
  | apply handle_kept_trans
  | .. ];
  try (intros; left; reflexivity);
  try (intros; right; reflexivity).

Lemma handle_kept_launch_session E fuel abs r b :
  Keeps handle_kept (launch_session E fuel abs r b).
Proof. handle_rule Fp_launch_session. Qed.

Lemma handle_kept_chdir E p : Keeps handle_kept (chdir E p).
Proof.
  intros w. unfold chdir. destruct (fs E p) as [[]|]; left; reflexivity.
Qed.

Lemma handle_kept_tail E fuel abs r b saved :
  Keeps handle_kept (launch_session E fuel abs r b ;; chdir E saved).
Proof.
  apply Keeps_bind; [apply handle_kept_trans|apply handle_kept_launch_session|].
  intros _. apply handle_kept_chdir.
Qed.

(** X19: [launch] has no guard against a second launch.  Called on an
    object that already names a session thread, with an acceptable scene
    file and an undisturbed [Thread.start], it starts one more session
    thread; when it ends the object names the new thread or none at all,
    and in no case the thread it named before. *)
Theorem launch_replaces_session_handle E fuel s h r b v w t :
  scene_ok E w s -> interrupt E (List.length (threads w)) = None ->
  _ui_thread w = Some t -> t < List.length (threads w) ->
  In (List.length (threads w))
     (thread_starts (trace (snd (launch E fuel s h r b v w)))) /\
  (_ui_thread (snd (launch E fuel s h r b v w)) = Some (List.length (threads w)) \/
   _ui_thread (snd (launch E fuel s h r b v w)) = None) /\
  _ui_thread (snd (launch E fuel s h r b v w)) <> Some t.
Proof.
  intros Hs Hi Hu Ht.
  destruct (launch_after_start E fuel s h r b v w Hs Hi)
    as (msg & d & w7 & Hl & Hw7 & _).
  assert (Hu7 : _ui_thread w7 = Some (List.length (threads w)))
    by (rewrite Hw7; reflexivity).
  pose proof (after_start_trace _ _ _ _ _ Hw7) as Ht7.
  destruct (launch_tail E fuel (scene_path E w s) r b (cwd w) w7)
    as (post & Hp & _).
  pose proof (handle_kept_tail E fuel (scene_path E w s) r b (cwd w) w7) as Hk.
  rewrite Hl. split; [|split].
  - rewrite Hp, Ht7. unfold thread_starts, before_poll.
    rewrite !flat_map_app. apply in_or_app. left. apply in_or_app. right.
    apply in_or_app. left. cbn. left. reflexivity.
  - destruct Hk as [Hk|Hk]; [left; congruence|right; exact Hk].
  - destruct Hk as [Hk|Hk]; rewrite Hk; [|discriminate].
    rewrite Hu7. intros H. injection H as H. lia.
Qed.

Lemma launch_replaces_session_handle_witness :
  _ui_thread launched = Some 0 /\
  _ui_thread (snd (launch (sample_env 2 1) 10 "" true false false "none" launched))
  = Some 1.
Proof.
  split; [vm_compute; reflexivity|].
  destruct (launch_replaces_session_handle (sample_env 2 1) 10 "" true false false
              "none" launched 0) as (_ & [H|H] & _).
  - left. reflexivity.
  - reflexivity.
  - vm_compute. reflexivity.
  - vm_compute. lia.
  - exact H.
  - vm_compute in H. discriminate H.
Defined.

(** ** The check of the scene file *)

(** X20: the scene-file check of [launch] asks whether the path is a
    regular file, not whether it exists.  A non-empty [scene_file] whose
    absolute path is not a regular file is rejected with the scene-file
    error and the message that it does not exist, before any thread is
    created, even if the path exists (a directory).  An empty
    [scene_file] or one that names a regular file passes the check: the
    session thread is started. *)
Theorem launch_scene_must_be_file E fuel s h r b v w :
  (s <> "" -> isfile E (abspath E (cwd w) s) = false ->
   launch E fuel s h r b v w
   = (Raise (SceneFileError s),
      set_trace (trace w ++ [Print "ERROR - Scene file specified BUT DOES NOT EXIST"])
        (set_calls (calls w ++ [m_launch]) w))) /\
  (scene_ok E w s -> interrupt E (List.length (threads w)) = None ->
   In (List.length (threads w))
      (thread_starts (trace (snd (launch E fuel s h r b v w))))).
Proof.
  split.
  - intros Hne Hf. unfold launch, check_scene_file.
    unfold bind at 1. unfold enter at 1, modify at 1.
    unfold bind at 1. unfold bind at 1. unfold gets at 1.
    change (cwd (set_calls (calls w ++ [m_launch]) w)) with (cwd w).
    rewrite (nonempty_length _ Hne), Hf. reflexivity.
  - intros Hs Hi.
    destruct (launch_after_start E fuel s h r b v w Hs Hi)
      as (msg & d & w7 & Hl & Hw7 & _).
    pose proof (after_start_trace _ _ _ _ _ Hw7) as Ht7.
    destruct (launch_tail E fuel (scene_path E w s) r b (cwd w) w7)
      as (post & Hp & _).
    rewrite Hl, Hp, Ht7. unfold thread_starts, before_poll.
    rewrite !flat_map_app. apply in_or_app. left. apply in_or_app. right.
    apply in_or_app. left. cbn. left. reflexivity.
Qed.

Lemma launch_scene_must_be_file_witness :
  exists_ (sample_env 2 1) "/opt/coppelia" = true /\
  fst (launch (sample_env 2 1) 10 "/opt/coppelia" true false false "none" fresh)
  = Raise (SceneFileError "/opt/coppelia") /\
  thread_starts
    (trace (snd (launch (sample_env 2 1) 10 "/opt/coppelia" true false false "none"
                   fresh))) = [].
Proof.
  split; [reflexivity|].
  rewrite (proj1 (launch_scene_must_be_file (sample_env 2 1) 10 "/opt/coppelia"
                    true false false "none" fresh)).
  - split; reflexivity.
  - discriminate.
  - vm_compute. reflexivity.
Defined.
